(** * lib-gx: the GX container codec, the block framer, the telemetry
      parser and the FFControl command queue of [src/lib-gx.js]

    The JavaScript of [lib-gx.js] is embedded function by function.
    Buffers are lists of bytes, JavaScript numbers that the code uses as
    integers are [Z], exceptions are an explicit result type, and the
    mutable fields of an [FFControl] instance are a record that every
    handler takes and returns. *)

From Stdlib Require Import ZArith List Lia Bool String Ascii Strings.Byte.
From stdpp Require Import gmap strings list pretty.
Import ListNotations.

Open Scope Z_scope.

(** ** Exceptions *)

(** What a [throw] of the Node runtime carries, as far as the library
    cares: the family of the error. *)
Inductive exn : Type :=
| RangeError  (* ERR_OUT_OF_RANGE / ERR_BUFFER_OUT_OF_BOUNDS *)
| TypeError.

Inductive result (A : Type) : Type :=
| Ok (a : A)
| Throw (e : exn).
Arguments Ok {A} a.
Arguments Throw {A} e.

Definition bind {A B} (r : result A) (k : A -> result B) : result B :=
  match r with
  | Ok a => k a
  | Throw e => Throw e
  end.

Notation "'let*' x ':=' r 'in' k" := (bind r (fun x => k))
  (at level 10, x name, r at level 100, k at level 200).

Definition is_ok {A} (r : result A) : bool :=
  match r with Ok _ => true | Throw _ => false end.

(** ** Node's Buffer *)

Definition byte_of_Z (v : Z) : byte :=
  match Byte.of_N (Z.to_N (v mod 256)) with
  | Some b => b
  | None => x00
  end.

Definition Z_of_byte (b : byte) : Z := Z.of_N (Byte.to_N b).

Module Buffer.

(** [Buffer.alloc(n)]: [n] zero bytes. *)
Definition alloc (n : Z) : list byte := replicate (Z.to_nat n) x00.

Definition length (buf : list byte) : Z := Z.of_nat (List.length buf).

(** [adjustOffset] of Node's [buffer.js], for integral offsets. *)
Definition adjustOffset (offset len : Z) : Z :=
  if offset =? 0 then 0
  else if offset <? 0 then
         (let o := offset + len in if o >? 0 then o else 0)
       else if offset <? len then offset
            else len.

(** [buf.slice(start, end)]. *)
Definition slice (start end_ : Z) (buf : list byte) : list byte :=
  let srcLength := length buf in
  let s := adjustOffset start srcLength in
  let e := adjustOffset end_ srcLength in
  let newLength := if e >? s then e - s else 0 in
  take (Z.to_nat newLength) (drop (Z.to_nat s) buf).

(** [Buffer.concat(list)]. *)
Definition concat (l : list (list byte)) : list byte := List.concat l.

(** Little-endian value of a run of bytes, least significant first. *)
Fixpoint le_value (bs : list byte) : Z :=
  match bs with
  | [] => 0
  | b :: rest => Z_of_byte b + 256 * le_value rest
  end.

(** The [n] little-endian bytes of [value]. *)
Fixpoint le_bytes (n : nat) (value : Z) : list byte :=
  match n with
  | O => []
  | S k => byte_of_Z value :: le_bytes k (value / 256)
  end.

(** [buf.readUInt8/16LE/32LE(offset)]: [n] is the width in bytes; an
    offset that leaves fewer than [n] bytes throws. *)
Definition readUIntLE (n : nat) (offset : Z) (buf : list byte) : result Z :=
  if (0 <=? offset) && (offset + Z.of_nat n <=? length buf)
  then Ok (le_value (take n (drop (Z.to_nat offset) buf)))
  else Throw RangeError.

(** Overwrite [buf] from [offset] on with [bs]. *)
Definition write_at (offset : Z) (bs buf : list byte) : list byte :=
  take (Z.to_nat offset) buf ++ bs
       ++ drop (Z.to_nat offset + List.length bs) buf.

(** [buf.writeUInt8/16LE/32LE(value, offset)]: a value outside
    [0 .. 2^(8n) - 1] throws, and so does an offset that leaves fewer
    than [n] bytes. *)
Definition writeUIntLE (n : nat) (value offset : Z) (buf : list byte)
  : result (list byte) :=
  if (0 <=? value) && (value <? 2 ^ (8 * Z.of_nat n))
  then if (0 <=? offset) && (offset + Z.of_nat n <=? length buf)
       then Ok (write_at offset (le_bytes n value) buf)
       else Throw RangeError
  else Throw RangeError.

(** [buf.write(string, offset)] for a string of single-byte
    characters: as many bytes as fit are written. *)
Definition write (s : list byte) (offset : Z) (buf : list byte) : list byte :=
  let room := length buf - offset in
  write_at offset (take (Z.to_nat room) s) buf.

(** [buf.toString()] on bytes below 0x80 (UTF-8 decoding is the
    identity there): one character per byte. *)
Definition toString (buf : list byte) : string :=
  string_of_list_ascii (List.map ascii_of_byte buf).

End Buffer.

(** ** JavaScript values the constructors receive *)

(** An optional numeric argument ([time], [length]): absent, [NaN] (what
    [parseInt] gives the command line for a non-number) or an integer. *)
Inductive jsnum : Type :=
| Undefined
| NaN
| Int (z : Z).

(** [v || d] for a numeric [v]: [undefined], [NaN] and [0] are falsy. *)
Definition or_default (v : jsnum) (d : Z) : Z :=
  match v with
  | Undefined | NaN => d
  | Int z => if z =? 0 then d else z
  end.

(** ** GXWriter *)

(** ["xgcode 1.0\n\u0000\u0000\u0000\u0000\u0000"] *)
Definition magic_bytes : list byte :=
  [x78; x67; x63; x6f; x64; x65; x20; x31; x2e; x30; x0a;
   x00; x00; x00; x00; x00].

Definition u8  := Buffer.writeUIntLE 1.
Definition u16 := Buffer.writeUIntLE 2.
Definition u32 := Buffer.writeUIntLE 4.

(** The header of [GXWriter]'s constructor, lines 92-109. [bmp_length]
    is [bmp.length]. *)
Definition GXWriter_header (bmp_length : Z) (time length : jsnum)
  : result (list byte) :=
  let header := Buffer.alloc 58 in
  let header := Buffer.write magic_bytes 0 header in
  let* header := u32 58 16 header in
  let* header := u32 (58 + bmp_length) 20 header in
  let* header := u32 (58 + bmp_length) 24 header in
  let* header := u32 (or_default time 100) 28 header in
  let* header := u32 (or_default length 100) 32 header in
  let* header := u32 0 36 header in
  let* header := u16 1 40 header in
  let* header := u16 200 42 header in
  let* header := u16 20 44 header in
  let* header := u16 3 46 header in
  let* header := u16 60 48 header in
  let* header := u16 110 50 header in
  let* header := u16 220 52 header in
  let* header := u16 220 54 header in
  let* header := u8 1 56 header in
  let* header := u8 1 57 header in
  Ok header.

(** [new GXWriter(gcode, bmp, time, length).output], for [gcode] a
    Buffer and [bmp] a Buffer or [null] (a string argument is first
    replaced by the content of the file of that name, lines 82-87). *)
Definition GXWriter (gcode : list byte) (bmp : option (list byte))
           (time length : jsnum) : result (list byte) :=
  let bmp := match bmp with
             | None => Buffer.alloc 0
             | Some b => b
             end in
  let* header := GXWriter_header (Buffer.length bmp) time length in
  Ok (Buffer.concat [header; bmp; gcode]).

(** ** GXReader *)

(** [String.prototype.trim] on single-byte characters: the white space
    and line terminators below 0x80 are TAB, LF, VT, FF, CR and SP. *)
Definition is_white_space (c : ascii) : bool :=
  let n := Z.of_nat (nat_of_ascii c) in
  ((9 <=? n) && (n <=? 13)) || (n =? 32).

Fixpoint trim_start (s : string) : string :=
  match s with
  | EmptyString => EmptyString
  | String c rest => if is_white_space c then trim_start rest else s
  end.

Fixpoint trim_end (s : string) : string :=
  match s with
  | EmptyString => EmptyString
  | String c rest =>
      match trim_end rest with
      | EmptyString => if is_white_space c then EmptyString
                       else String c EmptyString
      | t => String c t
      end
  end.

Definition trim (s : string) : string := trim_end (trim_start s).

Record GXstruct : Type := {
  magic : string;
  bmpoff : Z; gc1off : Z; gc2off : Z; prsecs : Z; prfila : Z;
  unk01 : Z; unk02 : Z; unk03 : Z; unk04 : Z; unk05 : Z; unk06 : Z;
  unk07 : Z; unk08 : Z; unk09 : Z; unk10 : Z; unk11 : Z;
  index : Z
}.

(** A [GXReader] instance once its constructor has returned. *)
Record GXReader_obj : Type := {
  buf : list byte;
  pos : Z;
  struct : GXstruct
}.

Module Reader.
Section Cursor.

(** [this.buf]: the file's bytes, never written by the reader. *)
Variable buf : list byte.

(** A method that moves [this.pos] and may throw. *)
Definition rd (A : Type) : Type := Z -> result (A * Z).

Definition ret {A} (a : A) : rd A := fun pos => Ok (a, pos).

Definition seq {A B} (m : rd A) (k : A -> rd B) : rd B :=
  fun pos => match m pos with
             | Ok (a, pos') => k a pos'
             | Throw e => Throw e
             end.

(** [inc(inc)]: the old position, [pos] moved on. *)
Definition inc (n : Z) : rd Z := fun pos => Ok (pos, pos + n).

Definition read (n : nat) (offset : Z) : rd Z :=
  fun pos => match Buffer.readUIntLE n offset buf with
             | Ok v => Ok (v, pos)
             | Throw e => Throw e
             end.

Definition u8  : rd Z := seq (inc 1) (read 1).
Definition u16 : rd Z := seq (inc 2) (read 2).
Definition u32 : rd Z := seq (inc 4) (read 4).

Definition get_pos : rd Z := fun pos => Ok (pos, pos).

(** The object literal of the constructor, fields in source order. *)
Definition read_struct (magic : string) : rd GXstruct :=
  seq u32 (fun bmpoff => seq u32 (fun gc1off => seq u32 (fun gc2off =>
  seq u32 (fun prsecs => seq u32 (fun prfila => seq u32 (fun unk01 =>
  seq u16 (fun unk02 => seq u16 (fun unk03 => seq u16 (fun unk04 =>
  seq u16 (fun unk05 => seq u16 (fun unk06 => seq u16 (fun unk07 =>
  seq u16 (fun unk08 => seq u16 (fun unk09 =>
  seq u8 (fun unk10 => seq u8 (fun unk11 =>
  seq get_pos (fun index =>
  ret {| magic := magic;
         bmpoff := bmpoff; gc1off := gc1off; gc2off := gc2off;
         prsecs := prsecs; prfila := prfila;
         unk01 := unk01; unk02 := unk02; unk03 := unk03; unk04 := unk04;
         unk05 := unk05; unk06 := unk06; unk07 := unk07; unk08 := unk08;
         unk09 := unk09; unk10 := unk10; unk11 := unk11;
         index := index |}))))))))))))))))).

End Cursor.
End Reader.

(** [new GXReader(file)], from the bytes [readFileSync] returned. *)
Definition GXReader (file_bytes : list byte) : result GXReader_obj :=
  let buf := file_bytes in
  let pos := 16 in
  let magic := trim (Buffer.toString (Buffer.slice 0 16 buf)) in
  match Reader.read_struct buf magic pos with
  | Ok (struct, pos) => Ok {| buf := buf; pos := pos; struct := struct |}
  | Throw e => Throw e
  end.

(** [extract()]: the content of the two files it writes, [file + ".bmp"]
    and [file + ".gcode"]. *)
Definition extract (r : GXReader_obj) : list byte * list byte :=
  (Buffer.slice (bmpoff (struct r)) (gc1off (struct r)) (buf r),
   Buffer.slice (gc1off (struct r)) (Buffer.length (buf r)) (buf r)).

(** ** JavaScript strings *)

(** Strings are sequences of code units; the methods below only count
    and compare units, so [string] (one [ascii] per unit) carries them. *)
Module JsString.

(** [s.startsWith(needle)] *)
Fixpoint startsWith (needle s : string) : bool :=
  match needle, s with
  | EmptyString, _ => true
  | String _ _, EmptyString => false
  | String a needle', String b s' => Ascii.eqb a b && startsWith needle' s'
  end.

(** The first position at or after [i] where [needle] starts, [i]
    being the position of the head of [s]; [-1] if there is none. *)
Fixpoint indexOf_from (needle s : string) (i : Z) : Z :=
  if startsWith needle s then i
  else match s with
       | EmptyString => -1
       | String _ rest => indexOf_from needle rest (i + 1)
       end.

(** [s.indexOf(needle)]: the first position, or [-1]. *)
Definition indexOf (needle s : string) : Z := indexOf_from needle s 0.

Definition clamp (i len : Z) : Z :=
  if i <? 0 then 0 else if len <? i then len else i.

(** [s.substring(start, end)]: both ends clamped to the string, and
    swapped when they come in the wrong order. *)
Definition substring (start end_ : Z) (s : string) : string :=
  let len := Z.of_nat (String.length s) in
  let a := clamp start len in
  let b := clamp end_ len in
  let from := Z.min a b in
  let to := Z.max a b in
  String.substring (Z.to_nat from) (Z.to_nat (to - from)) s.

(** [s.substring(start)]. *)
Definition substring_from (start : Z) (s : string) : string :=
  substring start (Z.of_nat (String.length s)) s.

(** [s.split(sep)] for a one-character separator. *)
Fixpoint split (sep : ascii) (s : string) : list string :=
  match s with
  | EmptyString => [EmptyString]
  | String c rest =>
      if Ascii.eqb c sep then EmptyString :: split sep rest
      else match split sep rest with
           | t :: ts => String c t :: ts
           | [] => [String c EmptyString]
           end
  end.

(** [s.replace(/: /g, ':')]: every colon followed by a space loses
    the space, scanning from the left. *)
Fixpoint replace_colon_space (s : string) : string :=
  match s with
  | EmptyString => EmptyString
  | String c rest =>
      if Ascii.eqb c ":"%char then
        match rest with
        | String d rest' =>
            if Ascii.eqb d " "%char
            then String c (replace_colon_space rest')
            else String c (replace_colon_space rest)
        | EmptyString => String c EmptyString
        end
      else String c (replace_colon_space rest)
  end.

End JsString.

(** ** Objects used as maps *)

(** [map[key] = v] on an object literal, as far as its own properties
    go: the key ["__proto__"] reaches the prototype setter and adds no
    own property. *)
Definition js_set {V} (key : string) (v : V) (map : gmap string V)
  : gmap string V :=
  if decide (key = "__proto__"%string) then map else <[key := v]> map.

(** ** The telemetry parser *)

Section Telemetry.

(** JavaScript numbers and [parseFloat]; [None] is [undefined], which
    [kv[1]] is for a token without a colon. *)
Variable number : Type.
Variable parseFloat : option string -> number.

(** What [parseMapValue] returns: the string itself or a fresh map. *)
Inductive parsed : Type :=
| VText (s : string)
| VMap (m : gmap string number).

(** The body of the arrow function of [parseMapValue]. *)
Definition parseMapValue_pair (map : gmap string number) (v : string)
  : gmap string number :=
  let kv := JsString.split ":"%char v in
  js_set (List.nth 0 kv EmptyString) (parseFloat (kv !! 1%nat)) map.

Definition parseMapValue (value : string) : parsed :=
  if JsString.indexOf ":" value >? 0 then
    let value := JsString.replace_colon_space value in
    VMap (fold_left parseMapValue_pair (JsString.split " "%char value) ∅)
  else VText value.

(** The body of the arrow function of [parseMapLines]. *)
Definition parseMapLines_line (map : gmap string parsed) (line : string)
  : gmap string parsed :=
  let ci := JsString.indexOf ":" line in
  js_set (JsString.substring 0 ci line)
         (parseMapValue (JsString.substring_from (ci + 2) line)) map.

Definition parseMapLines (lines : list string) : gmap string parsed :=
  fold_left parseMapLines_line (List.tl lines) ∅.

End Telemetry.

Arguments VText {number} s.
Arguments VMap {number} m.

(** ** Block framing *)

(** JavaScript's [ToInt32], which [>>] and [&] apply to their operands. *)
Definition ToInt32 (v : Z) : Z :=
  let m := v mod 2 ^ 32 in
  if 2 ^ 31 <=? m then m - 2 ^ 32 else m.

(** [a >> n] and [a & b] on numbers. *)
Definition js_sar (a n : Z) : Z := Z.shiftr (ToInt32 a) n.
Definition js_and (a b : Z) : Z := Z.land (ToInt32 a) (ToInt32 b).

(** [Buffer.from(array)]: every number is stored modulo 256. *)
Definition Buffer_from (l : list Z) : list byte := List.map byte_of_Z l.

Definition uint32b (val : Z) : list byte :=
  Buffer_from [ js_and (js_sar val 24) 255;
                js_and (js_sar val 16) 255;
                js_and (js_sar val 8) 255;
                js_and (js_sar val 0) 255 ].

Definition preamble : list byte := Buffer_from [90; 90; 165; 165].

(** [Math.ceil(length / 4096)] for a length, which is a non-negative
    integer below 2^53: the division by a power of two is exact. *)
Definition ceil_div (a b : Z) : Z := (a + b - 1) / b.

Section Framing.

(** [crc32.unsigned] of the package [buffer-crc32]. *)
Variable crc32_unsigned : list byte -> Z.

(** The body of the [for] loop of [print], lines 495-507: the block
    that iteration [slice] passes to [sendBuffer]. *)
Definition block (buffer : list byte) (slice : Z) : list byte :=
  let chunk := Buffer.slice (slice * 4096) (slice * 4096 + 4096) buffer in
  let crc := crc32_unsigned chunk in
  let len := Buffer.length chunk in
  let chunk := if len <? 4096
               then Buffer.concat [chunk; Buffer.alloc (4096 - len)]
               else chunk in
  Buffer.concat [preamble; uint32b slice; uint32b len; uint32b crc; chunk].

(** The blocks of the whole loop, in the order they are queued. *)
Definition blocks (buffer : list byte) : list (list byte) :=
  let slices := ceil_div (Buffer.length buffer) 4096 in
  List.map (block buffer) (seqZ 0 slices).

End Framing.

(** The CRC-32 that [buffer-crc32] computes (reflected polynomial
    0xEDB88320, initial value and final complement 0xFFFFFFFF), one bit
    at a time. *)
Definition crc32_bit (c : Z) : Z :=
  if Z.testbit c 0 then Z.lxor (Z.shiftr c 1) 3988292384 else Z.shiftr c 1.

Definition crc32_byte (c : Z) (b : byte) : Z :=
  Nat.iter 8 crc32_bit (Z.lxor c (Z_of_byte b)).

Definition crc32 (bs : list byte) : Z :=
  Z.lxor (fold_left crc32_byte bs 4294967295) 4294967295.

(** ** FFControl *)

Inductive State : Type := Disconnected | Connecting | Connected.

Definition State_eqb (a b : State) : bool :=
  match a, b with
  | Disconnected, Disconnected | Connecting, Connecting
  | Connected, Connected => true
  | _, _ => false
  end.

(** The values that travel as errors: [undefined], [null], a string, an
    [Error] object of the socket, or an exception caught by a promise. *)
Inductive jsval : Type :=
| JUndefined
| JNull
| JStr (s : string)
| JError (msg : string)
| JExn (e : exn).

Definition truthy (v : jsval) : bool :=
  match v with
  | JUndefined | JNull => false
  | JStr s => negb (String.eqb s "")
  | JError _ | JExn _ => true
  end.

(** [a || b] *)
Definition js_or (a b : jsval) : jsval := if truthy a then a else b.

(** [v === null] *)
Definition is_null (v : jsval) : bool :=
  match v with JNull => true | _ => false end.

(** What a queue entry carries to the socket: a command line or a block. *)
Inductive payload : Type :=
| Text (s : string)
| Binary (b : list byte).

(** The closures handed to [sendCommand] and [sendBuffer]: the four of
    [print], and those of any other caller, told apart by a number. *)
Inductive on_resolve : Type :=
| cmd_ok
| final_ok
| resolve_of (id : nat).

Inductive on_reject : Type :=
| cmd_fail
| final_fail
| reject_of (id : nat).

Record command : Type := {
  cmd : payload;
  resolve : option on_resolve;
  reject : option on_reject
}.

(** The fields of an [FFControl] instance. [timer] tells whether
    [this.timer] holds a timeout handle; [status] is [status.state];
    [socket] is the [uid] of the socket object, if any. *)
Record FFControl : Type := {
  state : State;
  queue : list command;
  timer : bool;
  next : option command;
  output : list string;
  status : string;
  lastSend : Z;
  lastRecv : Z;
  interval : option Z;
  error : jsval;
  socket : option Z
}.

(** A fresh instance: the constructor runs [init] on an object without
    [error] and [socket]. *)
Definition FFControl_new : FFControl :=
  {| state := Disconnected; queue := []; timer := false; next := None;
     output := []; status := "offline"; lastSend := 0; lastRecv := 0;
     interval := None; error := JUndefined; socket := None |}.

(** [init()]: every field it assigns; [error] and [socket] stay. *)
Definition init (c : FFControl) : FFControl :=
  {| state := Disconnected; queue := []; timer := false; next := None;
     output := []; status := "offline"; lastSend := 0; lastRecv := 0;
     interval := None; error := error c; socket := socket c |}.

Definition set_state (v : State) (c : FFControl) : FFControl :=
  {| state := v; queue := queue c; timer := timer c; next := next c;
     output := output c; status := status c; lastSend := lastSend c;
     lastRecv := lastRecv c; interval := interval c; error := error c;
     socket := socket c |}.

Definition set_queue (v : list command) (c : FFControl) : FFControl :=
  {| state := state c; queue := v; timer := timer c; next := next c;
     output := output c; status := status c; lastSend := lastSend c;
     lastRecv := lastRecv c; interval := interval c; error := error c;
     socket := socket c |}.

Definition set_timer (v : bool) (c : FFControl) : FFControl :=
  {| state := state c; queue := queue c; timer := v; next := next c;
     output := output c; status := status c; lastSend := lastSend c;
     lastRecv := lastRecv c; interval := interval c; error := error c;
     socket := socket c |}.

Definition set_next (v : option command) (c : FFControl) : FFControl :=
  {| state := state c; queue := queue c; timer := timer c; next := v;
     output := output c; status := status c; lastSend := lastSend c;
     lastRecv := lastRecv c; interval := interval c; error := error c;
     socket := socket c |}.

Definition set_output (v : list string) (c : FFControl) : FFControl :=
  {| state := state c; queue := queue c; timer := timer c; next := next c;
     output := v; status := status c; lastSend := lastSend c;
     lastRecv := lastRecv c; interval := interval c; error := error c;
     socket := socket c |}.

Definition set_status (v : string) (c : FFControl) : FFControl :=
  {| state := state c; queue := queue c; timer := timer c; next := next c;
     output := output c; status := v; lastSend := lastSend c;
     lastRecv := lastRecv c; interval := interval c; error := error c;
     socket := socket c |}.

Definition set_lastSend (v : Z) (c : FFControl) : FFControl :=
  {| state := state c; queue := queue c; timer := timer c; next := next c;
     output := output c; status := status c; lastSend := v;
     lastRecv := lastRecv c; interval := interval c; error := error c;
     socket := socket c |}.

Definition set_lastRecv (v : Z) (c : FFControl) : FFControl :=
  {| state := state c; queue := queue c; timer := timer c; next := next c;
     output := output c; status := status c; lastSend := lastSend c;
     lastRecv := v; interval := interval c; error := error c;
     socket := socket c |}.

Definition set_error (v : jsval) (c : FFControl) : FFControl :=
  {| state := state c; queue := queue c; timer := timer c; next := next c;
     output := output c; status := status c; lastSend := lastSend c;
     lastRecv := lastRecv c; interval := interval c; error := v;
     socket := socket c |}.

Definition set_socket (v : option Z) (c : FFControl) : FFControl :=
  {| state := state c; queue := queue c; timer := timer c; next := next c;
     output := output c; status := status c; lastSend := lastSend c;
     lastRecv := lastRecv c; interval := interval c; error := error c;
     socket := v |}.

(** The promise of one [print] call and the variables its closures
    share. *)
Inductive print_promise : Type :=
| PPending
| PResolved (spooled : string) (output : list string)
| PRejected (e : jsval).

Record PrintJob : Type := {
  filename : string;
  cmd_out : list string;
  cmd_err : jsval;
  promise : print_promise
}.

(** The promise of one [_connect] call and the variables of its
    closures. *)
Inductive connect_promise : Type :=
| CPending
| CResolved
| CRejected (e : jsval).

Record Attempt : Type := {
  sid : Z;
  conn_error : jsval;
  connecting : connect_promise
}.

(** One invocation of a queue entry's callback. *)
Inductive call : Type :=
| Resolve (f : on_resolve) (lines : list string)
| Reject (f : on_reject) (e : jsval).

(** Everything the handlers can reach: the instance, the module's
    [nextSID], the closure of the latest [_connect], the number of
    [_send] timeouts waiting in the event loop, what was written to the
    socket, the callbacks invoked so far, and the [print] in progress. *)
Record World : Type := {
  ctrl : FFControl;
  nextSID : Z;
  attempt : option Attempt;
  timers : nat;
  wire : list payload;
  calls : list call;
  job : option PrintJob
}.

Definition with_ctrl (f : FFControl -> FFControl) (w : World) : World :=
  {| ctrl := f (ctrl w); nextSID := nextSID w; attempt := attempt w;
     timers := timers w; wire := wire w; calls := calls w; job := job w |}.

Definition set_attempt (v : option Attempt) (w : World) : World :=
  {| ctrl := ctrl w; nextSID := nextSID w; attempt := v;
     timers := timers w; wire := wire w; calls := calls w; job := job w |}.

Definition set_nextSID (v : Z) (w : World) : World :=
  {| ctrl := ctrl w; nextSID := v; attempt := attempt w;
     timers := timers w; wire := wire w; calls := calls w; job := job w |}.

Definition set_timers (v : nat) (w : World) : World :=
  {| ctrl := ctrl w; nextSID := nextSID w; attempt := attempt w;
     timers := v; wire := wire w; calls := calls w; job := job w |}.

Definition set_wire (v : list payload) (w : World) : World :=
  {| ctrl := ctrl w; nextSID := nextSID w; attempt := attempt w;
     timers := timers w; wire := v; calls := calls w; job := job w |}.

Definition set_calls (v : list call) (w : World) : World :=
  {| ctrl := ctrl w; nextSID := nextSID w; attempt := attempt w;
     timers := timers w; wire := wire w; calls := v; job := job w |}.

Definition set_job (v : option PrintJob) (w : World) : World :=
  {| ctrl := ctrl w; nextSID := nextSID w; attempt := attempt w;
     timers := timers w; wire := wire w; calls := calls w; job := v |}.

Definition World_new : World :=
  {| ctrl := FFControl_new; nextSID := 0; attempt := None; timers := 0%nat;
     wire := []; calls := []; job := None |}.

(** *** The closures of [print] *)

Definition set_cmd_out (v : list string) (j : PrintJob) : PrintJob :=
  {| filename := filename j; cmd_out := v; cmd_err := cmd_err j;
     promise := promise j |}.

Definition set_cmd_err (v : jsval) (j : PrintJob) : PrintJob :=
  {| filename := filename j; cmd_out := cmd_out j; cmd_err := v;
     promise := promise j |}.

(** [resolve(..)] and [reject(..)] of the promise: the first one wins. *)
Definition settle (v : print_promise) (j : PrintJob) : PrintJob :=
  match promise j with
  | PPending => {| filename := filename j; cmd_out := cmd_out j;
                   cmd_err := cmd_err j; promise := v |}
  | _ => j
  end.

Definition run_resolve (f : on_resolve) (lines : list string) (j : PrintJob)
  : PrintJob :=
  match f with
  | cmd_ok => set_cmd_out (cmd_out j ++ lines) j
  | final_ok =>
      if truthy (cmd_err j) then settle (PRejected (cmd_err j)) j
      else settle (PResolved (filename j) (cmd_out j)) j
  | resolve_of _ => j
  end.

Definition run_reject (f : on_reject) (e : jsval) (j : PrintJob) : PrintJob :=
  match f with
  | cmd_fail => if is_null (cmd_err j) then set_cmd_err e j else j
  | final_fail => settle (PRejected (js_or (cmd_err j) e)) j
  | reject_of _ => j
  end.

(** Calling a callback of a queue entry: it is recorded, and a closure
    of [print] runs on the job's variables. *)
Definition invoke (c : call) (w : World) : World :=
  let w := set_calls (calls w ++ [c]) w in
  match job w with
  | None => w
  | Some j =>
      match c with
      | Resolve f lines => set_job (Some (run_resolve f lines j)) w
      | Reject f e => set_job (Some (run_reject f e j)) w
      end
  end.

(** *** The queue *)

Definition CRLF : string :=
  String (ascii_of_nat 13) (String (ascii_of_nat 10) EmptyString).

Definition _sendTimer (w : World) : World :=
  if timer (ctrl w) then w
  else if (0 <? Z.of_nat (List.length (queue (ctrl w))))
       then set_timers (S (timers w)) (with_ctrl (set_timer true) w)
       else w.

(** [_send()], run by the timeout; [now] is [Date.now()]. A write on a
    missing socket throws. *)
Definition _send (now : Z) (w : World) : result World :=
  let next := List.head (queue (ctrl w)) in
  let w := with_ctrl (set_queue (List.tl (queue (ctrl w)))) w in
  let w := if negb (State_eqb (state (ctrl w)) Connected)
           then with_ctrl (set_error (JStr "disconnected")) w
           else w in
  match next with
  | None => Ok w
  | Some next =>
      match truthy (error (ctrl w)), reject next with
      | true, Some f => Ok (invoke (Reject f (error (ctrl w))) w)
      | _, _ =>
          let w := with_ctrl (set_lastSend now) w in
          let w := with_ctrl (set_next (Some next)) w in
          match socket (ctrl w) with
          | Some _ => Ok (set_wire (wire w ++ [cmd next]) w)
          | None => Throw TypeError
          end
      end
  end.

Definition sendCommand (cmd : string) (resolve : option on_resolve)
           (reject : option on_reject) (w : World) : World :=
  let entry := {| cmd := Text ("~" ++ cmd ++ CRLF);
                  resolve := resolve; reject := reject |} in
  _sendTimer (with_ctrl (fun c => set_queue (queue c ++ [entry]) c) w).

Definition sendBuffer (buf : list byte) (resolve : option on_resolve)
           (reject : option on_reject) (w : World) : World :=
  let entry := {| cmd := Binary buf; resolve := resolve; reject := reject |} in
  _sendTimer (with_ctrl (fun c => set_queue (queue c ++ [entry]) c) w).

(** *** [_connect] and the handlers of its socket *)

Definition set_conn_error (v : jsval) (a : Attempt) : Attempt :=
  {| sid := sid a; conn_error := v; connecting := connecting a |}.

(** [resolve(this)] and [reject(..)] of the promise of [_connect]. *)
Definition settle_connect (v : connect_promise) (a : Attempt) : Attempt :=
  match connecting a with
  | CPending => {| sid := sid a; conn_error := conn_error a; connecting := v |}
  | _ => a
  end.

(** [_connect(host, port)] up to the creation of the socket: the world
    afterwards and the promise it returned. *)
Definition _connect (host : string) (port : Z) (w : World)
  : World * connect_promise :=
  match state (ctrl w) with
  | Connecting => (w, CRejected (JStr "already connecting"))
  | Connected => (w, CRejected (JStr "already connected"))
  | Disconnected =>
      let w := with_ctrl init w in
      let sid := nextSID w in
      let w := set_nextSID (sid + 1) w in
      let w := with_ctrl (set_socket None) w in
      let w := with_ctrl (set_state Connecting) w in
      let w := set_attempt
                 (Some {| sid := sid; conn_error := JNull;
                          connecting := CPending |}) w in
      (w, CPending)
  end.

(** The ["connect"] handler. *)
Definition on_connect (w : World) : World :=
  match attempt w with
  | None => w
  | Some a =>
      let w := with_ctrl (set_socket (Some (sid a))) w in
      set_wire (wire w ++ [Text ("~M601 S1" ++ CRLF)]) w
  end.

(** The ["line"] handler. *)
Definition on_line (line : string) (w : World) : World :=
  let okidx := JsString.indexOf "ok" line in
  if okidx >=? 0 then
    let connecting_now := State_eqb (state (ctrl w)) Connecting in
    let w :=
      if connecting_now then
        let w := with_ctrl (set_state Connected) w in
        set_attempt (option_map (settle_connect CResolved) (attempt w)) w
      else if okidx >? 0 then
        with_ctrl (fun c => set_output (output c ++ [line]) c) w
      else w in
    let w :=
      match next (ctrl w) with
      | Some n =>
          match resolve n with
          | Some f =>
              let w := invoke (Resolve f (output (ctrl w))) w in
              with_ctrl (set_next None) w
          | None => w
          end
      | None => w
      end in
    let w := with_ctrl (set_lastRecv 0) w in
    let w := with_ctrl (set_output []) w in
    let w := with_ctrl (set_timer false) w in
    _sendTimer w
  else with_ctrl (fun c => set_output (output c ++ [line]) c) w.

(** The ["error"] handler. *)
Definition on_error (e : jsval) (w : World) : World :=
  set_attempt (option_map (set_conn_error e) (attempt w)) w.

(** The ["close"] handler. *)
Definition on_close (w : World) : World :=
  let w := with_ctrl (set_state Disconnected) w in
  let w := with_ctrl (set_status "offline") w in
  let conn_error := match attempt w with
                    | Some a => conn_error a
                    | None => JNull
                    end in
  match next (ctrl w) with
  | Some n =>
      match reject n with
      | Some f =>
          let w := invoke (Reject f conn_error) w in
          with_ctrl (set_next None) w
      | None => w
      end
  | None =>
      set_attempt
        (option_map (settle_connect
                       (CRejected (js_or conn_error (JStr "close"))))
                    (attempt w)) w
  end.

(** *** [print] *)

Section Print.

Variable crc32_unsigned : list byte -> Z.

(** Lines 466-468. *)
Definition with_extension (filename : string) : string :=
  if JsString.indexOf ".gx" filename <? 0
  then (filename ++ ".gx")%string
  else filename.

(** Line 489: [" 0:/user/" + (filename || "noname.gx")]. *)
Definition device_path (filename : string) : string :=
  (" 0:/user/" ++
   (if String.eqb filename "" then "noname.gx" else filename))%string.

(** The [for] loop: one [sendBuffer] per slice. *)
Definition send_blocks (buffer : list byte) (w : World) : World :=
  let slices := ceil_div (Buffer.length buffer) 4096 in
  fold_left (fun w slice =>
               sendBuffer (block crc32_unsigned buffer slice)
                          (Some cmd_ok) (Some cmd_fail) w)
            (seqZ 0 slices) w.

(** [print(filename, gcode, bmp, time, filament)]. An exception of
    [GXWriter] inside the executor rejects the promise. *)
Definition print (filename : string) (gcode : list byte)
           (bmp : option (list byte)) (time filament : jsnum) (w : World)
  : World :=
  let filename := with_extension filename in
  let new_job p f := {| filename := f; cmd_out := []; cmd_err := JNull;
                        promise := p |} in
  match GXWriter gcode bmp time filament with
  | Throw e => set_job (Some (new_job (PRejected (JExn e)) filename)) w
  | Ok buffer =>
      let ok := Some cmd_ok in
      let fail := Some cmd_fail in
      let w := sendCommand "M115" ok fail w in
      let w := sendCommand "M650" ok fail w in
      let w := sendCommand "M115" ok fail w in
      let w := sendCommand "M114" ok fail w in
      let w := sendCommand "M27" ok fail w in
      let w := sendCommand "M119" ok fail w in
      let w := sendCommand "M105" ok fail w in
      let filename := device_path filename in
      let w := sendCommand
                 ("M28 " ++ pretty (Buffer.length buffer) ++ " " ++ filename)
                 ok fail w in
      let w := send_blocks buffer w in
      let w := sendCommand "M29" ok fail w in
      let w := sendCommand ("M23 " ++ filename) ok fail w in
      let w := sendCommand "M27" (Some final_ok) (Some final_fail) w in
      set_job (Some (new_job PPending filename)) w
  end.

End Print.

(** *** The event loop *)

(** What can happen between two turns: a [_send] timeout comes due, or
    the socket emits an event. *)
Inductive event : Type :=
| TimerFires (now : Z)
| SocketConnect
| Line (line : string)
| SocketError (e : jsval)
| Close.

Definition step (ev : event) (w : World) : result World :=
  match ev with
  | TimerFires now =>
      match timers w with
      | O => Ok w
      | S n => _send now (set_timers n w)
      end
  | SocketConnect => Ok (on_connect w)
  | Line line => Ok (on_line line w)
  | SocketError e => Ok (on_error e w)
  | Close => Ok (on_close w)
  end.

Fixpoint run (evs : list event) (w : World) : result World :=
  match evs with
  | [] => Ok w
  | ev :: rest => let* w := step ev w in run rest w
  end.


(** *** [send] and the single-command operations *)

(** [send(cmd)] for the promise number [id]: its [resolve] and [reject]
    are [resolve_of id] and [reject_of id]. *)
Definition send (id : nat) (cmd : payload) (w : World) : World :=
  if truthy (error (ctrl w))
  then invoke (Reject (reject_of id) (error (ctrl w))) w
  else if negb (State_eqb (state (ctrl w)) Connected)
       then invoke (Reject (reject_of id) (JStr "not connected")) w
       else match cmd with
            | Binary b =>
                sendBuffer b (Some (resolve_of id)) (Some (reject_of id)) w
            | Text s =>
                sendCommand s (Some (resolve_of id)) (Some (reject_of id)) w
            end.

(** [setName], [cancel], [control] and [release] hand the promise of
    [send] on. *)
Definition setName (id : nat) (name : string) : World -> World :=
  send id (Text ("M610" ++ " " ++ name)).
Definition cancel (id : nat) : World -> World := send id (Text "M26").
Definition control (id : nat) : World -> World := send id (Text "M601").
Definition release (id : nat) : World -> World := send id (Text "M602").

(** ** A program that uses an instance *)

(** What happens to an instance over time: the event loop delivers an
    event, or the program calls [send], [print] or [_connect]. *)
Inductive action : Type :=
| Happens (ev : event)
| CallSend (id : nat) (cmd : payload)
| CallPrint (filename : string) (gcode : list byte)
            (bmp : option (list byte)) (time filament : jsnum)
| CallConnect (host : string) (port : Z).

Definition perform (crc32_unsigned : list byte -> Z) (a : action) (w : World)
  : result World :=
  match a with
  | Happens ev => step ev w
  | CallSend id cmd => Ok (send id cmd w)
  | CallPrint filename gcode bmp time filament =>
      Ok (print crc32_unsigned filename gcode bmp time filament w)
  | CallConnect host port => Ok (fst (_connect host port w))
  end.

Fixpoint perform_all (crc32_unsigned : list byte -> Z) (acts : list action)
         (w : World) : result World :=
  match acts with
  | [] => Ok w
  | a :: rest =>
      let* w := perform crc32_unsigned a w in
      perform_all crc32_unsigned rest w
  end.

(** ** [connect]: the retrying wrapper *)

(** The closure [attempt] of [connect], lines 209-223, run against the
    promises of its successive [_connect] calls: [outcomes] lists how
    each one settles, [retry] is the counter. The result is how the
    promise of [connect] stands and how many times [_connect] was
    called; with no outcome left, the call under way has not settled. *)
Fixpoint attempt_loop (retries retry : Z) (outcomes : list connect_promise)
  : connect_promise * nat :=
  match outcomes with
  | [] => (CPending, 1%nat)
  | CPending :: _ => (CPending, 1%nat)
  | CResolved :: _ => (CResolved, 1%nat)
  | CRejected e :: rest =>
      let retry := retry + 1 in
      if retry >=? retries then (CRejected e, 1%nat)
      else let (p, n) := attempt_loop retries retry rest in (p, S n)
  end.

(** [connect(host, port, retryMax)]. *)
Definition connect (retryMax : jsnum) (outcomes : list connect_promise)
  : connect_promise * nat :=
  let retries := or_default retryMax 5 in
  attempt_loop retries 0 outcomes.

(** ** [getStatus]: the reply to [M115] *)

Section Status.

Variable number : Type.
Variable parseFloat : option string -> number.

(** The first handler of [getStatus], lines 413-416: [status.info]
    from the lines of the reply. [lines.splice(4,1)[0]] is [undefined]
    when the reply is too short, and [parseMapValue] then throws. *)
Definition getStatus_info (lines : list string)
  : result (gmap string (parsed number)) :=
  let lines := drop 1 lines in
  let removed := lines !! 4%nat in
  let lines := delete 4%nat lines in
  match removed with
  | None => Throw TypeError
  | Some line =>
      let xyz := parseMapValue number parseFloat line in
      let info := parseMapLines number parseFloat lines in
      Ok (js_set "pos" xyz info)
  end.

End Status.

(** [s.replace(/\ +\//g, '/')]: every run of spaces that ends at a
    slash is removed. *)
Fixpoint skip_spaces (s : string) : string :=
  match s with
  | String c rest => if Ascii.eqb c " "%char then skip_spaces rest else s
  | EmptyString => s
  end.

Fixpoint replace_spaces_slash (s : string) : string :=
  match s with
  | EmptyString => EmptyString
  | String c rest =>
      if Ascii.eqb c " "%char then
        match skip_spaces rest with
        | String d _ =>
            if Ascii.eqb d "/"%char then replace_spaces_slash rest
            else String c (replace_spaces_slash rest)
        | EmptyString => String c (replace_spaces_slash rest)
        end
      else String c (replace_spaces_slash rest)
  end.

Section StatusReplies.

Variable number : Type.
Variable parseFloat : option string -> number.

(** The second handler of [getStatus], line 421: [status.state]. *)
Definition getStatus_state (lines : list string) : string :=
  match parseMapLines number parseFloat lines !! "MachineStatus"%string with
  | Some (VText v) => if String.eqb v "READY" then "IDLE" else "PRINTING"
  | _ => "PRINTING"
  end.

(** The body of the last arrow function of line 439; [v[1]] is
    [undefined] for a token without a colon, and [split] then throws. *)
Definition getStatus_temp (map : gmap string (list number)) (v : string)
  : result (gmap string (list number)) :=
  let v := JsString.split ":"%char v in
  match v !! 1%nat with
  | None => Throw TypeError
  | Some t =>
      Ok (js_set (List.nth 0 v EmptyString)
                 (List.map (fun x => parseFloat (Some x))
                           (JsString.split "/"%char t))
                 map)
  end.

Fixpoint getStatus_temp_each (map : gmap string (list number))
         (vs : list string) : result (gmap string (list number)) :=
  match vs with
  | [] => Ok map
  | v :: rest =>
      let* map := getStatus_temp map v in getStatus_temp_each map rest
  end.

(** The fourth handler of [getStatus], lines 433-441: [status.temps]
    from the lines of the reply to [M105]. *)
Definition getStatus_temps (temps : list string)
  : result (gmap string (list number)) :=
  match temps !! 1%nat with
  | None => Throw TypeError
  | Some line =>
      getStatus_temp_each ∅
        (JsString.split " "%char (replace_spaces_slash line))
  end.

End StatusReplies.

(** ** GXScan *)

(** [found.sort()]: the default order of [Array.prototype.sort] on
    strings, code unit by code unit. *)
Fixpoint insert_sorted (s : string) (l : list string) : list string :=
  match l with
  | [] => [s]
  | x :: rest => if String.leb s x then s :: l else x :: insert_sorted s rest
  end.

Definition js_sort (l : list string) : list string :=
  fold_right insert_sorted [] l.

(** The variables that the handlers of a scan share: [search], [alist]
    and the array [found]; [reported] lists what [found] held at each
    call of the callback, which is handed the array itself. *)
Record GXScan_state : Type := {
  search : Z;
  alist : gmap string bool;
  found : list string;
  reported : list (list string)
}.

(** [subnet + '.' + ep] *)
Definition addr (subnet : string) (ep : Z) : string :=
  (subnet ++ "." ++ pretty ep)%string.

(** The constructor with a subnet given, lines 620-654, up to the
    creation of the 254 sockets. *)
Definition GXScan (subnet : string) : GXScan_state :=
  {| search := 254;
     alist := fold_left (fun m ep => js_set (addr subnet ep) true m)
                        (seqZ 1 254) ∅;
     found := [];
     reported := [] |}.

(** The body shared by the ["error"] and ["close"] handlers and the
    timeout: [callback] tells whether one was given. *)
Definition scan_done (callback : bool) (a : string) (s : GXScan_state)
  : GXScan_state :=
  match alist s !! a with
  | Some true =>
      let search := search s - 1 in
      if (search =? 0) && callback
      then {| search := search; alist := js_set a false (alist s);
              found := js_sort (found s);
              reported := reported s ++ [js_sort (found s)] |}
      else {| search := search; alist := alist s; found := found s;
              reported := reported s |}
  | _ => s
  end.

(** What the socket of the host number [ep] can emit. *)
Inductive scan_event : Type :=
| HostError (ep : Z)
| HostClose (ep : Z)
| HostTimeout (ep : Z)
| HostConnect (ep : Z).

Definition scan_host (ev : scan_event) : Z :=
  match ev with
  | HostError ep | HostClose ep | HostTimeout ep | HostConnect ep => ep
  end.

(** Sockets exist for the hosts 1 to 254 only. *)
Definition scan_step (subnet : string) (callback : bool) (ev : scan_event)
           (s : GXScan_state) : GXScan_state :=
  if (1 <=? scan_host ev) && (scan_host ev <? 255) then
    match ev with
    | HostConnect ep =>
        {| search := search s; alist := alist s;
           found := found s ++ [addr subnet ep]; reported := reported s |}
    | HostError ep | HostClose ep | HostTimeout ep =>
        scan_done callback (addr subnet ep) s
    end
  else s.

Definition scan_run (subnet : string) (callback : bool)
           (evs : list scan_event) (s : GXScan_state) : GXScan_state :=
  fold_left (fun s ev => scan_step subnet callback ev s) evs s.

(** ** GXSender *)

Section Sender.

Variable crc32_unsigned : list byte -> Z.

(** The [for] loop of [GXSender], lines 679-694: the blocks of [print]
    with the callbacks of the sender. *)
Definition sender_blocks (buffer : list byte) (w : World) : World :=
  let slices := ceil_div (Buffer.length buffer) 4096 in
  fold_left (fun w slice =>
               sendBuffer (block crc32_unsigned buffer slice)
                          (Some (resolve_of 0)) (Some (reject_of 0)) w)
            (seqZ 0 slices) w.

(** The function that [GXSender] runs once [connect] has resolved,
    lines 667-700: the file goes out as it was read, and [close()]
    queues the [M602] of [release()]; [filename] is [None] when the
    argument is missing. The callbacks of the sender are [resolve_of 0]
    and [reject_of 0], those of [release] are numbered 1. *)
Definition GXSender_then (buffer : list byte) (filename : option string)
           (w : World) : World :=
  let resolve := Some (resolve_of 0) in
  let reject := Some (reject_of 0) in
  let w := sendCommand "M115" resolve reject w in
  let w := sendCommand "M650" resolve reject w in
  let w := sendCommand "M115" resolve reject w in
  let w := sendCommand "M114" resolve reject w in
  let w := sendCommand "M27" resolve reject w in
  let w := sendCommand "M119" resolve reject w in
  let w := sendCommand "M105" resolve reject w in
  let filename := device_path (default EmptyString filename) in
  let w := sendCommand ("M28 " ++ pretty (Buffer.length buffer) ++ filename)
                       resolve reject w in
  let w := sender_blocks buffer w in
  let w := sendCommand "M29" resolve reject w in
  let w := sendCommand ("M23" ++ filename) resolve reject w in
  let w := sendCommand "M119" resolve reject w in
  let w := sendCommand "M105" resolve reject w in
  let w := sendCommand "M27" resolve reject w in
  release 1 w.

End Sender.

(** ** TCPipe *)

Module TCPipe.

(** The two sockets of one relayed connection. *)
Inductive side : Type := Client | Server.

Definition side_eqb (a b : side) : bool :=
  match a, b with
  | Client, Client | Server, Server => true
  | _, _ => false
  end.

(** The variables [last] and [buf] of the connection handler, what was
    written to either socket, and what [emit] was called with. *)
Record state : Type := {
  last : option side;
  buf : option (list byte);
  to_server : list (list byte);
  to_client : list (list byte);
  emitted : list (side * list byte)
}.

Definition init : state :=
  {| last := None; buf := None; to_server := []; to_client := [];
     emitted := [] |}.

(** [emit(socket, buffer)]: reading [socket.name] throws when [socket]
    is [null]. *)
Definition emit (socket : option side) (buffer : option (list byte))
           (s : state) : result state :=
  match socket, buffer with
  | Some sd, Some b =>
      Ok {| last := last s; buf := buf s; to_server := to_server s;
            to_client := to_client s; emitted := emitted s ++ [(sd, b)] |}
  | _, _ => Throw TypeError
  end.

(** [onData(socket, buffer)] *)
Definition onData (socket : side) (buffer : list byte) (s : state)
  : result state :=
  let* s :=
    if negb (match last s with
             | Some sd => side_eqb sd socket
             | None => false
             end)
    then let* s := emit (Some socket) (Some buffer) s in
         Ok {| last := last s; buf := Some buffer; to_server := to_server s;
               to_client := to_client s; emitted := emitted s |}
    else match buf s with
         | Some b =>
             Ok {| last := last s; buf := Some (Buffer.concat [b; buffer]);
                   to_server := to_server s; to_client := to_client s;
                   emitted := emitted s |}
         | None => Throw TypeError
         end in
  Ok {| last := Some socket; buf := buf s; to_server := to_server s;
        to_client := to_client s; emitted := emitted s |}.

(** The ["data"] handlers of the two sockets. *)
Definition on_data (from : side) (data : list byte) (s : state)
  : result state :=
  let* s := onData from data s in
  match from with
  | Client =>
      Ok {| last := last s; buf := buf s;
            to_server := to_server s ++ [data]; to_client := to_client s;
            emitted := emitted s |}
  | Server =>
      Ok {| last := last s; buf := buf s; to_server := to_server s;
            to_client := to_client s ++ [data]; emitted := emitted s |}
  end.

(** The ["end"] handler of the socket to the server. *)
Definition on_server_end (s : state) : result state :=
  emit (last s) (buf s) s.

Fixpoint relay (chunks : list (side * list byte)) (s : state)
  : result state :=
  match chunks with
  | [] => Ok s
  | (from, data) :: rest => let* s := on_data from data s in relay rest s
  end.

(** The chunks that [from] sent. *)
Definition sent_by (from : side) (chunks : list (side * list byte))
  : list (list byte) :=
  List.map snd (List.filter (fun c => side_eqb (fst c) from) chunks).

(** The bytes of the latest chunks, newest first in [rev_chunks], as
    long as they come from [from]. *)
Fixpoint trailing (from : side) (rev_chunks : list (side * list byte))
  : list byte :=
  match rev_chunks with
  | (sd, d) :: rest => if side_eqb sd from then trailing from rest ++ d else []
  | [] => []
  end.

End TCPipe.


(** * Vocabulary of the statements *)

(** ** Container *)

(** [v] fits an unsigned 32-bit field. *)
Definition fits_u32 (v : Z) : Prop := 0 <= v < 2 ^ 32.

(** The value of the [n]-byte little-endian field at offset [off]. *)
Definition field (n off : nat) (buf : list byte) : Z :=
  Buffer.le_value (take n (drop off buf)).

(** The [struct] that the reader builds from a buffer that holds the
    whole header. *)
Definition struct_of (buf : list byte) : GXstruct :=
  {| magic := trim (Buffer.toString (Buffer.slice 0 16 buf));
     bmpoff := field 4 16 buf; gc1off := field 4 20 buf;
     gc2off := field 4 24 buf; prsecs := field 4 28 buf;
     prfila := field 4 32 buf; unk01 := field 4 36 buf;
     unk02 := field 2 40 buf; unk03 := field 2 42 buf;
     unk04 := field 2 44 buf; unk05 := field 2 46 buf;
     unk06 := field 2 48 buf; unk07 := field 2 50 buf;
     unk08 := field 2 52 buf; unk09 := field 2 54 buf;
     unk10 := field 1 56 buf; unk11 := field 1 57 buf;
     index := 58 |}.

(** The constant fields at offsets 36 to 57. *)
Definition header_tail : list byte :=
  [x00; x00; x00; x00; x01; x00; xc8; x00; x14; x00; x03; x00;
   x3c; x00; x6e; x00; xdc; x00; xdc; x00; x01; x01].

(** The header for a thumbnail of [n] bytes, field by field. *)
Definition encoded_header (n : Z) (t l : jsnum) : list byte :=
  magic_bytes ++ Buffer.le_bytes 4 58 ++ Buffer.le_bytes 4 (58 + n)
    ++ Buffer.le_bytes 4 (58 + n) ++ Buffer.le_bytes 4 (or_default t 100)
    ++ Buffer.le_bytes 4 (or_default l 100) ++ header_tail.

(** The thumbnail the writer uses for its [bmp] argument. *)
Definition bmp_or_empty (bmp : option (list byte)) : list byte :=
  match bmp with
  | None => []
  | Some b => b
  end.


(** ** Blocks *)

(** The four bytes of an unsigned 32-bit value, most significant first. *)
Definition be_u32 (v : Z) : list byte :=
  [byte_of_Z (v / 2 ^ 24); byte_of_Z (v / 2 ^ 16); byte_of_Z (v / 2 ^ 8);
   byte_of_Z v].

(** The value of a run of bytes, most significant first. *)
Definition be_value (bs : list byte) : Z :=
  fold_left (fun acc b => 256 * acc + Z_of_byte b) bs 0.

(** The length a block records: the big-endian field at offset 8. *)
Definition recorded_length (blk : list byte) : Z :=
  be_value (take 4 (drop 8 blk)).

(** ** Queue entries *)

Definition text_entry (c : string) (r : option on_resolve)
           (j : option on_reject) : command :=
  {| cmd := Text ("~" ++ c ++ CRLF); resolve := r; reject := j |}.

Definition block_entry (b : list byte) : command :=
  {| cmd := Binary b; resolve := Some cmd_ok; reject := Some cmd_fail |}.

Definition ok_fail (c : string) : command :=
  text_entry c (Some cmd_ok) (Some cmd_fail).

(** The entries of one [print] call, in queue order, for the checksum
    [crc], the device path [path] and the encoded file [buffer]. *)
Definition print_entries (crc : list byte -> Z) (path : string)
           (buffer : list byte) : list command :=
  [ok_fail "M115"; ok_fail "M650"; ok_fail "M115"; ok_fail "M114";
   ok_fail "M27"; ok_fail "M119"; ok_fail "M105";
   ok_fail ("M28 " ++ pretty (Buffer.length buffer) ++ " " ++ path)]
    ++ List.map block_entry (blocks crc buffer)
    ++ [ok_fail "M29"; ok_fail ("M23 " ++ path);
        text_entry "M27" (Some final_ok) (Some final_fail)].

(** [s.endsWith(suffix)] *)
Definition endsWith (suffix s : string) : bool :=
  (String.length suffix <=? String.length s)%nat
  && String.eqb (String.substring (String.length s - String.length suffix)
                                  (String.length suffix) s) suffix.

(** A control that has connected: [_connect], the socket's ["connect"],
    and the device's [ok] to [~M601 S1]. *)
Definition connected_world : World :=
  on_line "ok" (on_connect (fst (_connect "printer" 8899 World_new))).

(** An event other than a line from the socket or its connection. *)
Definition no_line (ev : event) : bool :=
  match ev with
  | Line _ | SocketConnect => false
  | TimerFires _ | SocketError _ | Close => true
  end.

(** ** Replies *)

(** [lacks c s]: the character [c] does not occur in [s]. *)
Fixpoint lacks (c : ascii) (s : string) : bool :=
  match s with
  | EmptyString => true
  | String d rest => negb (Ascii.eqb d c) && lacks c rest
  end.

Definition nonempty (s : string) : bool :=
  match s with EmptyString => false | String _ _ => true end.

(** A line [Key: value]. *)
Definition render_line (kv : string * string) : string :=
  (fst kv ++ String ":" (String " " (snd kv)))%string.

(** One [name:number] pair of a value, with or without a space after the
    colon. *)
Record token : Type := {
  tok_name : string;
  tok_spaced : bool;
  tok_text : string
}.

Definition render_token (t : token) : string :=
  (tok_name t ++
   String ":" (if tok_spaced t then String " " (tok_text t)
               else tok_text t))%string.

(** Pairs separated by single spaces. *)
Fixpoint render_tokens (ts : list token) : string :=
  match ts with
  | [] => EmptyString
  | t :: rest =>
      match rest with
      | [] => render_token t
      | _ :: _ => (render_token t ++ String " " (render_tokens rest))%string
      end
  end.

(** Neither part of a pair is empty or holds a colon or a space. *)
Definition token_ok (t : token) : bool :=
  nonempty (tok_name t) && lacks ":" (tok_name t) && lacks " " (tok_name t)
  && nonempty (tok_text t) && lacks ":" (tok_text t) && lacks " " (tok_text t).

Definition unspace (t : token) : token :=
  {| tok_name := tok_name t; tok_spaced := false; tok_text := tok_text t |}.

(** Numbers left as the text that [parseFloat] receives, for running the
    parser on examples. *)
Definition number_text : Type := option string.
Definition keep_text (s : option string) : number_text := s.

(** ** Exchanges on a healthy connection *)

(** A closure of [print] run on the job's variables. *)
Definition apply_call (c : call) (j : PrintJob) : PrintJob :=
  match c with
  | Resolve f lines => run_resolve f lines j
  | Reject f e => run_reject f e j
  end.

Definition apply_calls (cs : list call) (j : PrintJob) : PrintJob :=
  fold_left (fun j c => apply_call c j) cs j.

(** Connected, no error, no command in flight, no reply under way, and a
    [_send] timeout pending exactly when the queue holds something. *)
Definition idle (w : World) : bool :=
  State_eqb (state (ctrl w)) Connected
  && negb (truthy (error (ctrl w)))
  && match socket (ctrl w) with Some _ => true | None => false end
  && match next (ctrl w) with Some _ => false | None => true end
  && match output (ctrl w) with [] => true | _ :: _ => false end
  && match queue (ctrl w) with
     | [] => negb (timer (ctrl w)) && Nat.eqb (timers w) 0
     | _ :: _ => timer (ctrl w) && Nat.eqb (timers w) 1
     end.

(** A line that does not end a reply: it holds no ["ok"]. *)
Definition data_line (l : string) : bool := JsString.indexOf "ok" l <? 0.

(** One reply: lines of data, then a line that holds ["ok"]. *)
Record reply : Type := {
  sent_at : Z;
  data : list string;
  last_line : string
}.

Definition reply_ok (r : reply) : bool :=
  forallb data_line (data r) && negb (data_line (last_line r)).

(** The timeout that sends a command, and the lines of its reply. *)
Definition exchange (r : reply) : list event :=
  TimerFires (sent_at r) :: List.map Line (data r) ++ [Line (last_line r)].

(** The lines the callback receives: the last line counts unless it
    starts with ["ok"]. *)
Definition delivered (r : reply) : list string :=
  data r ++ (if JsString.indexOf "ok" (last_line r) >? 0
             then [last_line r] else []).

(** The callbacks run when the entries [q] get the replies [rs]. *)
Fixpoint deliveries (q : list command) (rs : list reply) : list call :=
  match q, rs with
  | c :: q', r :: rs' =>
      match resolve c with
      | Some f => Resolve f (delivered r) :: deliveries q' rs'
      | None => deliveries q' rs'
      end
  | _, _ => []
  end.

Definition has_resolve (c : command) : bool :=
  match resolve c with Some _ => true | None => false end.

(** The entries of [print] before the final [M27]. *)
Definition print_steps (crc : list byte -> Z) (path : string)
           (buffer : list byte) : list command :=
  [ok_fail "M115"; ok_fail "M650"; ok_fail "M115"; ok_fail "M114";
   ok_fail "M27"; ok_fail "M119"; ok_fail "M105";
   ok_fail ("M28 " ++ pretty (Buffer.length buffer) ++ " " ++ path)]
    ++ List.map block_entry (blocks crc buffer)
    ++ [ok_fail "M29"; ok_fail ("M23 " ++ path)].

(** What [GXSender] puts on the wire for the file [buffer] and the
    device path [path]. *)
Definition sender_lines (crc : list byte -> Z) (path : string)
           (buffer : list byte) : list payload :=
  List.map (fun c => Text ("~" ++ c ++ CRLF))
           ["M115"; "M650"; "M115"; "M114"; "M27"; "M119"; "M105";
            "M28 " ++ pretty (Buffer.length buffer) ++ path]%string
    ++ List.map Binary (blocks crc buffer)
    ++ List.map (fun c => Text ("~" ++ c ++ CRLF))
                ["M29"; "M23" ++ path; "M119"; "M105"; "M27"; "M602"]%string.

(** ** Reading blocks back *)

(** What a receiver keeps of a block: the bytes after the 16-byte
    header, cut to the length the block records. *)
Definition unblock (blk : list byte) : list byte :=
  take (Z.to_nat (recorded_length blk)) (drop 16 blk).

(** The big-endian fields at offsets 4 and 12 of a block. *)
Definition recorded_index (blk : list byte) : Z :=
  be_value (take 4 (drop 4 blk)).

Definition recorded_crc (blk : list byte) : Z :=
  be_value (take 4 (drop 12 blk)).

(** ** Repeated keys *)

(** The value of the last pair of [kvs] whose key is [k]. *)
Fixpoint last_value (k : string) (kvs : list (string * string))
  : option string :=
  match kvs with
  | [] => None
  | kv :: rest =>
      match last_value k rest with
      | Some v => Some v
      | None => if String.eqb (fst kv) k then Some (snd kv) else None
      end
  end.

(** A string without its first character. *)
Definition behead (s : string) : string :=
  match s with
  | EmptyString => EmptyString
  | String _ rest => rest
  end.

(** ** Scans *)

(** The events that count towards the end of the scan, and the hosts
    that answered. *)
Definition scan_counts (ev : scan_event) : bool :=
  (1 <=? scan_host ev) && (scan_host ev <? 255)
  && match ev with HostConnect _ => false | _ => true end.

Definition scan_hosts (subnet : string) (evs : list scan_event)
  : list string :=
  flat_map (fun ev => match ev with
                      | HostConnect ep =>
                          if (1 <=? ep) && (ep <? 255) then [addr subnet ep]
                          else []
                      | _ => []
                      end) evs.

(** Every host of the subnet is still listed as wanted. *)
Definition all_listed (subnet : string) (m : gmap string bool) : Prop :=
  forall ep, 1 <= ep < 255 -> m !! addr subnet ep = Some true.

(** ** Temperatures *)

(** One reading [name:now/target], with any number of spaces before
    the slash. *)
Record reading : Type := {
  rd_name : string;
  rd_now : string;
  rd_gap : nat;
  rd_target : string
}.

Fixpoint spaces (n : nat) : string :=
  match n with
  | O => EmptyString
  | S k => String " " (spaces k)
  end.

Definition render_reading (r : reading) : string :=
  (rd_name r ++ String ":" (rd_now r ++ spaces (rd_gap r)
                              ++ String "/" (rd_target r)))%string.

(** Readings separated by single spaces. *)
Fixpoint render_readings (rs : list reading) : string :=
  match rs with
  | [] => EmptyString
  | r :: rest =>
      match rest with
      | [] => render_reading r
      | _ :: _ => (render_reading r ++ String " " (render_readings rest))%string
      end
  end.

(** No part of a reading holds a space, a colon or a slash. *)
Definition plain (s : string) : bool :=
  lacks " " s && lacks ":" s && lacks "/" s.

Definition reading_ok (r : reading) : bool :=
  plain (rd_name r) && plain (rd_now r) && plain (rd_target r).

Definition close_up (r : reading) : reading :=
  {| rd_name := rd_name r; rd_now := rd_now r; rd_gap := 0;
     rd_target := rd_target r |}.

(** ** Timers *)




(** * Bytes and fixed-width integers *)

Lemma Z_of_byte_range (b : byte) : 0 <= Z_of_byte b < 256.
Proof.
  unfold Z_of_byte. pose proof (Byte.to_N_bounded b) as H.
  lia.
Qed.

Lemma Z_of_byte_of_Z (v : Z) : Z_of_byte (byte_of_Z v) = v mod 256.
Proof.
  unfold Z_of_byte, byte_of_Z.
  assert (Hr : 0 <= v mod 256 < 256) by (apply Z.mod_pos_bound; lia).
  destruct (Byte.of_N (Z.to_N (v mod 256))) as [b|] eqn:E.
  - apply Byte.to_of_N in E. rewrite E. lia.
  - apply Byte.of_N_None_iff in E. lia.
Qed.

Lemma length_le_bytes (n : nat) (v : Z) :
  List.length (Buffer.le_bytes n v) = n.
Proof.
  revert v. induction n as [|n IH]; intros v; simpl; [done|]. by rewrite IH.
Qed.

Lemma le_value_le_bytes (n : nat) (v : Z) :
  0 <= v < 2 ^ (8 * Z.of_nat n) -> Buffer.le_value (Buffer.le_bytes n v) = v.
Proof.
  revert v. induction n as [|n IH]; intros v Hv.
  - simpl in *. lia.
  - cbn [Buffer.le_bytes Buffer.le_value].
    rewrite Z_of_byte_of_Z, IH.
    + pose proof (Z.div_mod v 256). lia.
    + replace (8 * Z.of_nat (S n)) with (8 + 8 * Z.of_nat n) in Hv by lia.
      rewrite Z.pow_add_r in Hv by lia. change (2 ^ 8) with 256 in Hv.
      split; [apply Z.div_pos; lia|].
      apply Z.div_lt_upper_bound; lia.
Qed.

Lemma u32_range_true (v : Z) :
  fits_u32 v -> (0 <=? v) && (v <? 2 ^ (8 * Z.of_nat 4)) = true.
Proof. unfold fits_u32. change (2 ^ (8 * Z.of_nat 4)) with (2 ^ 32). lia. Qed.

Lemma u32_range_false (v : Z) :
  ~ fits_u32 v -> (0 <=? v) && (v <? 2 ^ (8 * Z.of_nat 4)) = false.
Proof. unfold fits_u32. change (2 ^ (8 * Z.of_nat 4)) with (2 ^ 32). lia. Qed.

Lemma GXWriter_header_ok (n : Z) (t l : jsnum) :
  fits_u32 (58 + n) -> fits_u32 (or_default t 100) ->
  fits_u32 (or_default l 100) ->
  GXWriter_header n t l =
  Ok (magic_bytes ++ Buffer.le_bytes 4 58 ++ Buffer.le_bytes 4 (58 + n)
        ++ Buffer.le_bytes 4 (58 + n) ++ Buffer.le_bytes 4 (or_default t 100)
        ++ Buffer.le_bytes 4 (or_default l 100) ++ header_tail).
Proof.
  intros Hn Ht Hl.
  unfold GXWriter_header, u32, Buffer.writeUIntLE.
  rewrite !(u32_range_true _ Hn), (u32_range_true _ Ht), (u32_range_true _ Hl).
  cbn [Buffer.le_bytes].
  generalize (58 + n); intros a. generalize (or_default t 100); intros b.
  generalize (or_default l 100); intros c.
  generalize (byte_of_Z a) (byte_of_Z (a / 256)) (byte_of_Z (a / 256 / 256))
             (byte_of_Z (a / 256 / 256 / 256)).
  generalize (byte_of_Z b) (byte_of_Z (b / 256)) (byte_of_Z (b / 256 / 256))
             (byte_of_Z (b / 256 / 256 / 256)).
  generalize (byte_of_Z c) (byte_of_Z (c / 256)) (byte_of_Z (c / 256 / 256))
             (byte_of_Z (c / 256 / 256 / 256)).
  intros. vm_compute. reflexivity.
Qed.

Lemma readUIntLE_in (n : nat) (off : Z) (buf : list byte) :
  0 <= off -> off + Z.of_nat n <= Buffer.length buf ->
  Buffer.readUIntLE n off buf = Ok (field n (Z.to_nat off) buf).
Proof.
  intros H0 H1. unfold Buffer.readUIntLE.
  replace ((0 <=? off) && (off + Z.of_nat n <=? Buffer.length buf)) with true
    by lia.
  reflexivity.
Qed.



Lemma GXReader_ok (b : list byte) :
  58 <= Buffer.length b ->
  GXReader b = Ok {| buf := b; pos := 58; struct := struct_of b |}.
Proof.
  intros H.
  unfold GXReader, Reader.read_struct, Reader.u32, Reader.u16, Reader.u8,
    Reader.seq, Reader.inc, Reader.read, Reader.get_pos, Reader.ret.
  rewrite !readUIntLE_in by (simpl; lia).
  reflexivity.
Qed.


(** * Slices *)

Lemma adjustOffset_min (o len : Z) :
  0 <= o -> 0 <= len -> Buffer.adjustOffset o len = Z.min o len.
Proof. intros Ho Hl. unfold Buffer.adjustOffset. repeat case_match; lia. Qed.

Lemma slice_take_drop (s e : Z) (b : list byte) :
  0 <= s <= e ->
  Buffer.slice s e b = take (Z.to_nat (e - s)) (drop (Z.to_nat s) b).
Proof.
  intros Hse. unfold Buffer.slice.
  rewrite !adjustOffset_min by (unfold Buffer.length; lia).
  unfold Buffer.length. set (len := List.length b).
  set (n := if _ >? _ then _ else _).
  assert (Hn : Z.to_nat n
               = Z.to_nat (Z.min e (Z.of_nat len) - Z.min s (Z.of_nat len)))
    by (subst n; case_match; lia).
  rewrite Hn. clear Hn n.
  destruct (Z_lt_le_dec s (Z.of_nat len)) as [Hs|Hs].
  - rewrite (Z.min_l s) by lia.
    destruct (Z_le_gt_dec e (Z.of_nat len)) as [He|He].
    + by rewrite (Z.min_l e) by lia.
    + rewrite (Z.min_r e) by lia.
      rewrite !take_ge; [done| |]; rewrite length_drop; lia.
  - rewrite !(drop_ge b) by lia. by rewrite !take_nil.
Qed.

Lemma slice_mid (a b c : list byte) :
  Buffer.slice (Buffer.length a) (Buffer.length a + Buffer.length b)
               (a ++ b ++ c) = b.
Proof.
  unfold Buffer.length. rewrite slice_take_drop by lia.
  rewrite Nat2Z.id, drop_app_length.
  replace (Z.to_nat _) with (List.length b) by lia.
  apply take_app_length.
Qed.

Lemma slice_rest (a b : list byte) :
  Buffer.slice (Buffer.length a) (Buffer.length (a ++ b)) (a ++ b) = b.
Proof.
  unfold Buffer.length. rewrite length_app, slice_take_drop by lia.
  rewrite Nat2Z.id, drop_app_length. apply take_ge. lia.
Qed.

(** * Header fields of an encoded file *)

Lemma field_skip (pre l : list byte) (n off k : nat) :
  List.length pre = k -> (k <= off)%nat ->
  field n off (pre ++ l) = field n (off - k) l.
Proof.
  intros <- Hk. unfold field. rewrite drop_app_ge by exact Hk. reflexivity.
Qed.

Lemma field_here (bs post : list byte) (n : nat) :
  List.length bs = n -> field n 0 (bs ++ post) = Buffer.le_value bs.
Proof. intros <-. unfold field. by rewrite drop_0, take_app_length. Qed.

Ltac field_peel :=
  repeat first
    [ rewrite (field_skip magic_bytes _ _ _ 16) by (reflexivity || lia)
    | rewrite (field_skip (Buffer.le_bytes 4 _) _ _ _ 4)
        by (apply length_le_bytes || lia) ];
  cbn [Nat.sub];
  rewrite field_here by apply length_le_bytes.

Lemma length_encoded_header n t l : List.length (encoded_header n t l) = 58%nat.
Proof. reflexivity. Qed.

Lemma encoded_fields (n : Z) (t l : jsnum) (rest : list byte) :
  fits_u32 (58 + n) -> fits_u32 (or_default t 100) ->
  fits_u32 (or_default l 100) ->
  let out := encoded_header n t l ++ rest in
  field 4 16 out = 58 /\ field 4 20 out = 58 + n /\ field 4 24 out = 58 + n /\
  field 4 28 out = or_default t 100 /\ field 4 32 out = or_default l 100.
Proof.
  intros Hn Ht Hl out. subst out. unfold encoded_header.
  rewrite <- !app_assoc.
  repeat split; field_peel; apply le_value_le_bytes; assumption.
Qed.

(** * When the writer succeeds *)

Lemma writeUIntLE_throws (n : nat) (v off : Z) (b : list byte) (e : exn) :
  Buffer.writeUIntLE n v off b = Throw e -> e = RangeError.
Proof. unfold Buffer.writeUIntLE. repeat case_match; congruence. Qed.

Lemma u32_ok_fits (v off : Z) (b b' : list byte) :
  u32 v off b = Ok b' -> fits_u32 v.
Proof.
  unfold u32, Buffer.writeUIntLE, fits_u32.
  change (2 ^ (8 * Z.of_nat 4)) with (2 ^ 32).
  repeat case_match; try discriminate. lia.
Qed.

Lemma GXWriter_header_fits (n : Z) (t l : jsnum) (h : list byte) :
  GXWriter_header n t l = Ok h ->
  fits_u32 (58 + n) /\ fits_u32 (or_default t 100) /\
  fits_u32 (or_default l 100).
Proof.
  intros H. unfold GXWriter_header in H.
  repeat match type of H with
         | bind ?r _ = _ =>
             let E := fresh "E" in
             destruct r eqn:E; cbn [bind] in H; [|discriminate H]
         end.
  repeat split; eapply u32_ok_fits; eassumption.
Qed.

Lemma GXWriter_header_throws (n : Z) (t l : jsnum) (e : exn) :
  GXWriter_header n t l = Throw e -> e = RangeError.
Proof.
  intros H. unfold GXWriter_header in H.
  repeat match type of H with
         | bind ?r _ = _ =>
             let E := fresh "E" in
             destruct r eqn:E; cbn [bind] in H;
             [| apply writeUIntLE_throws in E; congruence]
         end.
  discriminate H.
Qed.

(** The writer succeeds exactly when the three computed header values
    fit 32 bits, and then its output is header, thumbnail, toolpath. *)
Lemma GXWriter_ok (gcode : list byte) (bmp : option (list byte))
      (t l : jsnum) :
  fits_u32 (58 + Buffer.length (bmp_or_empty bmp)) ->
  fits_u32 (or_default t 100) -> fits_u32 (or_default l 100) ->
  GXWriter gcode bmp t l =
  Ok (encoded_header (Buffer.length (bmp_or_empty bmp)) t l
        ++ bmp_or_empty bmp ++ gcode).
Proof.
  intros Hn Ht Hl. unfold GXWriter.
  replace (match bmp with None => Buffer.alloc 0 | Some b => b end)
    with (bmp_or_empty bmp) by (by destruct bmp).
  rewrite GXWriter_header_ok by assumption. cbn [bind].
  unfold Buffer.concat, encoded_header. cbn [List.concat].
  by rewrite app_nil_r.
Qed.

Lemma GXWriter_inv (gcode : list byte) (bmp : option (list byte))
      (t l : jsnum) (out : list byte) :
  GXWriter gcode bmp t l = Ok out ->
  fits_u32 (58 + Buffer.length (bmp_or_empty bmp)) /\
  fits_u32 (or_default t 100) /\ fits_u32 (or_default l 100).
Proof.
  unfold GXWriter.
  replace (match bmp with None => Buffer.alloc 0 | Some b => b end)
    with (bmp_or_empty bmp) by (by destruct bmp).
  destruct (GXWriter_header _ t l) as [h|e] eqn:E; cbn [bind]; [|discriminate].
  intros _. eapply GXWriter_header_fits, E.
Qed.

Lemma GXWriter_unfit (gcode : list byte) (bmp : option (list byte))
      (t l : jsnum) :
  ~ (fits_u32 (58 + Buffer.length (bmp_or_empty bmp)) /\
     fits_u32 (or_default t 100) /\ fits_u32 (or_default l 100)) ->
  GXWriter gcode bmp t l = Throw RangeError.
Proof.
  intros Hno. destruct (GXWriter gcode bmp t l) as [out|e] eqn:E.
  - apply GXWriter_inv in E. contradiction.
  - f_equal. unfold GXWriter in E.
    destruct (GXWriter_header _ t l) as [h|e'] eqn:E'; cbn [bind] in E;
      [discriminate|].
    apply GXWriter_header_throws in E'. congruence.
Qed.

(** * Claims on the container codec *)

Lemma decode_encoded (n : Z) (t l : jsnum) (bmp gcode : list byte) :
  n = Buffer.length bmp ->
  fits_u32 (58 + n) -> fits_u32 (or_default t 100) ->
  fits_u32 (or_default l 100) ->
  let out := encoded_header n t l ++ bmp ++ gcode in
  exists r, GXReader out = Ok r /\
            buf r = out /\
            bmpoff (struct r) = 58 /\ gc1off (struct r) = 58 + n /\
            gc2off (struct r) = 58 + n /\
            prsecs (struct r) = or_default t 100 /\
            prfila (struct r) = or_default l 100.
Proof.
  intros -> Hn Ht Hl out.
  destruct (encoded_fields _ t l (bmp ++ gcode) Hn Ht Hl)
    as (F1 & F2 & F3 & F4 & F5).
  eexists. split.
  - apply GXReader_ok. subst out. unfold Buffer.length.
    rewrite length_app, length_encoded_header. lia.
  - cbn [buf struct struct_of bmpoff gc1off gc2off prsecs prfila].
    auto 10.
Qed.

(** C1, amended: when the offset [58 + thumbnail length] and the two
    estimates fit unsigned 32 bits, the writer returns a file, the reader
    accepts it, [extract] gives back the thumbnail and the toolpath byte
    for byte, and the offsets read back satisfy
    [bmpoff <= gc1off = gc2off <= length]. *)
Theorem GX_roundtrip (toolpath : list byte) (bmp : option (list byte))
        (t f : jsnum) :
  fits_u32 (58 + Buffer.length (bmp_or_empty bmp)) ->
  fits_u32 (or_default t 100) -> fits_u32 (or_default f 100) ->
  exists out r,
    GXWriter toolpath bmp t f = Ok out /\
    GXReader out = Ok r /\
    extract r = (bmp_or_empty bmp, toolpath) /\
    bmpoff (struct r) <= gc1off (struct r) /\
    gc1off (struct r) = gc2off (struct r) /\
    gc2off (struct r) <= Buffer.length out.
Proof.
  intros Hn Ht Hf. set (thumb := bmp_or_empty bmp) in *.
  destruct (decode_encoded (Buffer.length thumb) t f thumb toolpath
                           eq_refl Hn Ht Hf)
    as (r & Hr & Hbuf & Hb & Hg1 & Hg2 & _).
  exists (encoded_header (Buffer.length thumb) t f ++ thumb ++ toolpath), r.
  split; [by apply GXWriter_ok|]. split; [exact Hr|].
  assert (Hh : Buffer.length (encoded_header (Buffer.length thumb) t f) = 58)
    by reflexivity.
  unfold extract. rewrite Hbuf, Hb, Hg1. repeat split.
  - f_equal.
    + rewrite <- Hh at 1 2. apply slice_mid.
    + rewrite app_assoc.
      replace (58 + Buffer.length thumb)
        with (Buffer.length (encoded_header (Buffer.length thumb) t f ++ thumb))
        by (unfold Buffer.length;
            rewrite length_app, length_encoded_header; lia).
      apply slice_rest.
  - unfold Buffer.length. lia.
  - congruence.
  - rewrite Hg2. unfold Buffer.length.
    rewrite !length_app, length_encoded_header. lia.
Qed.

Lemma GX_roundtrip_witness :
  exists out r,
    GXWriter [x47; x31] (Some [x42; x4d]) (Int 60) Undefined = Ok out /\
    GXReader out = Ok r /\
    extract r = ([x42; x4d], [x47; x31]) /\
    bmpoff (struct r) <= gc1off (struct r) /\
    gc1off (struct r) = gc2off (struct r) /\
    gc2off (struct r) <= Buffer.length out.
Proof.
  apply (GX_roundtrip [x47; x31] (Some [x42; x4d]) (Int 60) Undefined);
    unfold fits_u32; vm_compute; split; congruence.
Defined.

(** C1 as stated fails for a thumbnail of 2^32 - 58 bytes: the offset
    58 + 2^32 - 58 is refused by [writeUInt32LE] and no file is
    produced. It fails in the same way, whatever the thumbnail, when the
    caller passes -1 for the print time. *)
Lemma GX_roundtrip_counterexample :
  let thumbnail := replicate (Z.to_nat (2 ^ 32 - 58)) x00 in
  (GXWriter [x47] (Some thumbnail) Undefined Undefined = Throw RangeError /\
   ~ exists out r,
       GXWriter [x47] (Some thumbnail) Undefined Undefined = Ok out /\
       GXReader out = Ok r /\ extract r = (thumbnail, [x47])) /\
  GXWriter [x47] (Some [x42; x4d]) (Int (-1)) Undefined = Throw RangeError.
Proof.
  intros thumbnail.
  assert (H : GXWriter [x47] (Some thumbnail) Undefined Undefined
              = Throw RangeError).
  { apply GXWriter_unfit. intros (H & _). revert H.
    unfold fits_u32, Buffer.length, bmp_or_empty, thumbnail.
    rewrite length_replicate. lia. }
  split; [split; [exact H|]|].
  - intros (out & r & Hout & _). congruence.
  - apply GXWriter_unfit. intros (_ & H' & _). revert H'.
    unfold fits_u32. cbn [or_default Z.eqb]. lia.
Qed.



(** C10: whenever the writer builds a file, the 32-bit field at offset
    28 (print seconds) holds 100 if the caller passed 0 and the caller's
    value if that is not 0; likewise the field at offset 32 (filament
    length). *)
Theorem GXWriter_zero_is_default (gcode : list byte) (bmp : option (list byte))
        (time length : jsnum) (out : list byte) :
  GXWriter gcode bmp time length = Ok out ->
  (time = Int 0 -> Buffer.readUIntLE 4 28 out = Ok 100) /\
  (length = Int 0 -> Buffer.readUIntLE 4 32 out = Ok 100) /\
  (forall z, time = Int z -> z <> 0 -> Buffer.readUIntLE 4 28 out = Ok z) /\
  (forall z, length = Int z -> z <> 0 -> Buffer.readUIntLE 4 32 out = Ok z).
Proof.
  intros H. destruct (GXWriter_inv _ _ _ _ _ H) as (Hn & Ht & Hl).
  rewrite GXWriter_ok in H by assumption.
  destruct (encoded_fields _ time length (bmp_or_empty bmp ++ gcode) Hn Ht Hl)
    as (_ & _ & _ & F4 & F5).
  set (file := encoded_header _ _ _ ++ _) in *.
  assert (out = file) as -> by congruence.
  assert (Hlen : 58 <= Buffer.length file).
  { unfold Buffer.length, file.
    rewrite length_app, length_encoded_header. lia. }
  rewrite !readUIntLE_in by lia.
  change (Z.to_nat 28) with 28%nat. change (Z.to_nat 32) with 32%nat.
  rewrite F4, F5.
  repeat split.
  - by intros ->.
  - by intros ->.
  - intros z -> Hz. cbn [or_default]. by destruct (Z.eqb_spec z 0).
  - intros z -> Hz. cbn [or_default]. by destruct (Z.eqb_spec z 0).
Qed.

Lemma GXWriter_zero_is_default_witness :
  exists out,
    GXWriter [x47] None (Int 0) (Int 1500) = Ok out /\
    Buffer.readUIntLE 4 28 out = Ok 100 /\
    Buffer.readUIntLE 4 32 out = Ok 1500.
Proof.
  eexists. split; [vm_compute; reflexivity|].
  match goal with
  | |- Buffer.readUIntLE _ _ ?o = _ /\ _ =>
      destruct (GXWriter_zero_is_default [x47] None (Int 0) (Int 1500) o)
        as (H1 & _ & _ & H4); [vm_compute; reflexivity|]
  end.
  split; [apply H1; reflexivity | apply (H4 1500); [reflexivity | lia]].
Defined.

(** * Big-endian fields of a block *)

Lemma byte_of_Z_mod (v : Z) : byte_of_Z (v mod 256) = byte_of_Z v.
Proof. unfold byte_of_Z. by rewrite Z.mod_mod. Qed.

Lemma byte_of_Z_congr (a b : Z) :
  a mod 256 = b mod 256 -> byte_of_Z a = byte_of_Z b.
Proof. intros H. by rewrite <- (byte_of_Z_mod a), H, byte_of_Z_mod. Qed.

Lemma ToInt32_wraps (v : Z) : exists m, ToInt32 v = v + m * 2 ^ 32.
Proof.
  unfold ToInt32. pose proof (Z.div_mod v (2 ^ 32)) as H.
  case_match.
  - exists (- (v / 2 ^ 32) - 1). lia.
  - exists (- (v / 2 ^ 32)). lia.
Qed.

Lemma js_byte_of_shift (v k : Z) :
  0 <= k <= 24 ->
  (js_and (js_sar v k) 255) mod 256 = (v / 2 ^ k) mod 256.
Proof.
  intros Hk. unfold js_and, js_sar.
  change (ToInt32 255) with (Z.ones 8).
  rewrite Z.land_ones by lia. change (2 ^ 8) with 256. rewrite Z.mod_mod by lia.
  destruct (ToInt32_wraps (Z.shiftr (ToInt32 v) k)) as [m1 ->].
  replace (m1 * 2 ^ 32) with (m1 * 2 ^ 24 * 256) by lia.
  rewrite Z.mod_add by lia.
  rewrite Z.shiftr_div_pow2 by lia.
  destruct (ToInt32_wraps v) as [m ->].
  replace (m * 2 ^ 32) with (m * 2 ^ (32 - k) * 2 ^ k)
    by (rewrite <- Z.mul_assoc, <- Z.pow_add_r by lia; do 2 f_equal; lia).
  rewrite Z.div_add by (apply Z.pow_nonzero; lia).
  replace (m * 2 ^ (32 - k)) with (m * 2 ^ (24 - k) * 256).
  - by rewrite Z.mod_add by lia.
  - rewrite <- Z.mul_assoc. f_equal. change 256 with (2 ^ 8).
    rewrite <- Z.pow_add_r by lia. f_equal. lia.
Qed.

Lemma uint32b_big_endian (v : Z) : uint32b v = be_u32 v.
Proof.
  unfold uint32b, be_u32, Buffer_from. cbn [List.map].
  assert (H : forall k, 0 <= k <= 24 ->
                        byte_of_Z (js_and (js_sar v k) 255)
                        = byte_of_Z (v / 2 ^ k))
    by (intros k Hk; apply byte_of_Z_congr, js_byte_of_shift, Hk).
  rewrite !H by lia. by rewrite Z.pow_0_r, Z.div_1_r.
Qed.

Lemma be_value_be_u32 (v : Z) : 0 <= v < 2 ^ 32 -> be_value (be_u32 v) = v.
Proof.
  intros Hv. unfold be_value, be_u32. cbn [fold_left].
  rewrite !Z_of_byte_of_Z.
  change (2 ^ 8) with 256. change (2 ^ 16) with (256 * 256).
  change (2 ^ 24) with (256 * 256 * 256).
  rewrite <- !Z.div_div by lia.
  set (a := v / 256). set (b := a / 256). set (c := b / 256).
  pose proof (Z.div_mod v 256). pose proof (Z.div_mod a 256).
  pose proof (Z.div_mod b 256).
  assert (0 <= c < 256).
  { subst c b a. rewrite !Z.div_div by lia. split; [apply Z.div_pos; lia|].
    apply Z.div_lt_upper_bound; lia. }
  rewrite (Z.mod_small c) by lia.
  fold a in H. fold b in H0. fold c in H1. lia.
Qed.

Lemma queue_sendTimer (w : World) :
  queue (ctrl (_sendTimer w)) = queue (ctrl w).
Proof. unfold _sendTimer. repeat case_match; reflexivity. Qed.

Lemma queue_sendCommand c r j (w : World) :
  queue (ctrl (sendCommand c r j w)) = queue (ctrl w) ++ [text_entry c r j].
Proof. unfold sendCommand. by rewrite queue_sendTimer. Qed.

Lemma queue_sendBuffer b r j (w : World) :
  queue (ctrl (sendBuffer b r j w))
  = queue (ctrl w) ++ [{| cmd := Binary b; resolve := r; reject := j |}].
Proof. unfold sendBuffer. by rewrite queue_sendTimer. Qed.

Section FramingFacts.

Variable crc : list byte -> Z.

Lemma queue_send_blocks (buffer : list byte) (w : World) :
  queue (ctrl (send_blocks crc buffer w))
  = queue (ctrl w) ++ List.map block_entry (blocks crc buffer).
Proof.
  unfold send_blocks, blocks.
  generalize (seqZ 0 (ceil_div (Buffer.length buffer) 4096)). intros l.
  revert w. induction l as [|s l IH]; intros w; cbn [fold_left List.map].
  - by rewrite app_nil_r.
  - rewrite IH, queue_sendBuffer, <- app_assoc. reflexivity.
Qed.

Lemma block_layout (buffer : list byte) (i : Z) :
  0 <= i ->
  let chunk := Buffer.slice (i * 4096) (i * 4096 + 4096) buffer in
  let len := Buffer.length chunk in
  block crc buffer i
  = [x5a; x5a; xa5; xa5] ++ be_u32 i ++ be_u32 len ++ be_u32 (crc chunk)
      ++ chunk ++ replicate (Z.to_nat (4096 - len)) x00.
Proof.
  intros Hi chunk len. unfold block. fold chunk. fold len.
  rewrite !uint32b_big_endian.
  unfold Buffer.concat. cbn [List.concat]. rewrite !app_nil_r.
  change preamble with [x5a; x5a; xa5; xa5].
  do 4 f_equal.
  case_match.
  - reflexivity.
  - replace (Z.to_nat (4096 - len)) with 0%nat by lia.
    by rewrite app_nil_r.
Qed.

Lemma chunk_length (buffer : list byte) (i : Z) :
  0 <= i ->
  Buffer.length (Buffer.slice (i * 4096) (i * 4096 + 4096) buffer)
  = Z.max 0 (Z.min 4096 (Buffer.length buffer - i * 4096)).
Proof.
  intros Hi. rewrite slice_take_drop by lia. unfold Buffer.length.
  rewrite length_take, length_drop. lia.
Qed.

Lemma ceil_div_4096 (L : Z) :
  0 <= L ->
  4096 * (ceil_div L 4096 - 1) < L <= 4096 * ceil_div L 4096.
Proof.
  intros HL. unfold ceil_div.
  pose proof (Z.div_mod (L + 4096 - 1) 4096).
  pose proof (Z.mod_pos_bound (L + 4096 - 1) 4096). lia.
Qed.

(** C2: the loop of [print] queues [ceil(L / 4096)] blocks, in index
    order and nothing else; block [i] is the preamble 5A 5A A5 A5, the
    big-endian [i], the big-endian length of the slice
    [buffer[4096 i .. 4096 i + 4096)], the big-endian CRC-32 of that
    slice, and the slice filled with zeros to 4096 bytes; the length is
    4096 except in the last block, where it is [L mod 4096], or 4096
    when 4096 divides [L]. *)
Theorem print_framing (buffer : list byte) :
  let L := Buffer.length buffer in
  let n := ceil_div L 4096 in
  4096 * (n - 1) < L <= 4096 * n /\
  List.length (blocks crc buffer) = Z.to_nat n /\
  (forall w, queue (ctrl (send_blocks crc buffer w))
             = queue (ctrl w) ++ List.map block_entry (blocks crc buffer)) /\
  forall i, 0 <= i < n ->
    let chunk := Buffer.slice (i * 4096) (i * 4096 + 4096) buffer in
    let len := Buffer.length chunk in
    let payload := chunk ++ replicate (Z.to_nat (4096 - len)) x00 in
    len = (if i <? n - 1 then 4096
           else if L mod 4096 =? 0 then 4096 else L mod 4096) /\
    Buffer.length payload = 4096 /\
    blocks crc buffer !! Z.to_nat i
    = Some ([x5a; x5a; xa5; xa5] ++ be_u32 i ++ be_u32 len
              ++ be_u32 (crc chunk) ++ payload).
Proof.
  intros L n.
  assert (HL : 0 <= L) by (unfold L, Buffer.length; lia).
  pose proof (ceil_div_4096 L HL) as Hn. fold n in Hn.
  split; [exact Hn|]. split.
  { unfold blocks. fold L. fold n. by rewrite length_map, length_seqZ. }
  split; [apply queue_send_blocks|].
  intros i Hi chunk len payload.
  assert (Hlen : len = Z.max 0 (Z.min 4096 (L - i * 4096)))
    by (apply chunk_length; lia).
  repeat split.
  - rewrite Hlen. pose proof (Z.div_mod L 4096).
    pose proof (Z.mod_pos_bound L 4096).
    repeat case_match; nia.
  - unfold payload, Buffer.length. rewrite length_app, length_replicate.
    unfold len, Buffer.length in Hlen |- *. lia.
  - unfold blocks. fold L. fold n.
    rewrite list_lookup_fmap, (lookup_seqZ_lt 0 n (Z.to_nat i)) by lia.
    cbn [fmap option_fmap option_map].
    rewrite Z.add_0_l, Z2Nat.id by lia.
    f_equal. apply block_layout. lia.
Qed.

End FramingFacts.

Lemma print_framing_witness :
  blocks crc32 [x01; x02; x03] !! 0%nat
  = Some ([x5a; x5a; xa5; xa5] ++ be_u32 0 ++ be_u32 3
            ++ be_u32 (crc32 [x01; x02; x03])
            ++ [x01; x02; x03] ++ replicate 4093 x00).
Proof.
  destruct (print_framing crc32 [x01; x02; x03]) as (_ & _ & _ & H).
  destruct (H 0) as (_ & _ & H3); [vm_compute; split; congruence|].
  exact H3.
Defined.

(** * Scenario B *)

Lemma recorded_length_layout (i len : Z) (pre rest : list byte) :
  List.length pre = 4%nat -> 0 <= len < 2 ^ 32 ->
  recorded_length (pre ++ be_u32 i ++ be_u32 len ++ rest) = len.
Proof.
  intros Hpre Hlen. unfold recorded_length.
  rewrite (app_assoc pre), (drop_app_length' _ _ 8)
    by (rewrite length_app, Hpre; reflexivity).
  rewrite (take_app_length' _ _ 4) by reflexivity.
  by apply be_value_be_u32.
Qed.

Section ScenarioB.

Variable crc : list byte -> Z.

Lemma recorded_length_block (buffer : list byte) (i : Z) :
  0 <= i ->
  recorded_length (block crc buffer i)
  = Z.max 0 (Z.min 4096 (Buffer.length buffer - i * 4096)).
Proof.
  intros Hi. rewrite block_layout by exact Hi.
  rewrite recorded_length_layout; [by apply chunk_length|reflexivity|].
  rewrite chunk_length by exact Hi. lia.
Qed.

Lemma recorded_lengths_5058 (out : list byte) :
  Buffer.length out = 5058 ->
  List.map recorded_length (blocks crc out) = [4096; 962].
Proof.
  intros H. unfold blocks. rewrite H.
  change (seqZ 0 (ceil_div 5058 4096)) with [0; 1].
  cbn [List.map]. rewrite !recorded_length_block, H by lia. reflexivity.
Qed.

(** C7, amended: a toolpath of 5000 bytes without thumbnail encodes to
    58 + 5000 bytes, and the block loop cuts that file into exactly two
    blocks, which record the lengths 4096 and 962. *)
Theorem scenario_B (toolpath : list byte) (t f : jsnum) :
  List.length toolpath = 5000%nat ->
  fits_u32 (or_default t 100) -> fits_u32 (or_default f 100) ->
  exists out,
    GXWriter toolpath None t f = Ok out /\
    Buffer.length out = 58 + 5000 /\
    List.map recorded_length (blocks crc out) = [4096; 962].
Proof.
  intros Hlen Ht Hf. eexists. split.
  - apply GXWriter_ok; [|exact Ht|exact Hf].
    unfold fits_u32. vm_compute. split; congruence.
  - assert (H : Buffer.length
                  (encoded_header (Buffer.length (bmp_or_empty None)) t f
                     ++ bmp_or_empty None ++ toolpath) = 5058).
    { unfold Buffer.length. cbn [bmp_or_empty].
      rewrite !length_app, length_encoded_header, Hlen. reflexivity. }
    split; [exact H|]. by apply recorded_lengths_5058.
Qed.

End ScenarioB.

Lemma scenario_B_witness :
  exists out,
    GXWriter (replicate 5000 x47) None Undefined Undefined = Ok out /\
    Buffer.length out = 58 + 5000 /\
    List.map recorded_length (blocks crc32 out) = [4096; 962].
Proof.
  apply (scenario_B crc32 (replicate 5000 x47) Undefined Undefined).
  - apply length_replicate.
  - unfold fits_u32. vm_compute. split; congruence.
  - unfold fits_u32. vm_compute. split; congruence.
Defined.

(** C7 as stated fails: for 5000 bytes of the letter G the second block
    records 962, the rest of 5058 bytes, not 916. *)
Lemma scenario_B_counterexample :
  exists out,
    GXWriter (replicate 5000 x47) None Undefined Undefined = Ok out /\
    List.map recorded_length (blocks crc32 out) = [4096; 962] /\
    List.map recorded_length (blocks crc32 out) <> [4096; 916].
Proof.
  eexists. split; [vm_compute; reflexivity|].
  assert (H : forall o, o = [4096; 962] -> o = [4096; 962] /\ o <> [4096; 916])
    by (intros o ->; split; [reflexivity|discriminate]).
  apply H. vm_compute. reflexivity.
Qed.

(** * Strings *)

Lemma append_assoc (a b c : string) :
  ((a ++ b) ++ c = a ++ (b ++ c))%string.
Proof.
  induction a as [|x a IH]; [reflexivity|].
  change (String x ((a ++ b) ++ c) = String x (a ++ (b ++ c)))%string.
  by rewrite IH.
Qed.

Lemma length_append (s r : string) :
  String.length (s ++ r) = (String.length s + String.length r)%nat.
Proof. induction s as [|c s IH]; simpl; [done|]. by rewrite IH. Qed.

Lemma indexOf_from_cons (needle : string) (c : ascii) (s : string) (i : Z) :
  JsString.indexOf_from needle (String c s) i
  = if JsString.startsWith needle (String c s) then i
    else JsString.indexOf_from needle s (i + 1).
Proof. reflexivity. Qed.

Lemma startsWith_char (a c : ascii) (s : string) :
  JsString.startsWith (String a EmptyString) (String c s) = Ascii.eqb a c.
Proof. cbn [JsString.startsWith]. apply andb_true_r. Qed.

Lemma lacks_cons (a c : ascii) (s : string) :
  lacks a (String c s) = true -> Ascii.eqb a c = false /\ lacks a s = true.
Proof.
  cbn [lacks]. intros H. apply andb_prop in H as [Hc Hs].
  apply negb_true_iff in Hc. by rewrite Ascii.eqb_sym.
Qed.

Lemma indexOf_from_colon (k rest : string) (i : Z) :
  lacks ":" k = true ->
  JsString.indexOf_from ":" (k ++ String ":" rest) i
  = i + Z.of_nat (String.length k).
Proof.
  revert i. induction k as [|c k IH]; intros i Hk.
  - change (EmptyString ++ String ":" rest)%string with (String ":" rest).
    rewrite indexOf_from_cons, startsWith_char, Ascii.eqb_refl.
    cbn [String.length]. lia.
  - apply lacks_cons in Hk as [Hc Hk].
    change (String c k ++ String ":" rest)%string
      with (String c (k ++ String ":" rest)).
    rewrite indexOf_from_cons, startsWith_char, Hc, IH by exact Hk.
    cbn [String.length]. lia.
Qed.

Lemma indexOf_colon (k rest : string) :
  lacks ":" k = true ->
  JsString.indexOf ":" (k ++ String ":" rest) = Z.of_nat (String.length k).
Proof. intros H. unfold JsString.indexOf. by rewrite indexOf_from_colon. Qed.

Lemma indexOf_from_lacks (s : string) (i : Z) :
  lacks ":" s = true -> JsString.indexOf_from ":" s i = -1.
Proof.
  revert i. induction s as [|c s IH]; intros i Hs; [reflexivity|].
  apply lacks_cons in Hs as [Hc Hs].
  rewrite indexOf_from_cons, startsWith_char, Hc. by apply IH.
Qed.

Lemma substring_prefix (k r : string) :
  String.substring 0 (String.length k) (k ++ r) = k.
Proof.
  induction k as [|c k IH]; simpl; [by destruct r|]. by rewrite IH.
Qed.

Lemma substring_suffix (k r : string) :
  String.substring (String.length k) (String.length r) (k ++ r) = r.
Proof.
  induction k as [|c k IH]; simpl; [|exact IH].
  induction r as [|d r IHr]; simpl; [reflexivity|]. f_equal. exact IHr.
Qed.

Lemma clamp_id (i len : Z) : 0 <= i <= len -> JsString.clamp i len = i.
Proof. intros H. unfold JsString.clamp. repeat case_match; lia. Qed.

Lemma js_substring_in (a b : Z) (s : string) :
  0 <= a <= b -> b <= Z.of_nat (String.length s) ->
  JsString.substring a b s
  = String.substring (Z.to_nat a) (Z.to_nat (b - a)) s.
Proof.
  intros Hab Hb. unfold JsString.substring.
  rewrite !clamp_id by lia.
  by rewrite Z.min_l, Z.max_r by lia.
Qed.

Lemma js_substring_key (k r : string) :
  JsString.substring 0 (Z.of_nat (String.length k)) (k ++ r) = k.
Proof.
  rewrite js_substring_in by (rewrite ?length_append; lia).
  rewrite Z.sub_0_r, Nat2Z.id. apply substring_prefix.
Qed.

Lemma js_substring_value (k v : string) :
  JsString.substring_from (Z.of_nat (String.length k) + 2)
                          (k ++ String ":" (String " " v)) = v.
Proof.
  unfold JsString.substring_from.
  change (k ++ String ":" (String " " v))%string
    with (k ++ (String ":" (String " " EmptyString) ++ v))%string.
  rewrite <- append_assoc.
  set (p := (k ++ String ":" (String " " EmptyString))%string).
  assert (Hp : String.length p = (String.length k + 2)%nat)
    by (unfold p; rewrite length_append; reflexivity).
  rewrite js_substring_in by (rewrite ?length_append; lia).
  rewrite length_append.
  replace (Z.to_nat (Z.of_nat (String.length k) + 2)) with (String.length p)
    by lia.
  replace (Z.to_nat _) with (String.length v) by lia.
  apply substring_suffix.
Qed.

Lemma append_cons (c : ascii) (s r : string) :
  (String c s ++ r)%string = String c (s ++ r).
Proof. reflexivity. Qed.

Lemma lacks_append (c : ascii) (s r : string) :
  lacks c (s ++ r) = lacks c s && lacks c r.
Proof.
  induction s as [|d s IH]; [reflexivity|].
  rewrite append_cons. cbn [lacks]. by rewrite IH, andb_assoc.
Qed.

(** ** [split] *)

Lemma split_cons (sep c : ascii) (s : string) :
  JsString.split sep (String c s)
  = if Ascii.eqb c sep then EmptyString :: JsString.split sep s
    else match JsString.split sep s with
         | t :: ts => String c t :: ts
         | [] => [String c EmptyString]
         end.
Proof. reflexivity. Qed.

Lemma split_lacks (sep : ascii) (t : string) :
  lacks sep t = true -> JsString.split sep t = [t].
Proof.
  induction t as [|c t IH]; intros Ht; [reflexivity|].
  cbn [lacks] in Ht. apply andb_prop in Ht as [Hc Ht].
  apply negb_true_iff in Hc.
  by rewrite split_cons, Hc, IH.
Qed.

Lemma split_at (sep : ascii) (t r : string) :
  lacks sep t = true ->
  JsString.split sep (t ++ String sep r) = t :: JsString.split sep r.
Proof.
  induction t as [|c t IH]; intros Ht.
  - change (EmptyString ++ String sep r)%string with (String sep r).
    by rewrite split_cons, Ascii.eqb_refl.
  - cbn [lacks] in Ht. apply andb_prop in Ht as [Hc Ht].
    apply negb_true_iff in Hc.
    by rewrite append_cons, split_cons, Hc, IH.
Qed.

(** ** [replace(/: /g, ':')] *)

Lemma replace_cons (c : ascii) (s : string) :
  Ascii.eqb c ":" = false ->
  JsString.replace_colon_space (String c s)
  = String c (JsString.replace_colon_space s).
Proof. intros H. cbn [JsString.replace_colon_space]. by rewrite H. Qed.

Lemma replace_lacks (s r : string) :
  lacks ":" s = true ->
  JsString.replace_colon_space (s ++ r)
  = (s ++ JsString.replace_colon_space r)%string.
Proof.
  induction s as [|c s IH]; intros Hs; [reflexivity|].
  cbn [lacks] in Hs. apply andb_prop in Hs as [Hc Hs].
  apply negb_true_iff in Hc.
  by rewrite !append_cons, replace_cons, IH.
Qed.

Lemma replace_colon_then_space (r : string) :
  JsString.replace_colon_space (String ":" (String " " r))
  = String ":" (JsString.replace_colon_space r).
Proof. reflexivity. Qed.

Lemma replace_colon_then_other (d : ascii) (r : string) :
  Ascii.eqb d " " = false ->
  JsString.replace_colon_space (String ":" (String d r))
  = String ":" (JsString.replace_colon_space (String d r)).
Proof.
  intros H. cbn [JsString.replace_colon_space].
  change (Ascii.eqb ":" ":") with true. cbv iota. by rewrite H.
Qed.

Lemma append_nil_r (s : string) : (s ++ EmptyString)%string = s.
Proof.
  induction s as [|c s IH]; [reflexivity|]. by rewrite append_cons, IH.
Qed.

Lemma token_ok_parts (t : token) :
  token_ok t = true ->
  nonempty (tok_name t) = true /\ lacks ":" (tok_name t) = true /\
  lacks " " (tok_name t) = true /\ nonempty (tok_text t) = true /\
  lacks ":" (tok_text t) = true /\ lacks " " (tok_text t) = true.
Proof.
  unfold token_ok. rewrite !andb_true_iff. tauto.
Qed.

Lemma replace_token (t : token) (r : string) :
  token_ok t = true ->
  JsString.replace_colon_space (render_token t ++ r)
  = (render_token (unspace t) ++ JsString.replace_colon_space r)%string.
Proof.
  intros Hok. apply token_ok_parts in Hok as (_ & Hn & _ & Hne & Hc & Hs).
  unfold render_token. cbn [unspace tok_name tok_spaced tok_text].
  rewrite !append_assoc, !append_cons, replace_lacks by exact Hn.
  f_equal.
  destruct (tok_spaced t).
  - rewrite append_cons, replace_colon_then_space.
    by rewrite replace_lacks by exact Hc.
  - destruct (tok_text t) as [|d txt] eqn:E; [discriminate Hne|].
    apply lacks_cons in Hs as [Hd _]. rewrite Ascii.eqb_sym in Hd.
    rewrite append_cons, replace_colon_then_other by exact Hd.
    rewrite <- append_cons, replace_lacks by exact Hc.
    reflexivity.
Qed.

Lemma replace_tokens (ts : list token) :
  forallb token_ok ts = true ->
  JsString.replace_colon_space (render_tokens ts)
  = render_tokens (List.map unspace ts).
Proof.
  induction ts as [|t rest IH]; intros Hok; [reflexivity|].
  cbn [forallb] in Hok. apply andb_prop in Hok as [Ht Hrest].
  destruct rest as [|t' rest].
  - cbn [render_tokens List.map].
    rewrite <- (append_nil_r (render_token t)), replace_token by exact Ht.
    by rewrite append_nil_r.
  - change (render_tokens (t :: t' :: rest))
      with (render_token t ++ String " " (render_tokens (t' :: rest)))%string.
    rewrite replace_token, replace_cons by (exact Ht || reflexivity).
    by rewrite IH.
Qed.

Lemma lacks_space_token (t : token) :
  token_ok t = true -> lacks " " (render_token (unspace t)) = true.
Proof.
  intros Hok. apply token_ok_parts in Hok as (_ & _ & Hn & _ & _ & Hs).
  unfold render_token. cbn [unspace tok_name tok_spaced tok_text].
  rewrite lacks_append, Hn. cbn [lacks andb]. by rewrite Hs.
Qed.

Lemma split_tokens (ts : list token) :
  ts <> [] -> forallb token_ok ts = true ->
  JsString.split " " (render_tokens (List.map unspace ts))
  = List.map (fun t => render_token (unspace t)) ts.
Proof.
  induction ts as [|t rest IH]; intros Hne Hok; [done|].
  cbn [forallb] in Hok. apply andb_prop in Hok as [Ht Hrest].
  destruct rest as [|t' rest].
  - cbn [render_tokens List.map].
    by rewrite split_lacks by by apply lacks_space_token.
  - change (render_tokens (List.map unspace (t :: t' :: rest)))
      with (render_token (unspace t)
              ++ String " "
                   (render_tokens (List.map unspace (t' :: rest))))%string.
    rewrite split_at by by apply lacks_space_token.
    rewrite IH by done. reflexivity.
Qed.

Lemma split_token (t : token) :
  token_ok t = true ->
  JsString.split ":" (render_token (unspace t)) = [tok_name t; tok_text t].
Proof.
  intros Hok. apply token_ok_parts in Hok as (_ & Hn & _ & _ & Hc & _).
  unfold render_token. cbn [unspace tok_name tok_spaced tok_text].
  by rewrite split_at, split_lacks.
Qed.

Lemma indexOf_tokens (t : token) (rest : list token) :
  token_ok t = true ->
  (JsString.indexOf ":" (render_tokens (t :: rest)) >? 0) = true.
Proof.
  intros Hok. apply token_ok_parts in Hok as (Hne & Hn & _).
  assert (H : exists r, render_tokens (t :: rest)
                        = (tok_name t ++ String ":" r)%string).
  { destruct rest; cbn [render_tokens]; unfold render_token.
    - eauto.
    - rewrite append_assoc, append_cons. eauto. }
  destruct H as [r ->]. rewrite indexOf_colon by exact Hn.
  destruct (tok_name t) as [|a s]; [discriminate Hne|].
  change (String.length (String a s)) with (S (String.length s)).
  rewrite Z.gtb_ltb. apply Z.ltb_lt. lia.
Qed.

Section TelemetryFacts.

Variable number : Type.
Variable parseFloat : option string -> number.

Lemma parseMapLines_line_render (map : gmap string (parsed number))
      (kv : string * string) :
  lacks ":" (fst kv) = true ->
  parseMapLines_line number parseFloat map (render_line kv)
  = js_set (fst kv) (parseMapValue number parseFloat (snd kv)) map.
Proof.
  intros Hk. unfold parseMapLines_line, render_line.
  rewrite indexOf_colon by exact Hk.
  by rewrite js_substring_key, js_substring_value.
Qed.

Lemma parseMapValue_text (v : string) :
  JsString.indexOf ":" v <= 0 -> parseMapValue number parseFloat v = VText v.
Proof.
  intros H. unfold parseMapValue.
  replace (JsString.indexOf ":" v >? 0) with false; [reflexivity|].
  symmetry. rewrite Z.gtb_ltb. apply Z.ltb_ge. exact H.
Qed.

Lemma parseMapValue_pair_token (map : gmap string number) (t : token) :
  token_ok t = true ->
  parseMapValue_pair number parseFloat map (render_token (unspace t))
  = js_set (tok_name t) (parseFloat (Some (tok_text t))) map.
Proof.
  intros Hok. unfold parseMapValue_pair. by rewrite split_token.
Qed.

Lemma parseMapValue_tokens (ts : list token) :
  ts <> [] -> forallb token_ok ts = true ->
  parseMapValue number parseFloat (render_tokens ts)
  = VMap (fold_left (fun m t => js_set (tok_name t)
                                       (parseFloat (Some (tok_text t))) m)
                    ts ∅).
Proof.
  intros Hne Hok. unfold parseMapValue.
  destruct ts as [|t rest]; [done|].
  rewrite indexOf_tokens
    by (cbn [forallb] in Hok; by apply andb_prop in Hok as [? _]).
  rewrite replace_tokens, split_tokens by done.
  f_equal. revert Hok. generalize (t :: rest). clear. intros ts.
  generalize (∅ : gmap string number).
  induction ts as [|t ts IH]; intros m Hok; [reflexivity|].
  cbn [forallb] in Hok. apply andb_prop in Hok as [Ht Hts].
  cbn [List.map fold_left].
  rewrite parseMapValue_pair_token by exact Ht. by apply IH.
Qed.

(** C9, amended: the first line of a reply is skipped; every later
    line [Key: value] (no colon in [Key]) sets [Key] to the parse of
    [value], the colon and the one character after it dropped; a value
    without a colon after its first character is kept as text; a value
    made of [name:number] pairs separated by single spaces, with or
    without a space after each colon, becomes the map from each name
    to [parseFloat] of its number text, whatever [parseFloat] makes of
    that text. *)
Theorem parseMapLines_spec (first : string) (kvs : list (string * string)) :
  forallb (fun kv => lacks ":" (fst kv)) kvs = true ->
  parseMapLines number parseFloat (first :: List.map render_line kvs)
  = fold_left (fun m kv =>
                 js_set (fst kv) (parseMapValue number parseFloat (snd kv)) m)
              kvs ∅
  /\ (forall v, JsString.indexOf ":" v <= 0 ->
                parseMapValue number parseFloat v = VText v)
  /\ (forall ts, ts <> [] -> forallb token_ok ts = true ->
        parseMapValue number parseFloat (render_tokens ts)
        = VMap (fold_left (fun m t => js_set (tok_name t)
                                        (parseFloat (Some (tok_text t))) m)
                          ts ∅)).
Proof.
  intros Hk. split; [|split].
  - unfold parseMapLines. cbn [List.tl].
    revert Hk. generalize (∅ : gmap string (parsed number)).
    induction kvs as [|kv kvs IH]; intros m Hk; [reflexivity|].
    cbn [forallb] in Hk. apply andb_prop in Hk as [Hkv Hk].
    cbn [List.map fold_left].
    rewrite parseMapLines_line_render by exact Hkv. by apply IH.
  - apply parseMapValue_text.
  - apply parseMapValue_tokens.
Qed.

End TelemetryFacts.

Lemma parseMapLines_spec_witness :
  parseMapLines number_text keep_text
    ["CMD M119 Received."; "Endstop: X-max: 1 Y-max: 0"; "MachineStatus: READY"]
  = fold_left (fun m kv => js_set (fst kv)
                             (parseMapValue number_text keep_text (snd kv)) m)
      [("Endstop", "X-max: 1 Y-max: 0"); ("MachineStatus", "READY")] ∅.
Proof.
  apply (parseMapLines_spec number_text keep_text "CMD M119 Received."
           [("Endstop", "X-max: 1 Y-max: 0"); ("MachineStatus", "READY")]).
  reflexivity.
Defined.

(** C9 as stated fails on the first line: a reply of the single line
    [Key: value] gives the empty map. *)
Lemma parseMapLines_counterexample :
  parseMapLines number_text keep_text ["Key: value"] = ∅ /\
  parseMapLines number_text keep_text ["Key: value"] !! "Key" = None.
Proof. split; reflexivity. Qed.

Example parseMapValue_endstop :
  parseMapValue number_text keep_text "X-max: 1 Y-max: 0 Z-min: 1"
  = VMap (<["Z-min" := Some "1"]> (<["Y-max" := Some "0"]>
            (<["X-max" := Some "1"]> ∅))).
Proof. reflexivity. Qed.

(** * The queue that [print] builds *)

Lemma endsWith_append (p suffix : string) :
  endsWith suffix (p ++ suffix) = true.
Proof.
  unfold endsWith. rewrite length_append.
  replace (String.length p + String.length suffix - String.length suffix)%nat
    with (String.length p) by lia.
  rewrite substring_suffix, String.eqb_refl, andb_true_r.
  apply Nat.leb_le. lia.
Qed.

Section PrintFacts.

Variable crc : list byte -> Z.

Lemma print_ok (name : string) (gcode : list byte)
      (bmp : option (list byte)) (t f : jsnum) (w : World)
      (buffer : list byte) :
  GXWriter gcode bmp t f = Ok buffer ->
  print crc name gcode bmp t f w
  = let ok := Some cmd_ok in
    let fail := Some cmd_fail in
    let path := device_path (with_extension name) in
    set_job (Some {| filename := path; cmd_out := []; cmd_err := JNull;
                     promise := PPending |})
      (sendCommand "M27" (Some final_ok) (Some final_fail)
      (sendCommand ("M23 " ++ path) ok fail
      (sendCommand "M29" ok fail
      (send_blocks crc buffer
      (sendCommand
         ("M28 " ++ pretty (Buffer.length buffer) ++ " " ++ path) ok fail
      (sendCommand "M105" ok fail
      (sendCommand "M119" ok fail
      (sendCommand "M27" ok fail
      (sendCommand "M114" ok fail
      (sendCommand "M115" ok fail
      (sendCommand "M650" ok fail
      (sendCommand "M115" ok fail w)))))))))))).
Proof. intros H. unfold print. rewrite H. reflexivity. Qed.

Lemma ctrl_set_job (j : option PrintJob) (w : World) :
  ctrl (set_job j w) = ctrl w.
Proof. reflexivity. Qed.

Lemma print_queue (name : string) (gcode : list byte)
      (bmp : option (list byte)) (t f : jsnum) (w : World)
      (buffer : list byte) :
  GXWriter gcode bmp t f = Ok buffer ->
  queue (ctrl (print crc name gcode bmp t f w))
  = queue (ctrl w)
      ++ print_entries crc (device_path (with_extension name)) buffer.
Proof.
  intros H. rewrite (print_ok _ _ _ _ _ _ _ H). cbv zeta.
  rewrite ctrl_set_job.
  rewrite !queue_sendCommand, queue_send_blocks, !queue_sendCommand.
  unfold print_entries, ok_fail.
  rewrite <- !app_assoc. reflexivity.
Qed.

(** Without [".gx"] anywhere in the name, the path ends in [".gx"]. *)
Lemma device_path_extension (name : string) :
  JsString.indexOf ".gx" name < 0 ->
  endsWith ".gx" (device_path (with_extension name)) = true.
Proof.
  intros H. unfold with_extension.
  replace (JsString.indexOf ".gx" name <? 0) with true by lia.
  unfold device_path.
  destruct (String.eqb_spec (name ++ ".gx") "") as [E|_].
  - destruct name; discriminate E.
  - rewrite <- append_assoc. apply endsWith_append.
Qed.

End PrintFacts.

(** * The connection state machine *)

Example connected_world_state :
  state (ctrl connected_world) = Connected /\
  option_map connecting (attempt connected_world) = Some CResolved /\
  wire connected_world = [Text ("~M601 S1" ++ CRLF)].
Proof. repeat split. Qed.

(** C5: [_connect] on an instance that is connecting, or connected,
    rejects with ["already connecting"], or ["already connected"], and
    leaves every field of the instance, the closure of the attempt in
    progress, the pending timeouts and the socket's traffic as they
    were. *)
Theorem connect_rejected_when_busy (host : string) (port : Z) (w : World) :
  (state (ctrl w) = Connecting ->
   _connect host port w = (w, CRejected (JStr "already connecting"))) /\
  (state (ctrl w) = Connected ->
   _connect host port w = (w, CRejected (JStr "already connected"))).
Proof. unfold _connect. split; intros ->; reflexivity. Qed.

Lemma connect_rejected_when_busy_witness :
  let w1 := fst (_connect "printer" 8899 World_new) in
  _connect "printer" 8899 w1 = (w1, CRejected (JStr "already connecting")) /\
  _connect "printer" 8899 connected_world
  = (connected_world, CRejected (JStr "already connected")).
Proof.
  intros w1. split.
  - apply (connect_rejected_when_busy "printer" 8899 w1). reflexivity.
  - apply (connect_rejected_when_busy "printer" 8899 connected_world).
    reflexivity.
Defined.

(** ** What the closures of [print] do *)

Lemma cmd_ok_appends (lines : list string) (j : PrintJob) :
  run_resolve cmd_ok lines j
  = {| filename := filename j; cmd_out := cmd_out j ++ lines;
       cmd_err := cmd_err j; promise := promise j |}.
Proof. reflexivity. Qed.

Lemma cmd_fail_records (e : jsval) (j : PrintJob) :
  cmd_err j = JNull -> cmd_err (run_reject cmd_fail e j) = e.
Proof. intros H. cbn [run_reject]. by rewrite H. Qed.

Lemma cmd_fail_keeps_first (e : jsval) (j : PrintJob) :
  is_null (cmd_err j) = false -> run_reject cmd_fail e j = j.
Proof. intros H. cbn [run_reject]. by rewrite H. Qed.

(** A failure whose error is [null], as the ["close"] handler passes
    when the socket reported no error, leaves [cmd_err] as it was. *)
Lemma cmd_fail_null (j : PrintJob) :
  cmd_err j = JNull -> run_reject cmd_fail JNull j = j.
Proof.
  intros H. cbn [run_reject]. rewrite H. by destruct j; cbn in *; subst.
Qed.

Lemma final_ok_rejects (lines : list string) (j : PrintJob) :
  truthy (cmd_err j) = true -> promise j = PPending ->
  promise (run_resolve final_ok lines j) = PRejected (cmd_err j).
Proof.
  intros He Hp. cbn [run_resolve]. rewrite He. unfold settle. by rewrite Hp.
Qed.

Lemma final_ok_resolves (lines : list string) (j : PrintJob) :
  truthy (cmd_err j) = false -> promise j = PPending ->
  promise (run_resolve final_ok lines j) = PResolved (filename j) (cmd_out j).
Proof.
  intros He Hp. cbn [run_resolve]. rewrite He. unfold settle. by rewrite Hp.
Qed.

Lemma final_fail_rejects (e : jsval) (j : PrintJob) :
  promise j = PPending ->
  promise (run_reject final_fail e j) = PRejected (js_or (cmd_err j) e).
Proof. intros Hp. cbn [run_reject]. unfold settle. by rewrite Hp. Qed.

(** ** One turn of [_send] on a failed connection *)

Lemma invoke_frame (c : call) (w : World) :
  ctrl (invoke c w) = ctrl w /\ wire (invoke c w) = wire w /\
  timers (invoke c w) = timers w /\ calls (invoke c w) = calls w ++ [c].
Proof. unfold invoke. cbn [job set_calls]. by destruct (job w), c. Qed.

(** With the error set, or the state not [Connected], [_send] takes
    one entry off the queue and calls its [reject]; nothing is written,
    no timeout is scheduled and [this.timer] keeps its value. *)
Lemma _send_rejects_one (now : Z) (w : World) (c : command)
      (rest : list command) (f : on_reject) :
  queue (ctrl w) = c :: rest -> reject c = Some f ->
  state (ctrl w) <> Connected \/ truthy (error (ctrl w)) = true ->
  exists w',
    _send now w = Ok w' /\
    queue (ctrl w') = rest /\
    calls w' = calls w ++ [Reject f (error (ctrl w'))] /\
    truthy (error (ctrl w')) = true /\
    wire w' = wire w /\ timers w' = timers w /\
    timer (ctrl w') = timer (ctrl w) /\ next (ctrl w') = next (ctrl w).
Proof.
  intros Hq Hf Herr. unfold _send. rewrite Hq. cbn [List.head List.tl].
  set (w1 := with_ctrl (set_queue rest) w).
  set (w2 := if negb (State_eqb (state (ctrl w1)) Connected)
             then with_ctrl (set_error (JStr "disconnected")) w1 else w1).
  assert (Ht : truthy (error (ctrl w2)) = true).
  { unfold w2. destruct (State_eqb (state (ctrl w1)) Connected) eqn:E;
      cbn [negb]; [|reflexivity].
    destruct Herr as [Hs|He]; [|exact He].
    exfalso. apply Hs. change (state (ctrl w1)) with (state (ctrl w)) in E.
    by destruct (state (ctrl w)). }
  assert (Hw2 : queue (ctrl w2) = rest /\ calls w2 = calls w /\
                wire w2 = wire w /\ timers w2 = timers w /\
                timer (ctrl w2) = timer (ctrl w) /\
                next (ctrl w2) = next (ctrl w))
    by (unfold w2; destruct (negb _); repeat split).
  destruct Hw2 as (Q & C & W & T & M & N).
  rewrite Ht, Hf. eexists. split; [reflexivity|].
  destruct (invoke_frame (Reject f (error (ctrl w2))) w2)
    as (-> & -> & -> & ->).
  rewrite C. repeat split; assumption.
Qed.

(** ** A stalled queue *)

Lemma on_close_frame (w : World) :
  queue (ctrl (on_close w)) = queue (ctrl w) /\
  timers (on_close w) = timers w /\ wire (on_close w) = wire w.
Proof.
  unfold on_close.
  set (w1 := with_ctrl (set_status "offline")
               (with_ctrl (set_state Disconnected) w)).
  change (queue (ctrl w)) with (queue (ctrl w1)).
  change (timers w) with (timers w1). change (wire w) with (wire w1).
  change (next (ctrl w1)) with (next (ctrl w)).
  destruct (next (ctrl w)) as [n|]; [|done].
  destruct (reject n) as [f|]; [|done].
  set (c := Reject f _).
  destruct (invoke_frame c w1) as (Hc & Hw & Ht & _).
  cbn [with_ctrl ctrl set_next queue timers wire].
  by rewrite Hc, Hw, Ht.
Qed.

(** Once no [_send] timeout is pending, only a line from the socket can
    start the queue again: timeouts, errors and the close of the socket
    leave the queue, the pending timeouts and the socket's traffic as
    they are. *)
Lemma stalled_forever (evs : list event) (w : World) :
  forallb no_line evs = true -> timers w = 0%nat ->
  exists w', run evs w = Ok w' /\
             queue (ctrl w') = queue (ctrl w) /\
             timers w' = 0%nat /\ wire w' = wire w.
Proof.
  revert w. induction evs as [|ev evs IH]; intros w Hev Ht.
  - exists w. by repeat split.
  - cbn [forallb] in Hev. apply andb_prop in Hev as [Hev Hrest].
    cbn [run].
    assert (Hs : exists w1, step ev w = Ok w1 /\
                            queue (ctrl w1) = queue (ctrl w) /\
                            timers w1 = 0%nat /\ wire w1 = wire w).
    { destruct ev as [now| |line|e|]; try discriminate Hev; cbn [step].
      - rewrite Ht. by exists w.
      - eexists. split; [reflexivity|]. by repeat split.
      - eexists. split; [reflexivity|].
        destruct (on_close_frame w) as (-> & -> & ->). by repeat split. }
    destruct Hs as (w1 & -> & Q & T & W). cbn [bind].
    destruct (IH w1 Hrest T) as (w' & Hr & Q' & T' & W').
    exists w'. rewrite Hr, Q', T', W', Q, W. by repeat split.
Qed.

(** On a failed connection the pending timeout rejects the head of the
    queue, and whatever follows short of a line from the socket, the
    rest of the queue is neither sent nor failed. *)
Lemma queue_left_undrained (now : Z) (evs : list event) (w : World)
      (c : command) (rest : list command) (f : on_reject) :
  queue (ctrl w) = c :: rest -> reject c = Some f ->
  state (ctrl w) <> Connected \/ truthy (error (ctrl w)) = true ->
  timers w = 1%nat -> forallb no_line evs = true ->
  exists w', run (TimerFires now :: evs) w = Ok w' /\
             queue (ctrl w') = rest /\ wire w' = wire w /\
             timers w' = 0%nat.
Proof.
  intros Hq Hf Herr Ht Hev. cbn [run step]. rewrite Ht.
  destruct (_send_rejects_one now (set_timers 0 w) c rest f Hq Hf Herr)
    as (w1 & -> & Q & _ & _ & W & T & _).
  cbn [bind].
  destruct (stalled_forever evs w1 Hev T) as (w' & Hr & Q' & T' & W').
  exists w'. rewrite Hr, Q', W', Q, W. by repeat split.
Qed.

(** * The queue after a failure *)

(** C6 at a failing input: three commands are queued on a connected
    control and the socket closes before the first is sent. The timeout
    fails the first command with ["disconnected"] and writes nothing;
    the other two stay in the queue, no timeout is pending, and
    [this.timer] still holds the spent handle, so that [_sendTimer]
    schedules nothing: the queue is not drained. *)
Theorem queue_stalls_after_rejection :
  let w := sendCommand "M27" (Some (resolve_of 3)) (Some (reject_of 3))
             (sendCommand "M114" (Some (resolve_of 2)) (Some (reject_of 2))
                (sendCommand "M115" (Some (resolve_of 1)) (Some (reject_of 1))
                   connected_world)) in
  exists w',
    run [Close; TimerFires 1000; TimerFires 1001; TimerFires 1002] w = Ok w' /\
    calls w' = [Reject (reject_of 1) (JStr "disconnected")] /\
    List.map cmd (queue (ctrl w'))
    = [Text ("~M114" ++ CRLF); Text ("~M27" ++ CRLF)] /\
    wire w' = wire connected_world /\
    timers w' = 0%nat /\ timer (ctrl w') = true /\ _sendTimer w' = w'.
Proof. intros w. eexists. split; [vm_compute; reflexivity|]. repeat split. Qed.

(** C4 at a failing input: [print] on a connected control, and the
    connection is reset while the first command is in flight. The
    ["close"] handler fails that step, which [cmd_fail] records; the
    eleven later steps stay in the queue, nothing more is written, and
    the promise of [print] stays pending: the final [M27] never runs. *)
Theorem print_stalls_after_failure :
  let w := print crc32 "benchy" [x47] None Undefined Undefined
             connected_world in
  exists w',
    run [TimerFires 1000; SocketError (JError "ECONNRESET"); Close;
         TimerFires 1001; TimerFires 1002] w = Ok w' /\
    calls w' = [Reject cmd_fail (JError "ECONNRESET")] /\
    List.length (queue (ctrl w')) = 11%nat /\
    wire w' = [Text ("~M601 S1" ++ CRLF); Text ("~M115" ++ CRLF)] /\
    option_map cmd_err (job w') = Some (JError "ECONNRESET") /\
    option_map promise (job w') = Some PPending /\
    timers w' = 0%nat /\ timer (ctrl w') = true /\ _sendTimer w' = w'.
Proof. intros w. eexists. split; [vm_compute; reflexivity|]. repeat split. Qed.

(** C8 at a failing input: a name that holds [".gx"] before another
    extension is left as it is, so that the path of [M28] and [M23] does
    not end in [".gx"]. *)
Theorem print_keeps_inner_extension :
  let w := print crc32 "benchy.gx.bak" [x47] None Undefined Undefined
             connected_world in
  List.map cmd (queue (ctrl w)) !! 7%nat
  = Some (Text ("~M28 59  0:/user/benchy.gx.bak" ++ CRLF)) /\
  List.map cmd (queue (ctrl w)) !! 10%nat
  = Some (Text ("~M23  0:/user/benchy.gx.bak" ++ CRLF)) /\
  option_map filename (job w) = Some " 0:/user/benchy.gx.bak"%string /\
  endsWith ".gx" " 0:/user/benchy.gx.bak" = false.
Proof. intros w. repeat split. Qed.

(** * A healthy connection *)

Lemma idle_parts (w : World) :
  idle w = true ->
  state (ctrl w) = Connected /\ truthy (error (ctrl w)) = false /\
  (exists s, socket (ctrl w) = Some s) /\ next (ctrl w) = None /\
  output (ctrl w) = [] /\
  match queue (ctrl w) with
  | [] => timer (ctrl w) = false /\ timers w = 0%nat
  | _ :: _ => timer (ctrl w) = true /\ timers w = 1%nat
  end.
Proof.
  unfold idle. rewrite !andb_true_iff.
  intros (((((Hs & He) & Hk) & Hn) & Ho) & Hq).
  repeat split.
  - by destruct (state (ctrl w)).
  - by apply negb_true_iff.
  - destruct (socket (ctrl w)); [eauto|discriminate].
  - by destruct (next (ctrl w)).
  - by destruct (output (ctrl w)).
  - destruct (queue (ctrl w)); apply andb_prop in Hq as [Ht Hn'];
      (split; [by destruct (timer (ctrl w))|by apply Nat.eqb_eq]).
Qed.

(** The timeout on an idle control sends the head of the queue. *)
Lemma _send_writes (now : Z) (w : World) (c : command) (rest : list command) :
  state (ctrl w) = Connected -> truthy (error (ctrl w)) = false ->
  (exists s, socket (ctrl w) = Some s) -> queue (ctrl w) = c :: rest ->
  exists w',
    _send now w = Ok w' /\
    state (ctrl w') = Connected /\ error (ctrl w') = error (ctrl w) /\
    socket (ctrl w') = socket (ctrl w) /\ next (ctrl w') = Some c /\
    output (ctrl w') = output (ctrl w) /\ queue (ctrl w') = rest /\
    timer (ctrl w') = timer (ctrl w) /\ timers w' = timers w /\
    wire w' = wire w ++ [cmd c] /\ calls w' = calls w /\ job w' = job w.
Proof.
  intros Hs He (s & Hk) Hq. unfold _send. rewrite Hq. cbn [List.head List.tl].
  cbv zeta. cbn [with_ctrl ctrl state set_queue error reject].
  rewrite Hs. cbn [State_eqb negb]. cbn [with_ctrl ctrl state set_queue error].
  rewrite He. cbn [with_ctrl ctrl set_lastSend set_next set_queue socket].
  rewrite Hk.
  eexists. split; [reflexivity|]. by repeat split.
Qed.

Lemma invoke_job (c : call) (w : World) :
  job (invoke c w) = option_map (apply_call c) (job w).
Proof.
  destruct w as [c0 n a t wi ca [j|]]; by destruct c.
Qed.

(** A line without ["ok"] only joins the reply under way. *)
Lemma on_line_data (l : string) (w : World) :
  data_line l = true ->
  output (ctrl (on_line l w)) = output (ctrl w) ++ [l] /\
  state (ctrl (on_line l w)) = state (ctrl w) /\
  error (ctrl (on_line l w)) = error (ctrl w) /\
  socket (ctrl (on_line l w)) = socket (ctrl w) /\
  next (ctrl (on_line l w)) = next (ctrl w) /\
  queue (ctrl (on_line l w)) = queue (ctrl w) /\
  timer (ctrl (on_line l w)) = timer (ctrl w) /\
  timers (on_line l w) = timers w /\ wire (on_line l w) = wire w /\
  calls (on_line l w) = calls w /\ job (on_line l w) = job w.
Proof.
  unfold data_line, on_line. intros H.
  replace (JsString.indexOf "ok" l >=? 0) with false by lia.
  by repeat split.
Qed.

Lemma run_data_lines (ls : list string) (w : World) :
  forallb data_line ls = true ->
  exists w',
    run (List.map Line ls) w = Ok w' /\
    output (ctrl w') = output (ctrl w) ++ ls /\
    state (ctrl w') = state (ctrl w) /\ error (ctrl w') = error (ctrl w) /\
    socket (ctrl w') = socket (ctrl w) /\ next (ctrl w') = next (ctrl w) /\
    queue (ctrl w') = queue (ctrl w) /\ timer (ctrl w') = timer (ctrl w) /\
    timers w' = timers w /\ wire w' = wire w /\
    calls w' = calls w /\ job w' = job w.
Proof.
  revert w. induction ls as [|l ls IH]; intros w Hls.
  - exists w. rewrite app_nil_r. by repeat split.
  - cbn [forallb] in Hls. apply andb_prop in Hls as [Hl Hls].
    cbn [List.map run step bind].
    destruct (on_line_data l w Hl)
      as (O & S & E & K & N & Q & T & M & W & C & J).
    destruct (IH (on_line l w) Hls)
      as (w' & R & O' & S' & E' & K' & N' & Q' & T' & M' & W' & C' & J').
    exists w'. rewrite R, O', S', E', K', N', Q', T', M', W', C', J'.
    rewrite O, S, E, K, N, Q, T, M, W, C, J, <- app_assoc.
    by repeat split.
Qed.

(** A line with ["ok"] on a connected control ends the reply of the
    command in flight: its [resolve] gets the lines, and the next
    timeout is set if the queue holds more. *)
Lemma on_line_terminal (t : string) (w : World) (c : command) (f : on_resolve) :
  data_line t = false -> state (ctrl w) = Connected ->
  next (ctrl w) = Some c -> resolve c = Some f ->
  let lines := output (ctrl w)
               ++ (if JsString.indexOf "ok" t >? 0 then [t] else []) in
  let w' := on_line t w in
  state (ctrl w') = Connected /\ error (ctrl w') = error (ctrl w) /\
  socket (ctrl w') = socket (ctrl w) /\ next (ctrl w') = None /\
  output (ctrl w') = [] /\ queue (ctrl w') = queue (ctrl w) /\
  wire w' = wire w /\ calls w' = calls w ++ [Resolve f lines] /\
  job w' = option_map (run_resolve f lines) (job w) /\
  match queue (ctrl w) with
  | [] => timer (ctrl w') = false /\ timers w' = timers w
  | _ :: _ => timer (ctrl w') = true /\ timers w' = S (timers w)
  end.
Proof.
  unfold data_line. intros Ht Hs Hn Hf. cbv zeta.
  unfold on_line.
  replace (JsString.indexOf "ok" t >=? 0) with true by lia.
  rewrite Hs. cbn [State_eqb].
  set (w1 := if JsString.indexOf "ok" t >? 0
             then with_ctrl (fun c0 => set_output (output c0 ++ [t]) c0) w
             else w).
  assert (H1 : next (ctrl w1) = Some c /\
               output (ctrl w1)
               = output (ctrl w)
                   ++ (if JsString.indexOf "ok" t >? 0 then [t] else []) /\
               queue (ctrl w1) = queue (ctrl w) /\ wire w1 = wire w /\
               calls w1 = calls w /\ job w1 = job w /\
               state (ctrl w1) = Connected /\
               error (ctrl w1) = error (ctrl w) /\
               socket (ctrl w1) = socket (ctrl w) /\ timers w1 = timers w).
  { unfold w1. destruct (JsString.indexOf "ok" t >? 0);
      rewrite ?app_nil_r; by repeat split. }
  destruct H1 as (N1 & O1 & Q1 & W1 & C1 & J1 & S1 & E1 & K1 & M1).
  rewrite N1, Hf, O1.
  set (lines := output (ctrl w) ++ _).
  set (w2 := invoke (Resolve f lines) w1).
  assert (H2 : ctrl w2 = ctrl w1 /\ wire w2 = wire w1 /\
               timers w2 = timers w1 /\
               calls w2 = calls w1 ++ [Resolve f lines] /\
               job w2 = option_map (run_resolve f lines) (job w1)).
  { unfold w2.
    destruct (invoke_frame (Resolve f lines) w1) as (-> & -> & -> & ->).
    by rewrite (invoke_job (Resolve f lines) w1). }
  destruct H2 as (X2 & W2 & M2 & C2 & J2).
  unfold _sendTimer.
  cbn [with_ctrl ctrl timer set_timer set_output set_lastRecv set_next queue].
  rewrite X2, Q1.
  destruct (queue (ctrl w)) as [|c' q'];
    [change (0 <? Z.of_nat (List.length (@nil command))) with false
    |change (0 <? Z.of_nat (List.length (c' :: q'))) with true];
    cbn [with_ctrl ctrl timer set_timer set_output set_lastRecv set_next
           queue state error socket next output wire calls job timers
           set_timers];
    rewrite ?X2, ?W2, ?C2, ?J2, ?M2, ?W1, ?C1, ?J1, ?M1, ?S1, ?E1, ?K1;
    repeat split; assumption.
Qed.

Lemma run_app (evs evs' : list event) (w : World) :
  run (evs ++ evs') w = bind (run evs w) (run evs').
Proof.
  revert w. induction evs as [|ev evs IH]; intros w; [reflexivity|].
  cbn [List.app run]. destruct (step ev w) as [w1|e]; cbn [bind]; [|done].
  apply IH.
Qed.

Lemma idle_intro (w : World) (s : Z) :
  state (ctrl w) = Connected -> truthy (error (ctrl w)) = false ->
  socket (ctrl w) = Some s -> next (ctrl w) = None ->
  output (ctrl w) = [] ->
  match queue (ctrl w) with
  | [] => timer (ctrl w) = false /\ timers w = 0%nat
  | _ :: _ => timer (ctrl w) = true /\ timers w = 1%nat
  end ->
  idle w = true.
Proof.
  intros Hs He Hk Hn Ho Hq. unfold idle. rewrite Hs, He, Hk, Hn, Ho.
  destruct (queue (ctrl w)); destruct Hq as [-> ->]; reflexivity.
Qed.

(** One exchange on an idle control: the head of the queue is written,
    its [resolve] gets the lines of the reply, and the control is idle
    again with the rest of the queue. *)
Lemma exchange_step (r : reply) (w : World) (c : command)
      (rest : list command) (f : on_resolve) :
  idle w = true -> queue (ctrl w) = c :: rest -> resolve c = Some f ->
  reply_ok r = true ->
  exists w',
    run (exchange r) w = Ok w' /\ idle w' = true /\
    queue (ctrl w') = rest /\ wire w' = wire w ++ [cmd c] /\
    calls w' = calls w ++ [Resolve f (delivered r)] /\
    job w' = option_map (run_resolve f (delivered r)) (job w).
Proof.
  intros Hi Hq Hf Hr.
  destruct (idle_parts w Hi) as (Hs & He & (s & Hk) & Hn & Ho & Ht).
  rewrite Hq in Ht. destruct Ht as [Ht Hm].
  unfold reply_ok in Hr. apply andb_prop in Hr as [Hd Hl].
  apply negb_true_iff in Hl.
  unfold exchange. cbn [run step]. rewrite Hm.
  destruct (_send_writes (sent_at r) (set_timers 0 w) c rest Hs He
                         (ex_intro _ s Hk) Hq)
    as (w1 & -> & S1 & E1 & K1 & N1 & O1 & Q1 & T1 & M1 & W1 & C1 & J1).
  cbn [bind]. rewrite run_app.
  destruct (run_data_lines (data r) w1 Hd)
    as (w2 & -> & O2 & S2 & E2 & K2 & N2 & Q2 & T2 & M2 & W2 & C2 & J2).
  cbn [bind run step].
  assert (S2' : state (ctrl w2) = Connected) by congruence.
  assert (N2' : next (ctrl w2) = Some c) by congruence.
  destruct (on_line_terminal (last_line r) w2 c f Hl S2' N2' Hf)
    as (S3 & E3 & K3 & N3 & O3 & Q3 & W3 & C3 & J3 & T3).
  exists (on_line (last_line r) w2). split; [reflexivity|].
  assert (Hdel : output (ctrl w2)
                 ++ (if JsString.indexOf "ok" (last_line r) >? 0
                     then [last_line r] else []) = delivered r).
  { unfold delivered. rewrite O2, O1. cbn [ctrl set_timers output].
    by rewrite Ho. }
  rewrite Hdel in C3, J3.
  split.
  - apply (idle_intro _ s); try assumption.
    + rewrite E3, E2, E1. exact He.
    + rewrite K3, K2, K1. exact Hk.
    + rewrite Q3, Q2, Q1. rewrite Q2, Q1 in T3.
      destruct rest; destruct T3 as [-> ->]; rewrite M2, M1; by split.
  - rewrite Q3, Q2, Q1, W3, W2, W1, C3, C2, C1, J3, J2, J1.
    by repeat split.
Qed.

Lemma option_map_apply_calls (c : call) (cs : list call) (j : option PrintJob) :
  option_map (apply_calls cs) (option_map (apply_call c) j)
  = option_map (apply_calls (c :: cs)) j.
Proof. by destruct j. Qed.

(** The queue is served in order, one command per exchange. *)
Lemma pipeline_run (rs : list reply) (w : World) :
  idle w = true -> forallb has_resolve (queue (ctrl w)) = true ->
  List.length rs = List.length (queue (ctrl w)) ->
  forallb reply_ok rs = true ->
  exists w',
    run (List.concat (List.map exchange rs)) w = Ok w' /\
    idle w' = true /\ queue (ctrl w') = [] /\
    wire w' = wire w ++ List.map cmd (queue (ctrl w)) /\
    calls w' = calls w ++ deliveries (queue (ctrl w)) rs /\
    job w' = option_map (apply_calls (deliveries (queue (ctrl w)) rs)) (job w).
Proof.
  remember (queue (ctrl w)) as q eqn:Hq. symmetry in Hq.
  revert rs w Hq. induction q as [|c q IH]; intros rs w Hq Hi Hres Hlen Hrs.
  - destruct rs; [|discriminate Hlen]. exists w.
    rewrite !app_nil_r. repeat split; try assumption. by destruct (job w).
  - destruct rs as [|r rs]; [discriminate Hlen|].
    cbn [forallb] in Hres, Hrs.
    apply andb_prop in Hres as [Hc Hres]. apply andb_prop in Hrs as [Hr Hrs].
    unfold has_resolve in Hc.
    destruct (resolve c) as [f|] eqn:Hf; [|discriminate].
    destruct (exchange_step r w c q f Hi Hq Hf Hr)
      as (w1 & R1 & I1 & Q1 & W1 & C1 & J1).
    injection Hlen as Hlen.
    destruct (IH rs w1 Q1 I1 Hres Hlen Hrs)
      as (w' & R & I & Q & W & C & J).
    exists w'. cbn [List.map List.concat deliveries]. rewrite Hf.
    rewrite run_app, R1. cbn [bind]. rewrite R, W, C, J, W1, C1, J1.
    rewrite <- !app_assoc.
    change (run_resolve f (delivered r))
      with (apply_call (Resolve f (delivered r))).
    rewrite option_map_apply_calls. by repeat split.
Qed.

(** X1: on a healthy connection the queue is served in order: each
    exchange writes the next queued command, and the lines of its reply
    go to the callback of that command. *)
Theorem pipeline_fifo (rs : list reply) (w : World) :
  idle w = true -> forallb has_resolve (queue (ctrl w)) = true ->
  List.length rs = List.length (queue (ctrl w)) ->
  forallb reply_ok rs = true ->
  exists w',
    run (List.concat (List.map exchange rs)) w = Ok w' /\
    idle w' = true /\ queue (ctrl w') = [] /\
    wire w' = wire w ++ List.map cmd (queue (ctrl w)) /\
    calls w' = calls w ++ deliveries (queue (ctrl w)) rs /\
    job w' = option_map (apply_calls (deliveries (queue (ctrl w)) rs)) (job w).
Proof. apply pipeline_run. Qed.

(** * [print] on a healthy connection *)

Lemma enqueue_idle (entry : command) (w : World) :
  idle w = true ->
  let w' := _sendTimer
              (with_ctrl (fun c => set_queue (queue c ++ [entry]) c) w) in
  idle w' = true /\ queue (ctrl w') = queue (ctrl w) ++ [entry] /\
  wire w' = wire w /\ calls w' = calls w /\ job w' = job w.
Proof.
  intros Hi. cbv zeta.
  destruct (idle_parts w Hi) as (Hs & He & (s & Hk) & Hn & Ho & Ht).
  set (w0 := with_ctrl (fun c => set_queue (queue c ++ [entry]) c) w).
  assert (H0 : state (ctrl w0) = Connected /\
               truthy (error (ctrl w0)) = false /\
               socket (ctrl w0) = Some s /\ next (ctrl w0) = None /\
               output (ctrl w0) = [] /\
               queue (ctrl w0) = queue (ctrl w) ++ [entry] /\
               timer (ctrl w0) = timer (ctrl w) /\ timers w0 = timers w /\
               wire w0 = wire w /\ calls w0 = calls w /\ job w0 = job w)
    by (by repeat split).
  destruct H0 as (S0 & E0 & K0 & N0 & O0 & Q0 & T0 & M0 & W0 & C0 & J0).
  unfold _sendTimer. rewrite T0, Q0.
  assert (Hlen : (0 <? Z.of_nat (List.length (queue (ctrl w) ++ [entry])))
                 = true)
    by (apply Z.ltb_lt; rewrite length_app, Nat.add_1_r; lia).
  rewrite Hlen.
  destruct (queue (ctrl w)) as [|c q] eqn:Hq; destruct Ht as [Ht Hm];
    rewrite Ht.
  - split; [|by repeat split].
    apply (idle_intro _ s); try assumption.
    change (queue (ctrl (set_timers (S (timers w0))
                           (with_ctrl (set_timer true) w0))))
      with (queue (ctrl w0)).
    rewrite Q0. cbn [List.app]. split; [reflexivity|].
    cbn [timers set_timers]. by rewrite M0, Hm.
  - split; [|by repeat split].
    apply (idle_intro _ s); try assumption.
    rewrite Q0. cbn [List.app]. split; congruence.
Qed.

Lemma sendCommand_idle (c : string) (r : option on_resolve)
      (j : option on_reject) (w : World) :
  idle w = true ->
  idle (sendCommand c r j w) = true /\
  wire (sendCommand c r j w) = wire w /\
  calls (sendCommand c r j w) = calls w /\
  job (sendCommand c r j w) = job w.
Proof.
  intros Hi.
  destruct (enqueue_idle (text_entry c r j) w Hi) as (I & _ & W & C & J).
  by repeat split.
Qed.

Lemma sendBuffer_idle (b : list byte) (r : option on_resolve)
      (j : option on_reject) (w : World) :
  idle w = true ->
  idle (sendBuffer b r j w) = true /\
  wire (sendBuffer b r j w) = wire w /\
  calls (sendBuffer b r j w) = calls w /\
  job (sendBuffer b r j w) = job w.
Proof.
  intros Hi.
  destruct (enqueue_idle {| cmd := Binary b; resolve := r; reject := j |} w Hi)
    as (I & _ & W & C & J).
  by repeat split.
Qed.

Lemma send_blocks_idle (crc : list byte -> Z) (buffer : list byte) (w : World) :
  idle w = true ->
  idle (send_blocks crc buffer w) = true /\
  wire (send_blocks crc buffer w) = wire w /\
  calls (send_blocks crc buffer w) = calls w.
Proof.
  unfold send_blocks.
  generalize (seqZ 0 (ceil_div (Buffer.length buffer) 4096)). intros l.
  revert w. induction l as [|s l IH]; intros w Hi; cbn [fold_left].
  - by repeat split.
  - destruct (sendBuffer_idle (block crc buffer s) (Some cmd_ok)
                              (Some cmd_fail) w Hi) as (I & W & C & _).
    destruct (IH _ I) as (I' & W' & C'). rewrite W', C', W, C. by repeat split.
Qed.

Lemma idle_set_job (j : option PrintJob) (w : World) :
  idle (set_job j w) = idle w.
Proof. reflexivity. Qed.

Lemma wire_set_job (j : option PrintJob) (w : World) :
  wire (set_job j w) = wire w.
Proof. reflexivity. Qed.

Lemma calls_set_job (j : option PrintJob) (w : World) :
  calls (set_job j w) = calls w.
Proof. reflexivity. Qed.

Lemma job_set_job (j : option PrintJob) (w : World) :
  job (set_job j w) = j.
Proof. reflexivity. Qed.

Ltac step_idle :=
  match goal with
  | H : idle ?w = true |- context [sendCommand ?c ?r ?j ?w] =>
      let I := fresh "I" in
      let W := fresh "W" in
      let C := fresh "C" in
      destruct (sendCommand_idle c r j w H) as (I & W & C & _);
      rewrite <- ?W, <- ?C in *;
      generalize dependent (sendCommand c r j w); intros
  | H : idle ?w = true |- context [send_blocks ?crc ?b ?w] =>
      let I := fresh "I" in
      let W := fresh "W" in
      let C := fresh "C" in
      destruct (send_blocks_idle crc b w H) as (I & W & C);
      rewrite <- ?W, <- ?C in *;
      generalize dependent (send_blocks crc b w); intros
  end.

Section PrintHealthy.

Variable crc : list byte -> Z.

Lemma print_idle (name : string) (gcode : list byte)
      (bmp : option (list byte)) (t f : jsnum) (w : World)
      (buffer : list byte) :
  idle w = true -> GXWriter gcode bmp t f = Ok buffer ->
  let w' := print crc name gcode bmp t f w in
  idle w' = true /\ wire w' = wire w /\ calls w' = calls w /\
  job w' = Some {| filename := device_path (with_extension name);
                   cmd_out := []; cmd_err := JNull; promise := PPending |}.
Proof.
  intros Hi H. cbv zeta. rewrite (print_ok crc _ _ _ _ _ _ _ H). cbv zeta.
  rewrite idle_set_job, wire_set_job, calls_set_job, job_set_job.
  assert (Hw : wire w = wire w) by reflexivity.
  assert (Hc : calls w = calls w) by reflexivity.
  revert Hw Hc. generalize (wire w) at 1 3. generalize (calls w) at 1 3.
  intros cs ws Hw Hc.
  repeat step_idle.
  by repeat split.
Qed.

Lemma deliveries_app (q q' : list command) (rs rs' : list reply) :
  List.length rs = List.length q ->
  deliveries (q ++ q') (rs ++ rs') = deliveries q rs ++ deliveries q' rs'.
Proof.
  revert rs. induction q as [|c q IH]; intros [|r rs] Hlen;
    try discriminate Hlen; [reflexivity|].
  injection Hlen as Hlen. cbn [List.app deliveries].
  rewrite (IH rs Hlen). by destruct (resolve c).
Qed.

Lemma deliveries_cmd_ok (q : list command) (rs : list reply) :
  forallb (fun c => match resolve c with
                    | Some cmd_ok => true
                    | _ => false
                    end) q = true ->
  List.length rs = List.length q ->
  deliveries q rs = List.map (fun r => Resolve cmd_ok (delivered r)) rs.
Proof.
  revert rs. induction q as [|c q IH]; intros [|r rs] Hq Hlen;
    try discriminate Hlen; [reflexivity|].
  injection Hlen as Hlen. cbn [forallb] in Hq. apply andb_prop in Hq as [Hc Hq].
  cbn [deliveries List.map]. rewrite (IH rs Hq Hlen).
  by destruct (resolve c) as [[]|].
Qed.

Lemma apply_cmd_oks (rs : list reply) (j : PrintJob) :
  apply_calls (List.map (fun r => Resolve cmd_ok (delivered r)) rs) j
  = set_cmd_out (cmd_out j ++ List.concat (List.map delivered rs)) j.
Proof.
  revert j. induction rs as [|r rs IH]; intros j.
  - cbn. rewrite app_nil_r. by destruct j.
  - cbn [List.map List.concat]. unfold apply_calls in *. cbn [fold_left].
    rewrite IH. destruct j as [fn out err p]. unfold set_cmd_out.
    cbn [apply_call run_resolve set_cmd_out filename cmd_out cmd_err promise].
    by rewrite <- app_assoc.
Qed.

Lemma print_entries_steps (path : string) (buffer : list byte) :
  print_entries crc path buffer
  = print_steps crc path buffer
      ++ [text_entry "M27" (Some final_ok) (Some final_fail)].
Proof.
  unfold print_entries, print_steps. rewrite <- !app_assoc. reflexivity.
Qed.

Lemma length_print_steps (path : string) (buffer : list byte) :
  List.length (print_steps crc path buffer)
  = (10 + List.length (blocks crc buffer))%nat.
Proof.
  unfold print_steps. rewrite !length_app, length_map. cbn [List.length]. lia.
Qed.

Lemma print_steps_cmd_ok (path : string) (buffer : list byte) :
  forallb (fun c => match resolve c with
                    | Some cmd_ok => true
                    | _ => false
                    end) (print_steps crc path buffer) = true.
Proof.
  unfold print_steps. rewrite !forallb_app. cbn [forallb ok_fail text_entry
  resolve andb]. rewrite andb_true_r. cbn [andb].
  induction (blocks crc buffer) as [|b bs IH]; [reflexivity|exact IH].
Qed.

Lemma has_resolve_cmd_ok (q : list command) :
  forallb (fun c => match resolve c with
                    | Some cmd_ok => true
                    | _ => false
                    end) q = true ->
  forallb has_resolve q = true.
Proof.
  induction q as [|c q IH]; [done|]. cbn [forallb]. intros H.
  apply andb_prop in H as [Hc Hq]. rewrite (IH Hq), andb_true_r.
  unfold has_resolve. by destruct (resolve c).
Qed.

(** X2: [print] on a healthy connection, with every command
    acknowledged: the commands reach the socket in the order of the
    protocol, and the promise resolves with the path on the device and
    the reply lines of every step but the final [M27]. *)
Theorem print_completes (name : string) (gcode : list byte)
      (bmp : option (list byte)) (t f : jsnum) (w : World)
      (buffer : list byte) (rs : list reply) (r : reply) :
  idle w = true -> queue (ctrl w) = [] ->
  GXWriter gcode bmp t f = Ok buffer ->
  List.length rs = (10 + List.length (blocks crc buffer))%nat ->
  forallb reply_ok rs = true -> reply_ok r = true ->
  let path := device_path (with_extension name) in
  exists w',
    run (List.concat (List.map exchange (rs ++ [r])))
        (print crc name gcode bmp t f w) = Ok w' /\
    idle w' = true /\ queue (ctrl w') = [] /\
    wire w' = wire w ++ List.map cmd (print_entries crc path buffer) /\
    option_map promise (job w')
    = Some (PResolved path (List.concat (List.map delivered rs))).
Proof.
  intros Hi Hq H Hlen Hrs Hr path.
  destruct (print_idle name gcode bmp t f w buffer Hi H) as (I0 & W0 & C0 & J0).
  pose proof (print_queue crc name gcode bmp t f w buffer H) as Q0.
  rewrite Hq in Q0. cbn [List.app] in Q0. fold path in Q0, J0.
  set (w0 := print crc name gcode bmp t f w) in *.
  assert (Hlen' : List.length rs = List.length (print_steps crc path buffer))
    by (by rewrite length_print_steps).
  destruct (pipeline_run (rs ++ [r]) w0 I0) as (w' & R & I & Q & W & _ & J).
  - rewrite Q0, print_entries_steps, forallb_app.
    rewrite (has_resolve_cmd_ok _ (print_steps_cmd_ok path buffer)).
    reflexivity.
  - rewrite Q0, print_entries_steps, !length_app. cbn [List.length]. lia.
  - rewrite forallb_app, Hrs. cbn [forallb]. by rewrite Hr.
  - exists w'. rewrite R, W, W0, Q0. repeat split; try assumption.
    rewrite J, J0, Q0, print_entries_steps.
    rewrite (deliveries_app _ _ _ _ Hlen').
    rewrite (deliveries_cmd_ok _ _ (print_steps_cmd_ok path buffer) Hlen').
    cbn [option_map deliveries text_entry resolve].
    unfold apply_calls. rewrite fold_left_app. cbn [fold_left].
    fold (apply_calls (List.map (fun r0 => Resolve cmd_ok (delivered r0)) rs)).
    rewrite apply_cmd_oks. reflexivity.
Qed.

End PrintHealthy.

(** * The handshake *)

Lemma on_line_handshake (t : string) (w : World) :
  data_line t = false -> state (ctrl w) = Connecting ->
  next (ctrl w) = None -> queue (ctrl w) = [] ->
  let w' := on_line t w in
  state (ctrl w') = Connected /\ error (ctrl w') = error (ctrl w) /\
  socket (ctrl w') = socket (ctrl w) /\ next (ctrl w') = None /\
  output (ctrl w') = [] /\ queue (ctrl w') = [] /\
  timer (ctrl w') = false /\ timers w' = timers w /\
  wire w' = wire w /\ calls w' = calls w /\ job w' = job w /\
  attempt w' = option_map (settle_connect CResolved) (attempt w).
Proof.
  unfold data_line. intros Ht Hs Hn Hq. cbv zeta. unfold on_line.
  replace (JsString.indexOf "ok" t >=? 0) with true by lia.
  rewrite Hs. cbn [State_eqb].
  cbn [with_ctrl ctrl set_state set_attempt next]. rewrite Hn.
  unfold _sendTimer.
  cbn [with_ctrl ctrl timer set_timer set_output set_lastRecv queue
       set_attempt set_state].
  rewrite Hq. by repeat split.
Qed.

Lemma data_lines_attempt (ls : list string) (w w' : World) :
  forallb data_line ls = true -> run (List.map Line ls) w = Ok w' ->
  attempt w' = attempt w.
Proof.
  revert w. induction ls as [|l ls IH]; intros w Hls R.
  - cbn in R. congruence.
  - cbn [forallb] in Hls. apply andb_prop in Hls as [Hl Hls].
    cbn [List.map run step bind] in R. rewrite (IH _ Hls R).
    unfold on_line. unfold data_line in Hl.
    by replace (JsString.indexOf "ok" l >=? 0) with false by lia.
Qed.

(** X3: a connection attempt on an instance that is disconnected and
    free of errors: after the socket connects, whatever the device says
    before its first line with ["ok"] is dropped, and that line makes
    the instance connected and resolves the promise; the only thing
    written is [~M601 S1]. *)
Theorem handshake (host : string) (port : Z) (banner : list string)
        (t : string) (w : World) :
  state (ctrl w) = Disconnected -> truthy (error (ctrl w)) = false ->
  timers w = 0%nat ->
  forallb data_line banner = true -> data_line t = false ->
  exists w',
    run (SocketConnect :: List.map Line banner ++ [Line t])
        (fst (_connect host port w)) = Ok w' /\
    snd (_connect host port w) = CPending /\
    idle w' = true /\ queue (ctrl w') = [] /\
    option_map connecting (attempt w') = Some CResolved /\
    wire w' = wire w ++ [Text ("~M601 S1" ++ CRLF)] /\
    calls w' = calls w /\ job w' = job w.
Proof.
  intros Hs He Hm Hb Ht. unfold _connect. rewrite Hs. cbn [fst snd].
  cbn [run step bind]. unfold on_connect at 1. cbn [attempt set_attempt].
  cbv zeta.
  set (w1 := set_wire _ _).
  rewrite run_app.
  destruct (run_data_lines banner w1 Hb)
    as (w2 & R2 & O2 & S2 & E2 & K2 & N2 & Q2 & T2 & M2 & W2 & C2 & J2).
  pose proof (data_lines_attempt banner w1 w2 Hb R2) as A2.
  rewrite R2. cbn [bind run step].
  destruct (on_line_handshake t w2 Ht) as
    (S3 & E3 & K3 & N3 & O3 & Q3 & T3 & M3 & W3 & C3 & J3 & A3);
    [by rewrite S2|by rewrite N2|by rewrite Q2|].
  eexists. split; [reflexivity|]. split; [reflexivity|].
  split.
  - apply (idle_intro _ (nextSID w)); try assumption.
    + by rewrite E3, E2.
    + by rewrite K3, K2.
    + rewrite Q3. split; [assumption|]. by rewrite M3, M2.
  - rewrite Q3, W3, W2, C3, C2, J3, J2, A3, A2. repeat split.
Qed.

(** * Errors *)

Lemma error_sendTimer (w : World) :
  error (ctrl (_sendTimer w)) = error (ctrl w).
Proof. unfold _sendTimer. repeat case_match; reflexivity. Qed.

Lemma error_sendCommand c r j (w : World) :
  error (ctrl (sendCommand c r j w)) = error (ctrl w).
Proof. unfold sendCommand. by rewrite error_sendTimer. Qed.

Lemma error_sendBuffer b r j (w : World) :
  error (ctrl (sendBuffer b r j w)) = error (ctrl w).
Proof. unfold sendBuffer. by rewrite error_sendTimer. Qed.

Lemma error_send_blocks (crc : list byte -> Z) (buffer : list byte)
      (w : World) :
  error (ctrl (send_blocks crc buffer w)) = error (ctrl w).
Proof.
  unfold send_blocks.
  generalize (seqZ 0 (ceil_div (Buffer.length buffer) 4096)). intros l.
  revert w. induction l as [|s l IH]; intros w; cbn [fold_left]; [done|].
  by rewrite IH, error_sendBuffer.
Qed.

Lemma error_print (crc : list byte -> Z) (name : string) (gcode : list byte)
      (bmp : option (list byte)) (t f : jsnum) (w : World) :
  error (ctrl (print crc name gcode bmp t f w)) = error (ctrl w).
Proof.
  destruct (GXWriter gcode bmp t f) as [buffer|e] eqn:H.
  - rewrite (print_ok crc _ _ _ _ _ _ _ H). cbv zeta. rewrite ctrl_set_job.
    by rewrite !error_sendCommand, error_send_blocks, !error_sendCommand.
  - unfold print. by rewrite H.
Qed.

Lemma error_invoke (c : call) (w : World) :
  error (ctrl (invoke c w)) = error (ctrl w).
Proof. by destruct (invoke_frame c w) as (-> & _). Qed.

Lemma error_send (id : nat) (c : payload) (w : World) :
  error (ctrl (send id c w)) = error (ctrl w).
Proof.
  unfold send. repeat case_match;
    by rewrite ?error_invoke, ?error_sendCommand, ?error_sendBuffer.
Qed.

Lemma error_connect (host : string) (port : Z) (w : World) :
  error (ctrl (fst (_connect host port w))) = error (ctrl w).
Proof. unfold _connect. by destruct (state (ctrl w)). Qed.

Lemma error_on_line (l : string) (w : World) :
  error (ctrl (on_line l w)) = error (ctrl w).
Proof.
  unfold on_line. destruct (JsString.indexOf "ok" l >=? 0); [|reflexivity].
  cbv zeta. rewrite error_sendTimer.
  cbn [with_ctrl ctrl set_timer set_output set_lastRecv error].
  set (w1 := if State_eqb (state (ctrl w)) Connecting then _ else _).
  assert (H1 : error (ctrl w1) = error (ctrl w))
    by (unfold w1; repeat case_match; reflexivity).
  destruct (next (ctrl w1)) as [n|]; [|exact H1].
  destruct (resolve n) as [f|]; [|exact H1].
  cbn [with_ctrl ctrl set_next error]. by rewrite error_invoke.
Qed.

Lemma error_on_close (w : World) :
  error (ctrl (on_close w)) = error (ctrl w).
Proof.
  unfold on_close. cbv zeta.
  cbn [with_ctrl ctrl set_status set_state next attempt].
  destruct (next (ctrl w)) as [n|]; [|reflexivity].
  destruct (reject n) as [f|]; [|reflexivity].
  cbn [with_ctrl ctrl set_next error]. by rewrite error_invoke.
Qed.

(** [_send] leaves [this.error] as it is or sets it to
    ["disconnected"]. *)
Lemma error_send_timeout (now : Z) (w w' : World) :
  _send now w = Ok w' ->
  error (ctrl w') = error (ctrl w) \/ error (ctrl w') = JStr "disconnected".
Proof.
  unfold _send. cbv zeta.
  set (w1 := if negb (State_eqb (state (ctrl _)) Connected) then _ else _).
  assert (H1 : error (ctrl w1) = error (ctrl w) \/
               error (ctrl w1) = JStr "disconnected")
    by (unfold w1; case_match; [right|left]; reflexivity).
  destruct (List.head (queue (ctrl w))) as [n|]; [|congruence].
  destruct (truthy (error (ctrl w1))) eqn:Ht, (reject n) as [f|] eqn:Hf.
  - intros [= <-]. by rewrite error_invoke.
  - cbn [with_ctrl ctrl set_next set_lastSend socket].
    destruct (socket (ctrl w1)); [|discriminate]. by intros [= <-].
  - cbn [with_ctrl ctrl set_next set_lastSend socket].
    destruct (socket (ctrl w1)); [|discriminate]. by intros [= <-].
  - cbn [with_ctrl ctrl set_next set_lastSend socket].
    destruct (socket (ctrl w1)); [|discriminate]. by intros [= <-].
Qed.

Lemma error_step (ev : event) (w w' : World) :
  step ev w = Ok w' ->
  error (ctrl w') = error (ctrl w) \/ error (ctrl w') = JStr "disconnected".
Proof.
  destruct ev as [now| |l|e|]; cbn [step].
  - destruct (timers w) as [|n]; [intros [= <-]; by left|].
    intros H. apply error_send_timeout in H. exact H.
  - intros [= <-]. left. unfold on_connect. by destruct (attempt w).
  - intros [= <-]. left. apply error_on_line.
  - intros [= <-]. by left.
  - intros [= <-]. left. apply error_on_close.
Qed.

Section Sticky.

Variable crc : list byte -> Z.

Lemma error_perform (a : action) (w w' : World) :
  perform crc a w = Ok w' ->
  error (ctrl w') = error (ctrl w) \/ error (ctrl w') = JStr "disconnected".
Proof.
  destruct a as [ev|id c|name gcode bmp t f|host port]; cbn [perform].
  - apply error_step.
  - intros [= <-]. left. apply error_send.
  - intros [= <-]. left. apply error_print.
  - intros [= <-]. left. apply error_connect.
Qed.

(** X4: nothing clears [this.error]. Once it is set, whatever the
    program calls and whatever the sockets do, a reconnection that
    succeeds included, it holds its value or ["disconnected"], and
    every [send] is rejected with it on the spot: nothing is queued, no
    timeout is set and nothing is written. *)
Theorem error_is_sticky (acts : list action) (w w' : World) :
  truthy (error (ctrl w)) = true -> perform_all crc acts w = Ok w' ->
  (error (ctrl w') = error (ctrl w) \/
   error (ctrl w') = JStr "disconnected") /\
  forall id c,
    calls (send id c w') = calls w' ++ [Reject (reject_of id) (error (ctrl w'))]
    /\ ctrl (send id c w') = ctrl w' /\ timers (send id c w') = timers w'
    /\ wire (send id c w') = wire w'.
Proof.
  intros He Hrun.
  assert (Hinv : error (ctrl w') = error (ctrl w) \/
                 error (ctrl w') = JStr "disconnected").
  { revert w He Hrun. induction acts as [|a acts IH]; intros w He Hrun.
    - cbn in Hrun. injection Hrun as <-. by left.
    - cbn [perform_all] in Hrun.
      destruct (perform crc a w) as [w1|e] eqn:Ha; cbn [bind] in Hrun;
        [|discriminate].
      destruct (error_perform a w w1 Ha) as [E1|E1].
      + rewrite <- E1. apply IH; [by rewrite E1|exact Hrun].
      + destruct (IH w1) as [E|E]; [by rewrite E1|exact Hrun| |];
          right; congruence. }
  split; [exact Hinv|].
  intros id c. unfold send.
  assert (Ht : truthy (error (ctrl w')) = true)
    by (destruct Hinv as [-> | ->]; [exact He|reflexivity]).
  rewrite Ht.
  destruct (invoke_frame (Reject (reject_of id) (error (ctrl w'))) w')
    as (-> & -> & -> & ->).
  by repeat split.
Qed.

End Sticky.

(** * [send] and [print] at the edges *)

Lemma send_idle (id : nat) (c : payload) (w : World) :
  idle w = true ->
  idle (send id c w) = true /\
  queue (ctrl (send id c w))
  = queue (ctrl w)
      ++ [{| cmd := match c with
                    | Text s => Text ("~" ++ s ++ CRLF)
                    | Binary b => Binary b
                    end;
             resolve := Some (resolve_of id);
             reject := Some (reject_of id) |}] /\
  wire (send id c w) = wire w /\ calls (send id c w) = calls w /\
  job (send id c w) = job w.
Proof.
  intros Hi.
  destruct (idle_parts w Hi) as (Hs & He & _).
  unfold send. rewrite He, Hs. cbn [State_eqb negb].
  destruct c as [s|b].
  - destruct (sendCommand_idle s (Some (resolve_of id)) (Some (reject_of id))
                               w Hi) as (I & W & C & J).
    rewrite queue_sendCommand. by repeat split.
  - destruct (sendBuffer_idle b (Some (resolve_of id)) (Some (reject_of id))
                              w Hi) as (I & W & C & J).
    rewrite queue_sendBuffer. by repeat split.
Qed.

(** X5: [send] on a healthy connection with nothing queued: the command
    goes out as [~cmd] and a line end, a buffer as it is, and the
    promise is resolved with the lines of the reply. *)
Theorem send_round_trip (id : nat) (c : payload) (r : reply) (w : World) :
  idle w = true -> queue (ctrl w) = [] -> reply_ok r = true ->
  exists w',
    run (exchange r) (send id c w) = Ok w' /\
    idle w' = true /\ queue (ctrl w') = [] /\
    wire w' = wire w ++ [match c with
                         | Text s => Text ("~" ++ s ++ CRLF)
                         | Binary b => Binary b
                         end] /\
    calls w' = calls w ++ [Resolve (resolve_of id) (delivered r)] /\
    job w' = job w.
Proof.
  intros Hi Hq Hr.
  destruct (send_idle id c w Hi) as (I & Q & W & C & J).
  rewrite Hq in Q. cbn [List.app] in Q.
  destruct (exchange_step r (send id c w) _ [] (resolve_of id) I Q eq_refl Hr)
    as (w' & R & I' & Q' & W' & C' & J').
  exists w'. rewrite R, W', C', J', W, C, J. repeat split; try assumption.
  by destruct (job w).
Qed.

Section PrintEdges.

Variable crc : list byte -> Z.

(** X6: a file that [GXWriter] cannot encode: the promise of [print] is
    rejected with the range error, and no command is queued, no timeout
    is set and nothing is written. *)
Theorem print_rejects_unencodable (name : string) (gcode : list byte)
        (bmp : option (list byte)) (t f : jsnum) (w : World) :
  ~ (fits_u32 (58 + Buffer.length (bmp_or_empty bmp)) /\
     fits_u32 (or_default t 100) /\ fits_u32 (or_default f 100)) ->
  let w' := print crc name gcode bmp t f w in
  option_map promise (job w') = Some (PRejected (JExn RangeError)) /\
  ctrl w' = ctrl w /\ timers w' = timers w /\ wire w' = wire w /\
  calls w' = calls w.
Proof.
  intros H. cbv zeta. unfold print.
  rewrite (GXWriter_unfit gcode bmp t f H). by repeat split.
Qed.

End PrintEdges.

(** X7: a [_send] timeout that was pending when [_connect] started
    still fires: it finds the state [Connecting] and sets [this.error]
    to ["disconnected"]. The handshake then succeeds, and the promise of
    [_connect] is resolved, on an instance whose [send] rejects. *)
Theorem stale_timeout_poisons (host : string) (port now : Z)
        (banner : list string) (t : string) (w : World) (n : nat) :
  state (ctrl w) = Disconnected -> timers w = S n ->
  forallb data_line banner = true -> data_line t = false ->
  exists w',
    run (TimerFires now :: SocketConnect :: List.map Line banner ++ [Line t])
        (fst (_connect host port w)) = Ok w' /\
    state (ctrl w') = Connected /\
    option_map connecting (attempt w') = Some CResolved /\
    error (ctrl w') = JStr "disconnected" /\
    forall id c,
      calls (send id c w')
      = calls w' ++ [Reject (reject_of id) (JStr "disconnected")] /\
      queue (ctrl (send id c w')) = [] /\ wire (send id c w') = wire w'.
Proof.
  intros Hs Hm Hb Ht. unfold _connect. rewrite Hs. cbn [fst].
  cbn [run step]. cbn [timers set_attempt with_ctrl set_nextSID].
  rewrite Hm. unfold _send. cbv zeta.
  cbn [with_ctrl ctrl set_queue set_attempt set_timers set_state set_socket
       set_nextSID init queue state List.head List.tl State_eqb negb].
  cbn [bind run step]. unfold on_connect at 1.
  cbn [attempt set_attempt with_ctrl set_timers]. cbv zeta.
  set (w1 := set_wire _ _).
  rewrite run_app.
  destruct (run_data_lines banner w1 Hb)
    as (w2 & R2 & O2 & S2 & E2 & K2 & N2 & Q2 & T2 & M2 & W2 & C2 & J2).
  pose proof (data_lines_attempt banner w1 w2 Hb R2) as A2.
  rewrite R2. cbn [bind run step].
  destruct (on_line_handshake t w2 Ht) as
    (S3 & E3 & K3 & N3 & O3 & Q3 & T3 & M3 & W3 & C3 & J3 & A3);
    [by rewrite S2|by rewrite N2|by rewrite Q2|].
  eexists. split; [reflexivity|].
  assert (E : error (ctrl (on_line t w2)) = JStr "disconnected")
    by (by rewrite E3, E2).
  split; [exact S3|]. split; [by rewrite A3, A2|]. split; [exact E|].
  intros id c. unfold send. rewrite E. cbn [truthy String.eqb negb].
  destruct (invoke_frame (Reject (reject_of id) (JStr "disconnected"))
                         (on_line t w2)) as (-> & -> & _ & ->).
  by rewrite Q3.
Qed.

(** * Lost connections *)


(** X9: when the connection of an idle instance closes, no callback
    runs and the resolved promise of [_connect] stays as it is: the
    program is not told. The instance is disconnected, and a [send]
    after that is rejected with ["not connected"] without queueing
    anything. *)
Theorem send_after_close (id : nat) (c : payload) (w : World) :
  idle w = true -> queue (ctrl w) = [] ->
  option_map connecting (attempt w) = Some CResolved ->
  exists w',
    run [Close] w = Ok w' /\
    state (ctrl w') = Disconnected /\ calls w' = calls w /\
    option_map connecting (attempt w') = Some CResolved /\
    calls (send id c w')
    = calls w ++ [Reject (reject_of id) (JStr "not connected")] /\
    queue (ctrl (send id c w')) = [] /\ timers (send id c w') = 0%nat /\
    wire (send id c w') = wire w.
Proof.
  intros Hi Hq Ha.
  destruct (idle_parts w Hi) as (Hs & He & (s & Hk) & Hn & Ho & Ht).
  rewrite Hq in Ht. destruct Ht as [Ht Hm].
  eexists. split; [reflexivity|].
  unfold on_close. cbv zeta.
  cbn [with_ctrl ctrl set_status set_state next attempt]. rewrite Hn.
  unfold send.
  cbn [ctrl set_attempt with_ctrl set_status set_state error state calls
       State_eqb negb].
  rewrite He.
  set (w1 := set_attempt _ _).
  destruct (invoke_frame (Reject (reject_of id) (JStr "not connected")) w1)
    as (-> & -> & -> & ->).
  cbn [w1 ctrl set_attempt with_ctrl set_status set_state queue timers wire
       calls attempt].
  rewrite Hq, Hm. repeat split.
  destruct (attempt w) as [a|]; [|discriminate Ha].
  cbn [option_map] in Ha |- *. injection Ha as Ha.
  unfold settle_connect. rewrite Ha. by rewrite Ha.
Qed.

(** * [connect] *)

Lemma attempt_loop_rejected (retries retry : Z) (es : list jsval) (e : jsval)
      (rest : list connect_promise) :
  retry + Z.of_nat (List.length es) + 1 = Z.max (retry + 1) retries ->
  attempt_loop retries retry (List.map CRejected es ++ CRejected e :: rest)
  = (CRejected e, S (List.length es)).
Proof.
  revert retry. induction es as [|e0 es IH]; intros retry H.
  - cbn [List.map List.app attempt_loop List.length] in *.
    replace (retry + 1 >=? retries) with true by lia. reflexivity.
  - cbn [List.map List.app attempt_loop List.length] in *.
    replace (retry + 1 >=? retries) with false by lia.
    rewrite IH by lia. reflexivity.
Qed.

Lemma attempt_loop_resolved (retries retry : Z) (es : list jsval)
      (rest : list connect_promise) :
  retry + Z.of_nat (List.length es) < Z.max (retry + 1) retries ->
  attempt_loop retries retry (List.map CRejected es ++ CResolved :: rest)
  = (CResolved, S (List.length es)).
Proof.
  revert retry. induction es as [|e0 es IH]; intros retry H.
  - reflexivity.
  - cbn [List.map List.app attempt_loop List.length] in *.
    replace (retry + 1 >=? retries) with false by lia.
    rewrite IH by lia. reflexivity.
Qed.

(** X10: [retryMax] counts the calls of [_connect], not the calls after
    the first: with [n = max 1 (retryMax || 5)], [connect] resolves at
    the first call that succeeds among the first [n], and rejects with
    the error of the [n]-th when they all fail; it never makes another
    call. Zero, [NaN] and no argument mean five; one and every negative
    number mean a single call. *)
Theorem connect_attempts (retryMax : jsnum) (es : list jsval)
        (rest : list connect_promise) :
  let n := Z.max 1 (or_default retryMax 5) in
  (Z.of_nat (List.length es) < n ->
   connect retryMax (List.map CRejected es ++ CResolved :: rest)
   = (CResolved, S (List.length es))) /\
  (forall e, Z.of_nat (List.length es) + 1 = n ->
   connect retryMax (List.map CRejected es ++ CRejected e :: rest)
   = (CRejected e, Z.to_nat n)).
Proof.
  cbv zeta. unfold connect. split.
  - intros H. apply attempt_loop_resolved. lia.
  - intros e H. rewrite attempt_loop_rejected by lia. f_equal. lia.
Qed.

(** * More on the container and the blocks *)

(** X11: [GXWriter] builds a file exactly when the gcode offset and the
    two estimates, each after its default of 100, fit an unsigned
    32-bit field; the file is then the 58-byte header, the thumbnail
    and the toolpath. In every other case it throws a range error. *)
Theorem GXWriter_fails_exactly (gcode : list byte) (bmp : option (list byte))
        (t l : jsnum) :
  let fits := fits_u32 (58 + Buffer.length (bmp_or_empty bmp)) /\
              fits_u32 (or_default t 100) /\ fits_u32 (or_default l 100) in
  (fits ->
   exists header,
     GXWriter gcode bmp t l = Ok (header ++ bmp_or_empty bmp ++ gcode) /\
     List.length header = 58%nat) /\
  (~ fits -> GXWriter gcode bmp t l = Throw RangeError) /\
  (forall out, GXWriter gcode bmp t l = Ok out -> fits).
Proof.
  cbv zeta. split; [|split].
  - intros (Hn & Ht & Hl). eexists. split; [by apply GXWriter_ok|].
    apply length_encoded_header.
  - apply GXWriter_unfit.
  - intros out H. by apply GXWriter_inv in H.
Qed.

Lemma uint32b_mod (v : Z) : uint32b v = be_u32 (v mod 2 ^ 32).
Proof.
  rewrite uint32b_big_endian. unfold be_u32.
  assert (D : forall k, 0 <= k <= 24 ->
                (v / 2 ^ k) mod 256 = (v mod 2 ^ 32 / 2 ^ k) mod 256).
  { intros k Hk.
    rewrite (Z.div_mod v (2 ^ 32)) at 1 by lia.
    replace (2 ^ 32 * (v / 2 ^ 32) + v mod 2 ^ 32)
      with (v mod 2 ^ 32 + (v / 2 ^ 32) * 2 ^ (32 - k) * 2 ^ k).
    2:{ rewrite <- Z.mul_assoc, <- Z.pow_add_r by lia.
        replace (32 - k + k) with 32 by lia. lia. }
    rewrite Z.div_add by (apply Z.pow_nonzero; lia).
    replace (2 ^ (32 - k)) with (2 ^ (24 - k) * 256).
    2:{ change 256 with (2 ^ 8). rewrite <- Z.pow_add_r by lia.
        f_equal. lia. }
    rewrite Z.mul_assoc, Z.mod_add by lia. reflexivity. }
  pose proof (D 24 ltac:(lia)) as D24. pose proof (D 16 ltac:(lia)) as D16.
  pose proof (D 8 ltac:(lia)) as D8. pose proof (D 0 ltac:(lia)) as D0.
  rewrite Z.pow_0_r, !Z.div_1_r in D0.
  by rewrite (byte_of_Z_congr _ _ D24), (byte_of_Z_congr _ _ D16),
    (byte_of_Z_congr _ _ D8), (byte_of_Z_congr _ _ D0).
Qed.

Lemma be_value_be_u32_mod (v : Z) : be_value (be_u32 v) = v mod 2 ^ 32.
Proof.
  rewrite <- uint32b_big_endian, uint32b_mod.
  apply be_value_be_u32, Z.mod_pos_bound. lia.
Qed.

(** X12: [uint32b] never fails: for every integer it gives the four
    big-endian bytes of the value modulo 2^32, so a value outside
    32 bits is stored wrapped, where [writeUInt32LE] throws. *)
Theorem uint32b_wraps (v : Z) :
  List.length (uint32b v) = 4%nat /\
  be_value (uint32b v) = v mod 2 ^ 32 /\
  uint32b v = uint32b (v mod 2 ^ 32).
Proof.
  split; [reflexivity|]. split.
  - rewrite uint32b_big_endian. apply be_value_be_u32_mod.
  - rewrite !uint32b_mod. by rewrite Z.mod_mod by lia.
Qed.

Section Reassembly.

Variable crc : list byte -> Z.

Lemma length_be_u32 (v : Z) : List.length (be_u32 v) = 4%nat.
Proof. reflexivity. Qed.

Lemma unblock_block (buffer : list byte) (i : Z) :
  0 <= i ->
  unblock (block crc buffer i)
  = Buffer.slice (i * 4096) (i * 4096 + 4096) buffer.
Proof.
  intros Hi. unfold unblock. rewrite recorded_length_block by exact Hi.
  rewrite <- chunk_length by exact Hi.
  rewrite block_layout by exact Hi.
  set (chunk := Buffer.slice _ _ _).
  rewrite !(app_assoc _ _ (chunk ++ _)).
  rewrite drop_app_length' by reflexivity.
  unfold Buffer.length. rewrite Nat2Z.id. apply take_app_length.
Qed.

Lemma chunks_concat (buffer : list byte) (n : nat) :
  List.concat
    (List.map (fun i => Buffer.slice (i * 4096) (i * 4096 + 4096) buffer)
              (seqZ 0 (Z.of_nat n)))
  = take (4096 * n) buffer.
Proof.
  induction n as [|n IH]; [reflexivity|].
  rewrite seqZ_S, map_app, concat_app, IH.
  cbn [List.map List.concat]. rewrite app_nil_r, Z.add_0_l.
  rewrite slice_take_drop by lia.
  replace (Z.to_nat (Z.of_nat n * 4096 + 4096 - Z.of_nat n * 4096))
    with 4096%nat by lia.
  replace (Z.to_nat (Z.of_nat n * 4096)) with (4096 * n)%nat by lia.
  replace (4096 * S n)%nat with (4096 * n + 4096)%nat by lia.
  by rewrite take_take_drop.
Qed.

(** X13: the blocks of a file carry the file: cut each to the length
    it records and put them end to end, and the file is back. Block
    [i] records the index [i] and the checksum of its cut-out part,
    both modulo 2^32. *)
Theorem blocks_reassemble (buffer : list byte) :
  List.concat (List.map unblock (blocks crc buffer)) = buffer /\
  forall i blk, blocks crc buffer !! i = Some blk ->
    List.length blk = 4112%nat /\
    recorded_index blk = Z.of_nat i mod 2 ^ 32 /\
    recorded_crc blk = crc (unblock blk) mod 2 ^ 32.
Proof.
  set (L := Buffer.length buffer). set (n := ceil_div L 4096).
  assert (HL : 0 <= L) by (unfold L, Buffer.length; lia).
  pose proof (ceil_div_4096 L HL) as Hn. fold n in Hn.
  split.
  - unfold blocks. fold L. fold n. rewrite map_map.
    rewrite (map_ext_in _ (fun i => Buffer.slice (i * 4096) (i * 4096 + 4096)
                                                 buffer)).
    2:{ intros i Hi. apply unblock_block.
        apply list_elem_of_In, elem_of_seqZ in Hi. lia. }
    rewrite <- (Z2Nat.id n) by lia. rewrite chunks_concat.
    apply take_ge. unfold L, Buffer.length in Hn. lia.
  - intros i blk Hblk. unfold blocks in Hblk. fold L in Hblk. fold n in Hblk.
    rewrite list_lookup_fmap in Hblk.
    destruct (seqZ 0 n !! i) as [z|] eqn:Hz; [|discriminate].
    apply lookup_seqZ in Hz as [-> Hi]. injection Hblk as <-.
    rewrite Z.add_0_l.
    assert (H0 : 0 <= Z.of_nat i) by lia.
    rewrite (unblock_block buffer _ H0).
    rewrite (block_layout crc buffer _ H0). cbv zeta.
    set (chunk := Buffer.slice _ _ _).
    assert (Hc : Buffer.length chunk
                 = Z.max 0 (Z.min 4096 (L - Z.of_nat i * 4096)))
      by (apply chunk_length; lia).
    repeat split.
    + rewrite !length_app, !length_be_u32, length_replicate.
      unfold Buffer.length in Hc |- *. cbn [List.length]. lia.
    + unfold recorded_index. rewrite drop_app_length' by reflexivity.
      rewrite take_app_length' by reflexivity.
      apply be_value_be_u32_mod.
    + unfold recorded_crc.
      rewrite (app_assoc _ (be_u32 _)), (app_assoc _ (be_u32 _)).
      rewrite drop_app_length' by reflexivity.
      rewrite take_app_length' by reflexivity.
      apply be_value_be_u32_mod.
Qed.

End Reassembly.

(** * More on the telemetry parser *)

Section ParserEdges.

Variable number : Type.
Variable parseFloat : option string -> number.

Lemma fold_js_set_lookup (k : string) (kvs : list (string * string))
      (m : gmap string (parsed number)) :
  k <> "__proto__"%string ->
  fold_left (fun m kv =>
               js_set (fst kv) (parseMapValue number parseFloat (snd kv)) m)
            kvs m !! k
  = match last_value k kvs with
    | Some v => Some (parseMapValue number parseFloat v)
    | None => m !! k
    end.
Proof.
  intros Hk. revert m. induction kvs as [|kv kvs IH]; intros m; [reflexivity|].
  cbn [fold_left last_value]. rewrite IH.
  destruct (last_value k kvs) as [v|]; [reflexivity|].
  unfold js_set.
  destruct (String.eqb_spec (fst kv) k) as [->|Hne].
  - rewrite decide_False by exact Hk. by rewrite lookup_insert_eq.
  - case_decide; [reflexivity|]. by rewrite lookup_insert_ne.
Qed.

Lemma fold_js_set_proto (kvs : list (string * string))
      (m : gmap string (parsed number)) :
  fold_left (fun m kv =>
               js_set (fst kv) (parseMapValue number parseFloat (snd kv)) m)
            kvs m !! "__proto__"%string
  = m !! "__proto__"%string.
Proof.
  revert m. induction kvs as [|kv kvs IH]; intros m; [reflexivity|].
  cbn [fold_left]. rewrite IH. unfold js_set.
  case_decide as E; [reflexivity|]. by rewrite lookup_insert_ne.
Qed.

Lemma parseMapLines_fold (first : string) (kvs : list (string * string)) :
  forallb (fun kv => lacks ":" (fst kv)) kvs = true ->
  parseMapLines number parseFloat (first :: List.map render_line kvs)
  = fold_left (fun m kv =>
                 js_set (fst kv) (parseMapValue number parseFloat (snd kv)) m)
              kvs ∅.
Proof.
  unfold parseMapLines. cbn [List.tl].
  generalize (∅ : gmap string (parsed number)).
  induction kvs as [|kv kvs IH]; intros m Hk; [reflexivity|].
  cbn [forallb] in Hk. apply andb_prop in Hk as [Hkv Hk].
  cbn [List.map fold_left].
  rewrite parseMapLines_line_render by exact Hkv. by apply IH.
Qed.

(** X14: a key that comes on several lines of a reply keeps the value
    of its last line; a key that comes on none is absent; and a line
    whose key is [__proto__] adds nothing. *)
Theorem parseMapLines_last_wins (first k : string)
        (kvs : list (string * string)) :
  forallb (fun kv => lacks ":" (fst kv)) kvs = true ->
  parseMapLines number parseFloat (first :: List.map render_line kvs) !! k
  = if decide (k = "__proto__"%string) then None
    else option_map (parseMapValue number parseFloat) (last_value k kvs).
Proof.
  intros Hk. rewrite parseMapLines_fold by exact Hk.
  case_decide as E.
  - subst k. by rewrite fold_js_set_proto.
  - rewrite fold_js_set_lookup by exact E.
    by destruct (last_value k kvs).
Qed.

Lemma substring_from_1 (s : string) :
  JsString.substring_from 1 s = behead s.
Proof.
  unfold JsString.substring_from, JsString.substring.
  destruct s as [|c s]; [reflexivity|].
  cbn [String.length behead].
  rewrite !clamp_id by lia.
  rewrite Z.min_l, Z.max_r by lia.
  replace (Z.to_nat (Z.of_nat (S (String.length s)) - 1))
    with (String.length s) by lia.
  change (Z.to_nat 1) with 1%nat. cbn [String.substring].
  clear c. induction s as [|d s IH]; [reflexivity|].
  cbn [String.length String.substring]. by rewrite IH.
Qed.

Lemma substring_0_neg (s : string) : JsString.substring 0 (-1) s = EmptyString.
Proof.
  unfold JsString.substring. rewrite (clamp_id 0) by lia.
  change (JsString.clamp (-1) (Z.of_nat (String.length s))) with 0.
  by destruct s.
Qed.

Lemma lacks_behead (c : ascii) (s : string) :
  lacks c s = true -> lacks c (behead s) = true.
Proof.
  destruct s as [|d s]; [done|]. cbn [lacks behead]. intros H.
  by apply andb_prop in H as [_ H].
Qed.

Lemma parseMapLines_line_colonless (m : gmap string (parsed number))
      (line : string) :
  lacks ":" line = true ->
  parseMapLines_line number parseFloat m line
  = <[EmptyString := VText (behead line)]> m.
Proof.
  intros H. unfold parseMapLines_line, JsString.indexOf.
  rewrite indexOf_from_lacks by exact H.
  change (-1 + 2) with 1. rewrite substring_0_neg, substring_from_1.
  rewrite parseMapValue_text.
  - unfold js_set. by rewrite decide_False.
  - unfold JsString.indexOf.
    rewrite indexOf_from_lacks by (by apply lacks_behead). lia.
Qed.

(** X15: a line without a colon is not skipped: it is filed under the
    empty key, without its first character, and replaces what an
    earlier such line left there. *)
Theorem parseMapLines_colonless (first line : string) (lines : list string) :
  lacks ":" line = true ->
  parseMapLines number parseFloat (first :: lines ++ [line]) !! EmptyString
  = Some (VText (behead line)).
Proof.
  intros H. unfold parseMapLines. cbn [List.tl].
  rewrite fold_left_app. cbn [fold_left].
  rewrite parseMapLines_line_colonless by exact H.
  by rewrite lookup_insert_eq.
Qed.

End ParserEdges.

(** * [getStatus] *)

Section StatusFacts.

Variable number : Type.
Variable parseFloat : option string -> number.

(** X16: [status.info] of [getStatus]. Both [getStatus] and
    [parseMapLines] drop a first line, so that besides the echo of the
    command the first line of data, the machine type, is lost; the
    sixth line of the reply is parsed on its own and stored as [pos];
    the other lines are read as by [parseMapLines]. A reply of fewer
    than six lines makes the handler throw. *)
Theorem getStatus_info_lines (echo : string) (first : string * string)
        (pre post : list (string * string)) (position : string) :
  List.length pre = 3%nat ->
  forallb (fun kv => lacks ":" (fst kv)) (pre ++ post) = true ->
  exists info,
    getStatus_info number parseFloat
      (echo :: render_line first :: List.map render_line pre
         ++ position :: List.map render_line post) = Ok info /\
    info !! "pos"%string = Some (parseMapValue number parseFloat position) /\
    (forall k, k <> "pos"%string ->
       info !! k
       = if decide (k = "__proto__"%string) then None
         else option_map (parseMapValue number parseFloat)
                         (last_value k (pre ++ post))) /\
    forall lines, (List.length lines < 6)%nat ->
      getStatus_info number parseFloat lines = Throw TypeError.
Proof.
  intros Hpre Hk.
  destruct pre as [|a [|b [|c [|d pre]]]]; try discriminate Hpre.
  eexists. split; [|split; [|split]].
  - unfold getStatus_info. cbn [drop List.map List.app lookup list_lookup
                                  delete list_delete].
    reflexivity.
  - unfold js_set. rewrite decide_False by discriminate.
    by rewrite lookup_insert_eq.
  - intros k Hne. unfold js_set at 1. rewrite decide_False by discriminate.
    rewrite lookup_insert_ne by congruence.
    change (render_line a :: render_line b :: render_line c
              :: List.map render_line post)
      with (List.map render_line ([a; b; c] ++ post)).
    rewrite (parseMapLines_fold number parseFloat) by exact Hk.
    case_decide as E.
    + subst k. by rewrite fold_js_set_proto.
    + rewrite fold_js_set_lookup by exact E.
      by destruct (last_value k _).
  - intros lines Hl. unfold getStatus_info.
    destruct lines as [|l0 [|l1 [|l2 [|l3 [|l4 [|l5 lines]]]]]];
      try reflexivity.
    cbn [List.length] in Hl. lia.
Qed.

End StatusFacts.

(** * GXScan *)

Section Scan.

Variable subnet : string.

Lemma addr_not_proto (ep : Z) : addr subnet ep <> "__proto__"%string.
Proof.
  intros H. assert (E : lacks "." (addr subnet ep) = true) by (by rewrite H).
  unfold addr in E. rewrite lacks_append in E.
  apply andb_prop in E as [_ E]. discriminate E.
Qed.

Lemma js_set_addr (ep : Z) (v : bool) (m : gmap string bool) :
  js_set (addr subnet ep) v m = <[addr subnet ep := v]> m.
Proof. unfold js_set. rewrite decide_False; [done|apply addr_not_proto]. Qed.

Lemma alist_fold (l : list Z) (m : gmap string bool) (ep : Z) :
  ep ∈ l \/ m !! addr subnet ep = Some true ->
  fold_left (fun m ep => js_set (addr subnet ep) true m) l m
    !! addr subnet ep = Some true.
Proof.
  revert m. induction l as [|x l IH]; intros m H.
  - destruct H as [H|H]; [by apply elem_of_nil in H|exact H].
  - cbn [fold_left]. apply IH. rewrite js_set_addr.
    destruct H as [H|H].
    + apply elem_of_cons in H as [->|H]; [right|by left].
      by rewrite lookup_insert_eq.
    + right. rewrite lookup_insert. case_decide; [reflexivity|exact H].
Qed.

Lemma GXScan_all_listed : all_listed subnet (alist (GXScan subnet)).
Proof.
  intros ep Hep. cbn [GXScan alist]. apply alist_fold. left.
  apply elem_of_seqZ. lia.
Qed.

Lemma count_cons (ev : scan_event) (evs : list scan_event) :
  Z.of_nat (List.length (List.filter scan_counts (ev :: evs)))
  = (if scan_counts ev then 1 else 0)
    + Z.of_nat (List.length (List.filter scan_counts evs)).
Proof.
  cbn [List.filter]. destruct (scan_counts ev); cbn [List.length]; lia.
Qed.

Lemma scan_run_cons (callback : bool) (ev : scan_event)
      (evs : list scan_event) (s : GXScan_state) :
  scan_run subnet callback (ev :: evs) s
  = scan_run subnet callback evs (scan_step subnet callback ev s).
Proof. reflexivity. Qed.

Lemma scan_run_app (callback : bool) (evs evs' : list scan_event)
      (s : GXScan_state) :
  scan_run subnet callback (evs ++ evs') s
  = scan_run subnet callback evs' (scan_run subnet callback evs s).
Proof. apply fold_left_app. Qed.

(** Before the last counted event. *)
Lemma scan_before (callback : bool) (evs : list scan_event)
      (s : GXScan_state) :
  all_listed subnet (alist s) ->
  Z.of_nat (List.length (List.filter scan_counts evs)) < search s ->
  let s' := scan_run subnet callback evs s in
  all_listed subnet (alist s') /\ reported s' = reported s /\
  search s' = search s - Z.of_nat (List.length (List.filter scan_counts evs))
  /\ found s' = found s ++ scan_hosts subnet evs.
Proof.
  revert s. induction evs as [|ev evs IH]; intros s Ha Hc.
  - cbn. rewrite app_nil_r. repeat split; [exact Ha|lia].
  - rewrite count_cons in Hc |- *. cbv zeta. rewrite scan_run_cons.
    assert (H1 : all_listed subnet (alist (scan_step subnet callback ev s)) /\
                 reported (scan_step subnet callback ev s) = reported s /\
                 search (scan_step subnet callback ev s)
                 = search s - (if scan_counts ev then 1 else 0) /\
                 found (scan_step subnet callback ev s)
                 = found s ++ scan_hosts subnet [ev]).
    { unfold scan_step, scan_counts, scan_hosts. cbn [flat_map].
      destruct ((1 <=? scan_host ev) && (scan_host ev <? 255)) eqn:Hr;
        cbn [andb].
      2:{ rewrite Z.sub_0_r.
          destruct ev; cbn [scan_host] in Hr; rewrite ?Hr, ?app_nil_r;
            by repeat split. }
      assert (Hep : 1 <= scan_host ev < 255) by lia.
      destruct ev as [ep|ep|ep|ep]; cbn [scan_host] in Hr, Hep;
        rewrite ?Hr, ?app_nil_r;
        try (unfold scan_done; rewrite (Ha ep Hep);
             unfold scan_counts in Hc; cbn [scan_host] in Hc;
             rewrite Hr in Hc; cbn [andb] in Hc;
             replace (search s - 1 =? 0) with false by lia;
             cbn [andb alist reported search found];
             by repeat split).
      cbn [alist reported search found]. rewrite Z.sub_0_r. by repeat split. }
    destruct H1 as (A1 & R1 & S1 & F1).
    destruct (IH (scan_step subnet callback ev s) A1) as (A & R & S & F);
      [lia|].
    cbv zeta in A, R, S, F. rewrite R, S, F, R1, S1, F1.
    repeat split; [exact A|lia|].
    rewrite <- app_assoc. f_equal.
    unfold scan_hosts. cbn [flat_map]. by rewrite app_nil_r.
Qed.

(** After it. *)
Lemma scan_after (callback : bool) (evs : list scan_event)
      (s : GXScan_state) :
  search s <= 0 ->
  reported (scan_run subnet callback evs s) = reported s.
Proof.
  revert s. induction evs as [|ev evs IH]; intros s Hs; [reflexivity|].
  rewrite scan_run_cons.
  assert (H1 : search (scan_step subnet callback ev s) <= 0 /\
               reported (scan_step subnet callback ev s) = reported s).
  { unfold scan_step. destruct (_ && _); [|by split].
    destruct ev as [ep|ep|ep|ep]; try (by split);
      unfold scan_done; destruct (alist s !! addr subnet ep) as [[]|];
      try (by split);
      replace (search s - 1 =? 0) with false by lia;
      cbn [andb search reported]; split; (lia || reflexivity). }
  destruct H1 as [S1 R1]. by rewrite IH, R1.
Qed.

(** X17: a scan calls its callback once, at the 254th event among the
    errors, the closes and the timeouts of its sockets, whichever hosts
    they come from: an error and the close that follows it count as
    two. The callback gets the sorted addresses of the hosts that had
    connected by then. *)
Theorem scan_reports_once (before after : list scan_event)
        (ev : scan_event) :
  nonempty subnet = true ->
  List.length (List.filter scan_counts before) = 253%nat ->
  scan_counts ev = true ->
  reported (scan_run subnet true before (GXScan subnet)) = [] /\
  reported (scan_run subnet true (before ++ ev :: after) (GXScan subnet))
  = [js_sort (scan_hosts subnet before)].
Proof.
  intros _ Hb Hev.
  destruct (scan_before true before (GXScan subnet) GXScan_all_listed)
    as (A & R & S & F); [cbn [GXScan search]; lia|].
  cbv zeta in A, R, S, F. split; [exact R|].
  rewrite scan_run_app, scan_run_cons.
  set (s1 := scan_run subnet true before (GXScan subnet)) in *.
  rewrite Hb in S. cbn [GXScan search found reported] in S, F, R.
  assert (H1 : search (scan_step subnet true ev s1) = 0 /\
               reported (scan_step subnet true ev s1)
               = [js_sort (scan_hosts subnet before)]).
  { unfold scan_counts in Hev. apply andb_prop in Hev as [Hr Hk].
    unfold scan_step. rewrite Hr.
    assert (Hep : 1 <= scan_host ev < 255) by lia.
    destruct ev as [ep|ep|ep|ep]; try discriminate Hk;
      cbn [scan_host] in Hep; unfold scan_done; rewrite (A ep Hep), S;
      cbn [Z.eqb andb search reported]; rewrite R, F; by split. }
  destruct H1 as [S1 R1]. rewrite scan_after by lia. exact R1.
Qed.

End Scan.

(** * GXSender *)

Section SenderFacts.

Variable crc : list byte -> Z.

Lemma sender_blocks_idle (buffer : list byte) (w : World) :
  idle w = true ->
  idle (sender_blocks crc buffer w) = true /\
  wire (sender_blocks crc buffer w) = wire w /\
  calls (sender_blocks crc buffer w) = calls w /\
  List.map cmd (queue (ctrl (sender_blocks crc buffer w)))
  = List.map cmd (queue (ctrl w)) ++ List.map Binary (blocks crc buffer) /\
  (forallb has_resolve (queue (ctrl w)) = true ->
   forallb has_resolve (queue (ctrl (sender_blocks crc buffer w))) = true).
Proof.
  unfold sender_blocks, blocks.
  generalize (seqZ 0 (ceil_div (Buffer.length buffer) 4096)). intros l.
  revert w. induction l as [|s l IH]; intros w Hi; cbn [fold_left List.map].
  - rewrite app_nil_r. by repeat split.
  - destruct (sendBuffer_idle (block crc buffer s) (Some (resolve_of 0))
                              (Some (reject_of 0)) w Hi) as (I & W & C & _).
    destruct (IH _ I) as (I' & W' & C' & Q' & R').
    rewrite W', C', W, C, Q', queue_sendBuffer, map_app, <- app_assoc.
    repeat split; try assumption.
    intros Hr. apply R'. rewrite queue_sendBuffer, forallb_app, Hr.
    reflexivity.
Qed.

Lemma GXSender_then_idle (buffer : list byte) (filename : option string)
      (w : World) :
  idle w = true -> queue (ctrl w) = [] ->
  let w' := GXSender_then crc buffer filename w in
  idle w' = true /\ wire w' = wire w /\ calls w' = calls w /\
  List.map cmd (queue (ctrl w'))
  = sender_lines crc (device_path (default EmptyString filename)) buffer /\
  forallb has_resolve (queue (ctrl w')) = true.
Proof.
  intros Hi Hq. cbv zeta. unfold GXSender_then. cbv zeta.
  set (path := device_path (default EmptyString filename)).
  unfold release.
  set (w12 := sendCommand "M27" _ _ _).
  set (w7 := sendCommand ("M28 " ++ _) _ _ _) in w12.
  set (w8 := sender_blocks crc buffer w7) in w12.
  assert (H7 : idle w7 = true /\ wire w7 = wire w /\ calls w7 = calls w).
  { unfold w7.
    assert (Hw : wire w = wire w) by reflexivity.
    assert (Hc : calls w = calls w) by reflexivity.
    revert Hw Hc. generalize (wire w) at 1 3. generalize (calls w) at 1 3.
    intros cs ws Hw Hc. repeat step_idle. by repeat split. }
  destruct H7 as (I7 & W7 & C7).
  assert (Q7 : queue (ctrl w7)
               = List.map (fun c => text_entry c (Some (resolve_of 0))
                                               (Some (reject_of 0)))
                   ["M115"; "M650"; "M115"; "M114"; "M27"; "M119"; "M105";
                    "M28 " ++ pretty (Buffer.length buffer) ++ path]%string)
    by (unfold w7; rewrite !queue_sendCommand, Hq; reflexivity).
  destruct (sender_blocks_idle buffer w7 I7) as (I8 & W8 & C8 & Q8 & R8).
  fold w8 in I8, W8, C8, Q8, R8.
  assert (R7 : forallb has_resolve (queue (ctrl w8)) = true)
    by (apply R8; rewrite Q7; reflexivity).
  assert (H12 : idle w12 = true /\ wire w12 = wire w8 /\
                calls w12 = calls w8).
  { unfold w12. clearbody w8.
    assert (Hw : wire w8 = wire w8) by reflexivity.
    assert (Hc : calls w8 = calls w8) by reflexivity.
    revert Hw Hc. generalize (wire w8) at 1 3. generalize (calls w8) at 1 3.
    intros cs ws Hw Hc. repeat step_idle. by repeat split. }
  destruct H12 as (I12 & W12 & C12).
  assert (Q12 : queue (ctrl w12)
                = queue (ctrl w8)
                    ++ List.map (fun c => text_entry c (Some (resolve_of 0))
                                                     (Some (reject_of 0)))
                         ["M29"; "M23" ++ path; "M119"; "M105"; "M27"]%string)
    by (unfold w12; rewrite !queue_sendCommand, <- !app_assoc; reflexivity).
  destruct (send_idle 1 (Text "M602") w12 I12) as (I & Q & W & C & _).
  rewrite W, C, W12, C12, W8, C8, W7, C7, Q, Q12.
  repeat split; try assumption.
  - rewrite !map_app, Q8, Q7. unfold sender_lines.
    rewrite <- !app_assoc. reflexivity.
  - rewrite !forallb_app, R7. reflexivity.
Qed.

(** X18: [GXSender] on a healthy connection, every command
    acknowledged: the file read from disk goes out in the blocks of
    [print], between the same commands but with one space where
    [print] has two before the path, followed by [M119], [M105], [M27]
    and the [M602] of [close()]. *)
Theorem GXSender_wire (buffer : list byte) (filename : option string)
        (rs : list reply) (w : World) :
  idle w = true -> queue (ctrl w) = [] ->
  List.length rs = (14 + List.length (blocks crc buffer))%nat ->
  forallb reply_ok rs = true ->
  exists w',
    run (List.concat (List.map exchange rs))
        (GXSender_then crc buffer filename w) = Ok w' /\
    idle w' = true /\ queue (ctrl w') = [] /\
    wire w'
    = wire w
        ++ sender_lines crc (device_path (default EmptyString filename))
                        buffer.
Proof.
  intros Hi Hq Hlen Hrs.
  destruct (GXSender_then_idle buffer filename w Hi Hq)
    as (I0 & W0 & C0 & Q0 & R0).
  set (w0 := GXSender_then crc buffer filename w) in *.
  destruct (pipeline_run rs w0 I0 R0) as (w' & R & I & Q & W & _);
    [|exact Hrs|].
  - rewrite <- (length_map cmd), Q0. unfold sender_lines.
    rewrite !length_app, !length_map. cbn [List.length]. lia.
  - exists w'. rewrite R, W, W0, Q0. by repeat split.
Qed.

End SenderFacts.

(** * TCPipe *)

Lemma relay_snoc (chunks : list (TCPipe.side * list byte))
      (c : TCPipe.side * list byte) (s : TCPipe.state) :
  TCPipe.relay (chunks ++ [c]) s
  = let* s := TCPipe.relay chunks s in TCPipe.on_data (fst c) (snd c) s.
Proof.
  revert s. induction chunks as [|[sd d] chunks IH]; intros s.
  - destruct c as [sd d]. cbn [List.app TCPipe.relay fst snd bind].
    by destruct (TCPipe.on_data sd d s).
  - cbn [List.app TCPipe.relay].
    destruct (TCPipe.on_data sd d s) as [s1|e]; cbn [bind]; [apply IH|done].
Qed.

Lemma side_eqb_refl (sd : TCPipe.side) : TCPipe.side_eqb sd sd = true.
Proof. by destruct sd. Qed.

Lemma relay_state (chunks : list (TCPipe.side * list byte)) :
  exists s,
    TCPipe.relay chunks TCPipe.init = Ok s /\
    TCPipe.to_server s = TCPipe.sent_by TCPipe.Client chunks /\
    TCPipe.to_client s = TCPipe.sent_by TCPipe.Server chunks /\
    TCPipe.last s = option_map fst (List.head (rev chunks)) /\
    TCPipe.buf s
    = option_map (fun c => TCPipe.trailing (fst c) (rev chunks))
                 (List.head (rev chunks)).
Proof.
  induction chunks as [|[sd d] chunks IH] using rev_ind.
  - by eexists.
  - destruct IH as (s & R & TS & TC & L & B).
    rewrite relay_snoc, R. cbn [bind fst snd].
    rewrite rev_app_distr. cbn [rev List.app List.head option_map fst].
    cbn [TCPipe.trailing]. rewrite side_eqb_refl.
    unfold TCPipe.sent_by. rewrite !List.filter_app, !map_app.
    cbn [List.filter fst].
    unfold TCPipe.on_data, TCPipe.onData. rewrite L.
    destruct (List.head (rev chunks)) as [[sd' d']|] eqn:Hh;
      cbn [option_map fst] in *.
    + destruct (TCPipe.side_eqb sd' sd) eqn:E; cbn [negb].
      * assert (sd' = sd) as -> by (by destruct sd', sd).
        rewrite B. cbn [bind].
        destruct sd; eexists; (split; [reflexivity|]);
          cbn [TCPipe.to_server TCPipe.to_client TCPipe.last TCPipe.buf
               TCPipe.side_eqb List.map snd];
          rewrite ?app_nil_r, TS, TC; repeat split;
          unfold Buffer.concat; cbn [List.concat]; by rewrite app_nil_r.
      * cbn [TCPipe.emit bind].
        assert (T : TCPipe.trailing sd (rev chunks) = []).
        { destruct (rev chunks) as [|[sd0 d0] r]; [done|].
          cbn [List.head] in Hh. injection Hh as -> ->.
          cbn [TCPipe.trailing]. by rewrite E. }
        rewrite T.
        destruct sd; eexists; (split; [reflexivity|]);
          cbn [TCPipe.to_server TCPipe.to_client TCPipe.last TCPipe.buf
               TCPipe.side_eqb List.map snd List.app];
          rewrite ?app_nil_r, TS, TC; by repeat split.
    + cbn [negb TCPipe.emit bind].
      assert (T : TCPipe.trailing sd (rev chunks) = [])
        by (by destruct (rev chunks)).
      rewrite T.
      destruct sd; eexists; (split; [reflexivity|]);
        cbn [TCPipe.to_server TCPipe.to_client TCPipe.last TCPipe.buf
             TCPipe.side_eqb List.map snd List.app];
        rewrite ?app_nil_r, TS, TC; by repeat split.
Qed.

(** X19: the pipe passes every chunk on unchanged and in order, in both
    directions. When the server ends the connection, the handler throws
    a type error if no chunk has passed; otherwise it logs the side
    that sent last and the bytes of its latest uninterrupted run. *)
Theorem pipe_relays (chunks : list (TCPipe.side * list byte)) :
  exists s,
    TCPipe.relay chunks TCPipe.init = Ok s /\
    TCPipe.to_server s = TCPipe.sent_by TCPipe.Client chunks /\
    TCPipe.to_client s = TCPipe.sent_by TCPipe.Server chunks /\
    match List.head (rev chunks) with
    | None => TCPipe.on_server_end s = Throw TypeError
    | Some (from, _) =>
        exists s',
          TCPipe.on_server_end s = Ok s' /\
          TCPipe.emitted s'
          = TCPipe.emitted s ++ [(from, TCPipe.trailing from (rev chunks))]
    end.
Proof.
  destruct (relay_state chunks) as (s & R & TS & TC & L & B).
  exists s. repeat split; try assumption.
  unfold TCPipe.on_server_end. rewrite L, B.
  destruct (List.head (rev chunks)) as [[from d]|]; [|reflexivity].
  cbn [option_map fst TCPipe.emit]. by eexists.
Qed.

(** * [getStatus]: state and temperatures *)

Lemma skip_spaces_spaces (n : nat) (r : string) :
  skip_spaces (spaces n ++ String "/" r) = String "/" r.
Proof. induction n as [|n IH]; [reflexivity|exact IH]. Qed.

Lemma replace_slash_lacks (s r : string) :
  lacks " " s = true ->
  replace_spaces_slash (s ++ r) = (s ++ replace_spaces_slash r)%string.
Proof.
  induction s as [|c s IH]; intros Hs; [reflexivity|].
  cbn [lacks] in Hs. apply andb_prop in Hs as [Hc Hs].
  apply negb_true_iff in Hc.
  rewrite !append_cons. cbn [replace_spaces_slash]. by rewrite Hc, IH.
Qed.

Lemma replace_slash_gap (n : nat) (r : string) :
  replace_spaces_slash (spaces n ++ String "/" r)
  = String "/" (replace_spaces_slash r).
Proof.
  induction n as [|n IH]; [reflexivity|].
  cbn [spaces]. rewrite append_cons. cbn [replace_spaces_slash Ascii.eqb].
  change (Ascii.eqb " " " ") with true. cbv iota.
  rewrite skip_spaces_spaces. exact IH.
Qed.

Lemma replace_slash_plain (s : string) :
  lacks " " s = true -> replace_spaces_slash s = s.
Proof.
  intros H. rewrite <- (append_nil_r s) at 1.
  rewrite replace_slash_lacks by exact H. apply append_nil_r.
Qed.

Lemma reading_ok_parts (r : reading) :
  reading_ok r = true ->
  (lacks " " (rd_name r) = true /\ lacks ":" (rd_name r) = true /\
   lacks "/" (rd_name r) = true) /\
  (lacks " " (rd_now r) = true /\ lacks ":" (rd_now r) = true /\
   lacks "/" (rd_now r) = true) /\
  (lacks " " (rd_target r) = true /\ lacks ":" (rd_target r) = true /\
   lacks "/" (rd_target r) = true).
Proof. unfold reading_ok, plain. rewrite !andb_true_iff. tauto. Qed.

Lemma replace_slash_reading (r : reading) (rest : string) :
  reading_ok r = true ->
  replace_spaces_slash (render_reading r ++ rest)
  = (render_reading (close_up r) ++ replace_spaces_slash rest)%string.
Proof.
  intros Hok.
  apply reading_ok_parts in Hok as ((Hn & _) & (Hc & _) & (Ht & _)).
  unfold render_reading. cbn [close_up rd_name rd_now rd_gap rd_target spaces].
  rewrite !append_assoc, !append_cons.
  rewrite replace_slash_lacks by exact Hn. f_equal.
  cbn [replace_spaces_slash]. change (Ascii.eqb ":" " ") with false. cbv iota.
  f_equal. rewrite !append_assoc.
  rewrite replace_slash_lacks by exact Hc. f_equal.
  rewrite append_cons, replace_slash_gap.
  change (EmptyString ++ String "/" (rd_target r ++ rest))%string
    with (String "/" (rd_target r ++ rest)).
  f_equal. by rewrite replace_slash_lacks.
Qed.

Lemma skip_spaces_reading (r : reading) (rest : string) :
  reading_ok r = true ->
  exists d tail,
    skip_spaces (render_reading r ++ rest) = String d tail /\
    Ascii.eqb d "/" = false.
Proof.
  intros Hok.
  apply reading_ok_parts in Hok as ((Hs & _ & Hl) & _).
  unfold render_reading. rewrite append_assoc.
  destruct (rd_name r) as [|c n].
  - eexists _, _. split; [reflexivity|reflexivity].
  - cbn [lacks] in Hs, Hl.
    apply andb_prop in Hs as [Hs _]. apply andb_prop in Hl as [Hl _].
    apply negb_true_iff in Hs, Hl.
    rewrite append_cons. cbn [skip_spaces]. rewrite Hs.
    eexists _, _. split; [reflexivity|exact Hl].
Qed.

Lemma replace_slash_readings (rs : list reading) :
  forallb reading_ok rs = true ->
  replace_spaces_slash (render_readings rs)
  = render_readings (List.map close_up rs).
Proof.
  induction rs as [|r rest IH]; intros Hok; [reflexivity|].
  cbn [forallb] in Hok. apply andb_prop in Hok as [Hr Hrest].
  destruct rest as [|r' rest].
  - cbn [render_readings List.map].
    rewrite <- (append_nil_r (render_reading r)).
    rewrite replace_slash_reading by exact Hr.
    cbn [replace_spaces_slash]. by rewrite !append_nil_r.
  - change (render_readings (r :: r' :: rest))
      with (render_reading r
              ++ String " " (render_readings (r' :: rest)))%string.
    change (render_readings (List.map close_up (r :: r' :: rest)))
      with (render_reading (close_up r)
              ++ String " " (render_readings
                               (List.map close_up (r' :: rest))))%string.
    rewrite replace_slash_reading by exact Hr. f_equal.
    cbn [replace_spaces_slash]. change (Ascii.eqb " " " ") with true.
    cbv iota.
    assert (Hsk : exists d tail,
               skip_spaces (render_readings (r' :: rest)) = String d tail /\
               Ascii.eqb d "/" = false).
    { cbn [forallb] in Hrest. apply andb_prop in Hrest as [Hr' _].
      destruct rest as [|r'' rest]; cbn [render_readings].
      - rewrite <- (append_nil_r (render_reading r')).
        by apply skip_spaces_reading.
      - by apply skip_spaces_reading. }
    destruct Hsk as (d & tail & -> & ->). f_equal. by apply IH.
Qed.

Lemma lacks_space_reading (r : reading) :
  reading_ok r = true -> lacks " " (render_reading (close_up r)) = true.
Proof.
  intros Hok.
  apply reading_ok_parts in Hok as ((Hn & _) & (Hc & _) & (Ht & _)).
  unfold render_reading. cbn [close_up rd_name rd_now rd_gap rd_target spaces].
  rewrite lacks_append, Hn. cbn [lacks andb Ascii.eqb].
  change (negb (Ascii.eqb ":" " ")) with true. cbn [andb].
  rewrite lacks_append, Hc. cbn [List.app andb].
  change (EmptyString ++ String "/" (rd_target r))%string
    with (String "/" (rd_target r)).
  cbn [lacks]. change (negb (Ascii.eqb "/" " ")) with true. by rewrite Ht.
Qed.

Lemma split_readings (rs : list reading) :
  rs <> [] -> forallb reading_ok rs = true ->
  JsString.split " " (render_readings (List.map close_up rs))
  = List.map (fun r => render_reading (close_up r)) rs.
Proof.
  induction rs as [|r rest IH]; intros Hne Hok; [done|].
  cbn [forallb] in Hok. apply andb_prop in Hok as [Hr Hrest].
  destruct rest as [|r' rest].
  - cbn [render_readings List.map].
    by rewrite split_lacks by (by apply lacks_space_reading).
  - change (render_readings (List.map close_up (r :: r' :: rest)))
      with (render_reading (close_up r)
              ++ String " " (render_readings
                               (List.map close_up (r' :: rest))))%string.
    rewrite split_at by (by apply lacks_space_reading).
    cbn [List.map]. f_equal. by apply IH.
Qed.

Section StatusReplyFacts.

Variable number : Type.
Variable parseFloat : option string -> number.

Lemma getStatus_temp_reading (m : gmap string (list number)) (r : reading) :
  reading_ok r = true ->
  getStatus_temp number parseFloat m (render_reading (close_up r))
  = Ok (js_set (rd_name r)
               [parseFloat (Some (rd_now r)); parseFloat (Some (rd_target r))]
               m).
Proof.
  intros Hok.
  apply reading_ok_parts in Hok
    as ((_ & Hn & _) & (_ & Hc & Hs) & (_ & Ht & Hl)).
  unfold getStatus_temp, render_reading.
  cbn [close_up rd_name rd_now rd_gap rd_target spaces].
  change (EmptyString ++ String "/" (rd_target r))%string
    with (String "/" (rd_target r)).
  rewrite split_at by exact Hn.
  rewrite split_lacks
    by (rewrite lacks_append, Hc; cbn [lacks]; by rewrite Ht).
  cbn [lookup list_lookup List.nth].
  by rewrite split_at, split_lacks.
Qed.

Lemma getStatus_temp_each_readings (rs : list reading)
      (m : gmap string (list number)) :
  forallb reading_ok rs = true ->
  getStatus_temp_each number parseFloat m
    (List.map (fun r => render_reading (close_up r)) rs)
  = Ok (fold_left (fun m r =>
                     js_set (rd_name r)
                            [parseFloat (Some (rd_now r));
                             parseFloat (Some (rd_target r))] m) rs m).
Proof.
  revert m. induction rs as [|r rs IH]; intros m Hok; [reflexivity|].
  cbn [forallb] in Hok. apply andb_prop in Hok as [Hr Hrs].
  cbn [List.map getStatus_temp_each fold_left].
  rewrite getStatus_temp_reading by exact Hr. cbn [bind]. by apply IH.
Qed.

(** X21: [status.temps] of [getStatus]. The second line of the reply
    to [M105], made of readings [name:now/target] separated by single
    spaces, with any number of spaces before a slash, gives a map from
    each name to the pair of numbers (the last reading of a name
    winning). A reply of one line, and a line with no reading at all,
    make the handler throw. *)
Theorem getStatus_temps_reads (echo : string) (rs : list reading)
        (rest : list string) :
  forallb reading_ok rs = true ->
  getStatus_temps number parseFloat (echo :: render_readings rs :: rest)
  = match rs with
    | [] => Throw TypeError
    | _ :: _ =>
        Ok (fold_left (fun m r =>
                         js_set (rd_name r)
                                [parseFloat (Some (rd_now r));
                                 parseFloat (Some (rd_target r))] m) rs ∅)
    end
  /\ getStatus_temps number parseFloat [echo] = Throw TypeError.
Proof.
  intros Hok. split; [|reflexivity].
  unfold getStatus_temps. cbn [lookup list_lookup].
  destruct rs as [|r rs]; [reflexivity|].
  rewrite replace_slash_readings, split_readings by done.
  by apply getStatus_temp_each_readings.
Qed.

(** X20: [status.state] of [getStatus] is ["IDLE"] exactly when the
    last [MachineStatus] line of the reply to [M119] reads [READY];
    any other value, and a reply without such a line, give
    ["PRINTING"]. *)
Theorem getStatus_state_ready (first : string)
        (kvs : list (string * string)) :
  forallb (fun kv => lacks ":" (fst kv)) kvs = true ->
  getStatus_state number parseFloat (first :: List.map render_line kvs)
  = match last_value "MachineStatus" kvs with
    | Some v => if String.eqb v "READY" then "IDLE" else "PRINTING"
    | None => "PRINTING"
    end.
Proof.
  intros Hk. unfold getStatus_state.
  rewrite parseMapLines_fold by exact Hk.
  rewrite fold_js_set_lookup by discriminate.
  destruct (last_value "MachineStatus" kvs) as [v|]; [|reflexivity].
  unfold parseMapValue.
  destruct (JsString.indexOf ":" v >? 0) eqn:E; [|reflexivity].
  destruct (String.eqb_spec v "READY") as [->|_]; [discriminate E|reflexivity].
Qed.

End StatusReplyFacts.

(** * [print] without a connection *)












Section PrintUnconnected.

Variable crc : list byte -> Z.



End PrintUnconnected.

(** * The theorems at work *)

Lemma pipeline_fifo_witness :
  let w := sendCommand "M114" (Some (resolve_of 2)) (Some (reject_of 2))
             (sendCommand "M115" (Some (resolve_of 1)) (Some (reject_of 1))
                connected_world) in
  let rs := [{| sent_at := 1000;
                data := ["CMD M115 Received."; "Machine Type: Finder"];
                last_line := "ok" |};
             {| sent_at := 1001; data := ["CMD M114 Received."];
                last_line := "X:0 Y:0 Z:0 ok" |}] in
  exists w',
    run (List.concat (List.map exchange rs)) w = Ok w' /\
    idle w' = true /\ queue (ctrl w') = [] /\
    wire w' = wire w ++ List.map cmd (queue (ctrl w)) /\
    calls w' = calls w ++ deliveries (queue (ctrl w)) rs /\
    job w' = option_map (apply_calls (deliveries (queue (ctrl w)) rs)) (job w).
Proof. intros w rs. apply (pipeline_fifo rs w); reflexivity. Defined.

Lemma print_completes_witness :
  let r := {| sent_at := 1000; data := ["CMD Received."];
              last_line := "ok" |} in
  let rs := replicate 11 r in
  exists buffer w',
    GXWriter [x47] None Undefined Undefined = Ok buffer /\
    run (List.concat (List.map exchange (rs ++ [r])))
        (print crc32 "benchy" [x47] None Undefined Undefined connected_world)
    = Ok w' /\
    option_map promise (job w')
    = Some (PResolved " 0:/user/benchy.gx"
                      (List.concat (List.map delivered rs))).
Proof.
  intros r rs.
  destruct (GXWriter [x47] None Undefined Undefined) as [buffer|e] eqn:H;
    [|discriminate H].
  destruct (print_completes crc32 "benchy" [x47] None Undefined Undefined
                            connected_world buffer rs r)
    as (w' & R & _ & _ & _ & J);
    [reflexivity|reflexivity|exact H| |reflexivity|reflexivity|].
  - injection H as <-. vm_compute. reflexivity.
  - exists buffer, w'. by repeat split.
Defined.

Lemma handshake_witness :
  exists w',
    run (SocketConnect :: List.map Line ["Control Success."] ++ [Line "ok"])
        (fst (_connect "printer" 8899 World_new)) = Ok w' /\
    snd (_connect "printer" 8899 World_new) = CPending /\
    idle w' = true /\ queue (ctrl w') = [] /\
    option_map connecting (attempt w') = Some CResolved /\
    wire w' = wire World_new ++ [Text ("~M601 S1" ++ CRLF)] /\
    calls w' = calls World_new /\ job w' = job World_new.
Proof.
  apply (handshake "printer" 8899 ["Control Success."] "ok" World_new);
    reflexivity.
Defined.

Lemma error_is_sticky_witness :
  let w := with_ctrl (set_error (JStr "disconnected")) World_new in
  let acts := [CallConnect "printer" 8899; Happens SocketConnect;
               Happens (Line "ok")] in
  exists w',
    perform_all crc32 acts w = Ok w' /\ state (ctrl w') = Connected /\
    forall id c,
      calls (send id c w')
      = calls w' ++ [Reject (reject_of id) (error (ctrl w'))]
      /\ ctrl (send id c w') = ctrl w' /\ timers (send id c w') = timers w'
      /\ wire (send id c w') = wire w'.
Proof.
  intros w acts. eexists. split; [vm_compute; reflexivity|].
  split; [reflexivity|].
  apply (error_is_sticky crc32 acts w); reflexivity.
Defined.

Lemma send_round_trip_witness :
  let r := {| sent_at := 1000; data := ["CMD M27 Received."];
              last_line := "SD printing byte 0/100 ok" |} in
  exists w',
    run (exchange r) (send 7 (Text "M27") connected_world) = Ok w' /\
    idle w' = true /\ queue (ctrl w') = [] /\
    wire w' = wire connected_world ++ [Text ("~" ++ "M27" ++ CRLF)] /\
    calls w' = calls connected_world
                 ++ [Resolve (resolve_of 7) (delivered r)] /\
    job w' = job connected_world.
Proof.
  intros r. apply (send_round_trip 7 (Text "M27") r connected_world);
    reflexivity.
Defined.

Lemma print_rejects_unencodable_witness :
  let w' := print crc32 "benchy" [x47] None (Int (-1)) Undefined
              connected_world in
  option_map promise (job w') = Some (PRejected (JExn RangeError)) /\
  ctrl w' = ctrl connected_world /\ timers w' = timers connected_world /\
  wire w' = wire connected_world /\ calls w' = calls connected_world.
Proof.
  apply (print_rejects_unencodable crc32 "benchy" [x47] None (Int (-1))
                                   Undefined connected_world).
  intros (_ & [H _] & _). apply H. reflexivity.
Defined.

Lemma stale_timeout_poisons_witness :
  let w := print crc32 "benchy" [x47] None Undefined Undefined World_new in
  exists w',
    run (TimerFires 1000 :: SocketConnect :: List.map Line [] ++ [Line "ok"])
        (fst (_connect "printer" 8899 w)) = Ok w' /\
    state (ctrl w') = Connected /\
    option_map connecting (attempt w') = Some CResolved /\
    error (ctrl w') = JStr "disconnected" /\
    forall id c,
      calls (send id c w')
      = calls w' ++ [Reject (reject_of id) (JStr "disconnected")] /\
      queue (ctrl (send id c w')) = [] /\ wire (send id c w') = wire w'.
Proof.
  intros w.
  apply (stale_timeout_poisons "printer" 8899 1000 [] "ok" w 0);
    vm_compute; reflexivity.
Defined.


Lemma send_after_close_witness :
  exists w',
    run [Close] connected_world = Ok w' /\
    state (ctrl w') = Disconnected /\ calls w' = calls connected_world /\
    option_map connecting (attempt w') = Some CResolved /\
    calls (send 1 (Text "M27") w')
    = calls connected_world
        ++ [Reject (reject_of 1) (JStr "not connected")] /\
    queue (ctrl (send 1 (Text "M27") w')) = [] /\
    timers (send 1 (Text "M27") w') = 0%nat /\
    wire (send 1 (Text "M27") w') = wire connected_world.
Proof.
  apply (send_after_close 1 (Text "M27") connected_world); reflexivity.
Defined.

Lemma connect_attempts_witness :
  let e := JError "ECONNREFUSED" in
  connect Undefined (List.map CRejected [e; e; e; e] ++ CRejected e :: [])
  = (CRejected e, 5%nat) /\
  connect (Int 3) (List.map CRejected [e] ++ CResolved :: [])
  = (CResolved, 2%nat) /\
  connect (Int (-2)) (List.map CRejected [] ++ CRejected e :: [CResolved])
  = (CRejected e, 1%nat).
Proof.
  intros e. split; [|split].
  - apply (proj2 (connect_attempts Undefined [e; e; e; e] []) e). reflexivity.
  - apply (proj1 (connect_attempts (Int 3) [e] [])). reflexivity.
  - apply (proj2 (connect_attempts (Int (-2)) [] [CResolved]) e). reflexivity.
Defined.

Lemma GXWriter_fails_exactly_witness :
  GXWriter [x47] None (Int (-1)) Undefined = Throw RangeError /\
  exists header,
    GXWriter [x47] (Some [x42; x4d]) (Int 60) NaN
    = Ok (header ++ bmp_or_empty (Some [x42; x4d]) ++ [x47]) /\
    List.length header = 58%nat.
Proof.
  split.
  - apply (GXWriter_fails_exactly [x47] None (Int (-1)) Undefined).
    intros (_ & [H _] & _). apply H. reflexivity.
  - apply (GXWriter_fails_exactly [x47] (Some [x42; x4d]) (Int 60) NaN).
    unfold fits_u32. vm_compute. repeat split; congruence.
Defined.

Lemma blocks_reassemble_witness :
  let blk := block crc32 [x01; x02; x03] 0 in
  List.length blk = 4112%nat /\
  recorded_index blk = Z.of_nat 0 mod 2 ^ 32 /\
  recorded_crc blk = crc32 (unblock blk) mod 2 ^ 32.
Proof.
  intros blk.
  apply (proj2 (blocks_reassemble crc32 [x01; x02; x03]) 0%nat blk).
  reflexivity.
Defined.

Lemma parseMapLines_last_wins_witness :
  parseMapLines number_text keep_text
    ("CMD M119 Received."
       :: List.map render_line [("Status", "S:0 L:0"); ("Status", "READY")])
    !! "Status"%string
  = if decide ("Status"%string = "__proto__"%string) then None
    else option_map (parseMapValue number_text keep_text)
           (last_value "Status" [("Status", "S:0 L:0"); ("Status", "READY")]).
Proof.
  apply (parseMapLines_last_wins number_text keep_text "CMD M119 Received."
           "Status" [("Status", "S:0 L:0"); ("Status", "READY")]).
  reflexivity.
Defined.

Lemma parseMapLines_colonless_witness :
  parseMapLines number_text keep_text
    ("CMD M27 Received." :: [] ++ ["SD printing byte 0/100"])
    !! EmptyString
  = Some (VText (behead "SD printing byte 0/100")).
Proof.
  apply (parseMapLines_colonless number_text keep_text "CMD M27 Received."
           "SD printing byte 0/100" []).
  reflexivity.
Defined.

Lemma getStatus_info_lines_witness :
  let pre := [("Machine Name", "Finder"); ("Firmware", "v1.5");
              ("SN", "0001")] in
  let post := [("Tool Count", "1")] in
  exists info,
    getStatus_info number_text keep_text
      ("CMD M115 Received." :: render_line ("Machine Type", "Flashforge")
         :: List.map render_line pre
         ++ "X: 140 Y: 140 Z: 140" :: List.map render_line post) = Ok info /\
    info !! "pos"%string
    = Some (parseMapValue number_text keep_text "X: 140 Y: 140 Z: 140") /\
    info !! "Machine Type"%string = None.
Proof.
  intros pre post.
  destruct (getStatus_info_lines number_text keep_text "CMD M115 Received."
              ("Machine Type", "Flashforge") pre post "X: 140 Y: 140 Z: 140")
    as (info & R & P & K & _); [reflexivity|reflexivity|].
  exists info. split; [exact R|]. split; [exact P|].
  rewrite K by discriminate. reflexivity.
Defined.

Lemma scan_reports_once_witness :
  let before := flat_map (fun ep => [HostError ep; HostClose ep]) (seqZ 1 126)
                  ++ [HostConnect 200; HostError 127] in
  reported (scan_run "192.168.1" true before (GXScan "192.168.1")) = [] /\
  reported (scan_run "192.168.1" true
              (before ++ HostClose 127 :: [HostConnect 201])
              (GXScan "192.168.1"))
  = [js_sort (scan_hosts "192.168.1" before)].
Proof.
  intros before.
  apply (scan_reports_once "192.168.1" before [HostConnect 201]
                           (HostClose 127)); vm_compute; reflexivity.
Defined.

Lemma GXSender_wire_witness :
  let r := {| sent_at := 1000; data := ["CMD Received."];
              last_line := "ok" |} in
  let rs := replicate 15 r in
  exists w',
    run (List.concat (List.map exchange rs))
        (GXSender_then crc32 [x47] (Some "benchy.gx") connected_world)
    = Ok w' /\
    idle w' = true /\ queue (ctrl w') = [] /\
    wire w'
    = wire connected_world
        ++ sender_lines crc32
             (device_path (default EmptyString (Some "benchy.gx"))) [x47].
Proof.
  intros r rs.
  apply (GXSender_wire crc32 [x47] (Some "benchy.gx") rs connected_world);
    vm_compute; reflexivity.
Defined.

Lemma getStatus_state_ready_witness :
  getStatus_state number_text keep_text
    ("CMD M119 Received."
       :: List.map render_line [("Endstop", "X-max: 1 Y-max: 0");
                                ("MachineStatus", "READY")])
  = match last_value "MachineStatus" [("Endstop", "X-max: 1 Y-max: 0");
                                      ("MachineStatus", "READY")] with
    | Some v => if String.eqb v "READY" then "IDLE" else "PRINTING"
    | None => "PRINTING"
    end.
Proof.
  apply (getStatus_state_ready number_text keep_text "CMD M119 Received."
           [("Endstop", "X-max: 1 Y-max: 0"); ("MachineStatus", "READY")]).
  reflexivity.
Defined.

Lemma getStatus_temps_reads_witness :
  let rs := [{| rd_name := "T0"; rd_now := "25"; rd_gap := 1;
                rd_target := "210" |};
             {| rd_name := "B"; rd_now := "23"; rd_gap := 0;
                rd_target := "0" |}] in
  getStatus_temps number_text keep_text
    ["CMD M105 Received."; render_readings rs]
  = Ok (fold_left (fun m r =>
                     js_set (rd_name r)
                            [keep_text (Some (rd_now r));
                             keep_text (Some (rd_target r))] m) rs ∅).
Proof.
  intros rs.
  apply (proj1 (getStatus_temps_reads number_text keep_text
                  "CMD M105 Received." rs [] eq_refl)).
Defined.

